(** * Book_Review_System: a shallow embedding of the server and its
      verified properties.

    The server is a set of Express route handlers over three Mongoose
    collections (Book, Review, User).  The embedding follows the source:

    - [server/models/Books.js]   : [Book], [updateAverageRating];
    - [server/models/Review.js]  : [Review], [helpfulnessScore], the three
      post hooks, and (second half of the file) the User schema with its
      virtual [stats];
    - the users router  : profile, follow toggle, wishlist, reading
      statistics, recommendations;
    - the reviews router: list of a book's reviews, create, update, delete,
      like, helpful vote;
    - the books router  : paginated list, featured and trending lists, nested
      review creation, deletion, featured flag.

    Conventions of the model.
    - An ObjectId is modelled by its 96-bit value, a number of type [N].  An
      id in a request reaches the handlers as text; it is taken in the form
      that [toString()] gives an id, except in the follow route, whose guard
      compares the text itself and which is modelled on the text ([IdText]).
    - A JavaScript Number that the modelled code only ever makes from the
      integers of a collection by [+], [*] and one division, as the rating
      aggregate and the page counts are, is a rational of type [Q]; where the
      code divides two Numbers of the documents ([readingStats],
      [helpfulnessScore]) the binary64 numbers of module [JSNumber] are used.
    - A string is the sequence of bytes of its UTF-8 encoding; its length in
      UTF-16 code units, which is what [length] counts, is computed from the
      bytes.
    - A collection addressed by [_id] only through [findById] and [save] is a
      [gmap] from ids to documents; the Review collection, which the code
      queries by content, is the list of its documents in insertion order.
    - Schema fields that no modelled operation reads or writes (description,
      publisher, cover image, password hash, ...) are left out of the records,
      and so is the bookkeeping that Mongoose does on its own account (the
      [updatedAt] timestamp and the version key [__v]).
    - The documents of the database are taken to satisfy their schemas.
    - A request body is a record of the properties that the model keeps; a
      body with other properties is outside the model. *)

From Stdlib Require Import ZArith QArith Qround Lia Lqa Ascii String List Sorted.
From Stdlib Require SpecFloat.
From stdpp Require Import base option gmap list fin_maps sorting.

Local Open Scope Z_scope.

Abbreviation ObjectId := N.

(** ** JavaScript numbers *)

(** [Math.round]: the integer closest to [x], ties towards +infinity. *)
Definition Math_round (x : Q) : Z := Qfloor (x + (1 # 2))%Q.

(** [Math.ceil]. *)
Definition Math_ceil (x : Q) : Z := Qceiling x.

(** Sum of a list of integer ratings, the accumulator of [$avg]. *)
Definition sumZ (l : list Z) : Z := foldr Z.add 0 l.

(** Numbers as the engine has them: IEEE 754 binary64, with the operations
    of [SpecFloat] (round to nearest, ties to even). *)
Module JSNumber.

Definition num : Type := SpecFloat.spec_float.

Definition prec : Z := 53.
Definition emax : Z := 1024.

Definition zero : num := SpecFloat.S754_zero false.
Definition Infinity : num := SpecFloat.S754_infinity false.
Definition NaN : num := SpecFloat.S754_nan.

(** The Number of an integer. *)
Definition of_Z (z : Z) : num := SpecFloat.binary_normalize prec emax z 0 false.

Definition of_nat (n : nat) : num := of_Z (Z.of_nat n).

(** [x / y] *)
Definition div (x y : num) : num := SpecFloat.SFdiv prec emax x y.

(** [x * y] *)
Definition mul (x y : num) : num := SpecFloat.SFmul prec emax x y.

(** [x <= y] *)
Definition leb (x y : num) : bool := SpecFloat.SFleb x y.

(** [Math.round(x)]: the integer closest to [x], ties towards +infinity;
    a number with a non-negative exponent is an integer already, and for
    [s m 2^e] with [e < 0] the result is [floor((2 s m + 2^-e) / 2^(1-e))],
    a zero keeping the sign of [x]. *)
Definition round (x : num) : num :=
  match x with
  | SpecFloat.S754_finite s m e =>
      if 0 <=? e then x
      else
        let k := (2 * (if s then Z.neg m else Z.pos m) + 2 ^ (- e)) / 2 ^ (1 - e) in
        if k =? 0 then SpecFloat.S754_zero s else of_Z k
  | _ => x
  end.

(** [Number.isFinite(x)] *)
Definition isFinite (x : num) : bool :=
  match x with
  | SpecFloat.S754_zero _ | SpecFloat.S754_finite _ _ _ => true
  | _ => false
  end.

End JSNumber.

(** ** JavaScript strings *)

(** The UTF-16 code units that a byte of a UTF-8 text stands for: none for a
    continuation byte, two (a surrogate pair) for the first byte of a
    four-byte sequence, one for any other byte. *)
Definition code_units (c : ascii) : nat :=
  let n := N_of_ascii c in
  if (n <? 0x80)%N then 1%nat
  else if (n <? 0xC0)%N then 0%nat
  else if (n <? 0xF0)%N then 1%nat
  else 2%nat.

(** [s.length] *)
Fixpoint js_length (s : string) : nat :=
  match s with
  | EmptyString => 0%nat
  | String c s' => (code_units c + js_length s')%nat
  end.

(** The matches of [/[\uD800-\uDBFF][\uDC00-\uDFFF]/g]: the four-byte
    sequences. *)
Fixpoint surrogatePairs (s : string) : nat :=
  match s with
  | EmptyString => 0%nat
  | String c s' => ((if (0xF0 <=? N_of_ascii c)%N then 1 else 0) + surrogatePairs s')%nat
  end.

(** The matches of [/(\uFE0F|\uFE0E)/g]: the byte sequences EF B8 8F and
    EF B8 8E. *)
Fixpoint presentationSequences (s : string) : nat :=
  match s with
  | EmptyString => 0%nat
  | String a s' =>
      ((match s' with
        | String b (String c _) =>
            if (N_of_ascii a =? 0xEF)%N && (N_of_ascii b =? 0xB8)%N
               && ((N_of_ascii c =? 0x8F)%N || (N_of_ascii c =? 0x8E)%N)
            then 1 else 0
        | _ => 0
        end) + presentationSequences s')%nat
  end.

(** The length that the validator [isLength] compares with its bounds:
    [str.length - presentationSequences.length - surrogatePairs.length]. *)
Definition isLength_len (s : string) : nat :=
  (js_length s - presentationSequences s - surrogatePairs s)%nat.

(** The white space and line terminators that [String.prototype.trim]
    removes, as UTF-8 byte sequences: U+0009 to U+000D, U+0020, U+00A0,
    U+1680, U+2000 to U+200A, U+2028, U+2029, U+202F, U+205F, U+3000 and
    U+FEFF. *)
Definition white_space : list (list N) :=
  [ [0x09]; [0x0A]; [0x0B]; [0x0C]; [0x0D]; [0x20]; [0xC2; 0xA0];
    [0xE1; 0x9A; 0x80];
    [0xE2; 0x80; 0x80]; [0xE2; 0x80; 0x81]; [0xE2; 0x80; 0x82];
    [0xE2; 0x80; 0x83]; [0xE2; 0x80; 0x84]; [0xE2; 0x80; 0x85];
    [0xE2; 0x80; 0x86]; [0xE2; 0x80; 0x87]; [0xE2; 0x80; 0x88];
    [0xE2; 0x80; 0x89]; [0xE2; 0x80; 0x8A];
    [0xE2; 0x80; 0xA8]; [0xE2; 0x80; 0xA9]; [0xE2; 0x80; 0xAF];
    [0xE2; 0x81; 0x9F]; [0xE3; 0x80; 0x80]; [0xEF; 0xBB; 0xBF] ]%N.

(** The rest of [l] after the prefix [p], if [l] starts with [p]. *)
Fixpoint strip_prefix (p l : list N) : option (list N) :=
  match p, l with
  | [], _ => Some l
  | x :: p', y :: l' => if (x =? y)%N then strip_prefix p' l' else None
  | _ :: _, [] => None
  end.

(** The rest of [l] after one white-space character at its head. *)
Definition strip_white_space (ws : list (list N)) (l : list N) : option (list N) :=
  foldr (fun p found => match strip_prefix p l with Some rest => Some rest | None => found end)
    None ws.

(** [l] without the white space at its head; each step removes at least one
    byte, so [fuel = length l] steps are enough. *)
Fixpoint trim_start (ws : list (list N)) (fuel : nat) (l : list N) : list N :=
  match fuel with
  | O => l
  | S fuel' =>
      match strip_white_space ws l with
      | Some rest => trim_start ws fuel' rest
      | None => l
      end
  end.

Definition bytes_of (s : string) : list N := map N_of_ascii (list_ascii_of_string s).

Definition string_of (l : list N) : string := string_of_list_ascii (map ascii_of_N l).

(** [s.trim()], the setter of the schema paths with [trim: true]. *)
Definition trim (s : string) : string :=
  let l := bytes_of s in
  let l1 := trim_start white_space (length l) l in
  let l2 := trim_start (map (@rev N) white_space) (length l1) (rev l1) in
  string_of (rev l2).

(** [l.includes(s)] for strings, and the validator [isIn]. *)
Definition isIn (s : string) (l : list string) : bool := existsb (String.eqb s) l.

(** ** Documents *)

(** The enumerated [genre] of the Book schema (also the User schema's
    [favoriteGenres]). *)
Inductive Genre :=
  | Fiction | NonFiction | Mystery | Romance | SciFi
  | Fantasy | Biography | History | SelfHelp | Poetry.

#[global] Instance Genre_eq_dec : EqDecision Genre.
Proof. solve_decision. Defined.

Definition genre_name (g : Genre) : string :=
  match g with
  | Fiction => "Fiction" | NonFiction => "Non-Fiction" | Mystery => "Mystery"
  | Romance => "Romance" | SciFi => "Sci-Fi" | Fantasy => "Fantasy"
  | Biography => "Biography" | History => "History"
  | SelfHelp => "Self-Help" | Poetry => "Poetry"
  end%string.

Record Book := mkBook {
  title : string;
  author : string;
  genre : Genre;
  publishedDate : Z;
  pageCount : Z;
  averageRating : Q;
  ratingsCount : Z;
  addedBy : ObjectId;
  featured : bool;
  b_createdAt : Z
}.

(** One element of [Review.helpful]. *)
Record Vote := mkVote {
  v_user : ObjectId;
  isHelpful : bool
}.

(** One element of [Review.editHistory]. *)
Record Edit := mkEdit {
  editedAt : Z;
  previousContent : string
}.

Record Review := mkReview {
  r_id : ObjectId;
  book : ObjectId;
  user : ObjectId;
  rating : Z;
  r_title : string;
  content : string;
  likes : list ObjectId;
  helpful : list Vote;
  editHistory : list Edit;
  r_createdAt : Z
}.

Inductive Role := RoleUser | RoleAdmin.

#[global] Instance Role_eq_dec : EqDecision Role.
Proof. solve_decision. Defined.

Record User := mkUser {
  username : string;
  favoriteGenres : list Genre;
  readingGoal : JSNumber.num;
  booksRead : list ObjectId;
  wishlist : list ObjectId;
  followers : list ObjectId;
  following : list ObjectId;
  role : Role
}.

(** The database: the three collections. *)
Record DB := mkDB {
  books : gmap N Book;
  reviews : list Review;
  users : gmap N User
}.

Definition set_books (f : gmap N Book -> gmap N Book) (db : DB) : DB :=
  {| books := f (books db); reviews := reviews db; users := users db |}.

Definition set_reviews (f : list Review -> list Review) (db : DB) : DB :=
  {| books := books db; reviews := f (reviews db); users := users db |}.

Definition set_users (f : gmap N User -> gmap N User) (db : DB) : DB :=
  {| books := books db; reviews := reviews db; users := f (users db) |}.

(** ** server/models/Books.js *)

(** One output document of the [$group] stage. *)
Record Stats := mkStats {
  s_id : ObjectId;
  s_averageRating : Q;
  s_ratingsCount : Z
}.

(** [{ $match: { book: this._id } }] *)
Definition match_book (bid : ObjectId) (rs : list Review) : list Review :=
  filter (fun r => book r = bid) rs.

(** [{ $group: { _id: '$book', averageRating: { $avg: '$rating' },
                 ratingsCount: { $sum: 1 } } }] applied to the output of
    [match_book]: every input document has the same [book], so there is one
    group when the input is not empty and none when it is. *)
Definition group_by_book (bid : ObjectId) (matched : list Review) : list Stats :=
  match matched with
  | [] => []
  | _ :: _ =>
      let ratings := map rating matched in
      let n := Z.of_nat (length matched) in
      [ {| s_id := bid;
           s_averageRating := (inject_Z (sumZ ratings) / inject_Z n)%Q;
           s_ratingsCount := n |} ]
  end.

Definition aggregate_stats (bid : ObjectId) (db : DB) : list Stats :=
  group_by_book bid (match_book bid (reviews db)).

(** The two assignments of [updateAverageRating] on the document [this]. *)
Definition rated (this : Book) (stats : list Stats) : Book :=
  match stats with
  | s :: _ =>
      {| title := title this; author := author this; genre := genre this;
         publishedDate := publishedDate this; pageCount := pageCount this;
         averageRating := (inject_Z (Math_round (s_averageRating s * 10)) / 10)%Q;
         ratingsCount := s_ratingsCount s;
         addedBy := addedBy this; featured := featured this;
         b_createdAt := b_createdAt this |}
  | [] =>
      {| title := title this; author := author this; genre := genre this;
         publishedDate := publishedDate this; pageCount := pageCount this;
         averageRating := 0%Q;
         ratingsCount := 0;
         addedBy := addedBy this; featured := featured this;
         b_createdAt := b_createdAt this |}
  end.

(** [bookSchema.methods.updateAverageRating], called on the document [this]
    whose [_id] is [bid]; [this.save()] writes the document back. *)
Definition updateAverageRating (bid : ObjectId) (this : Book) (db : DB) : DB :=
  let stats := aggregate_stats bid db in
  set_books (insert bid (rated this stats)) db.

(** *** What the aggregator is meant to compute *)

(** The ratings of the reviews of book [bid]. *)
Definition ratings_of (bid : ObjectId) (db : DB) : list Z :=
  map rating (match_book bid (reviews db)).

(** Arithmetic mean of a list of ratings. *)
Definition mean (l : list Z) : Q :=
  (inject_Z (sumZ l) / inject_Z (Z.of_nat (length l)))%Q.

(** [v] is [x] rounded to one decimal place, halves going up: [v] is a
    whole number [k] of tenths, and [k] is the one with
    [k - 1/2 <= 10 x < k + 1/2]. *)
Definition rounded_half_up_1dp (x v : Q) : Prop :=
  exists k : Z,
    (v == inject_Z k / 10)%Q /\
    (inject_Z k - (1 # 2) <= x * 10)%Q /\ (x * 10 < inject_Z k + (1 # 2))%Q.

(** The aggregate of a list of ratings: rounded mean and count. *)
Definition aggregate_of (l : list Z) : Q * Z :=
  match l with
  | [] => (0%Q, 0)
  | _ => ((inject_Z (Math_round (mean l * 10)) / 10)%Q, Z.of_nat (length l))
  end.

(** ** HTTP responses *)

#[local] Set Warnings "-register-all".
Inductive JSON :=
  | JNull
  | JBool (b : bool)
  | JNum (q : Q)
  | JDouble (x : JSNumber.num)
  | JStr (s : string)
  | JId (i : ObjectId)
  | JArr (l : list JSON)
  | JObj (fields : list (string * JSON)).

(** [res.status(status).json(body)] *)
Record Response := mkResponse {
  status : Z;
  body : JSON
}.

(** A binary64 number in a response: [JSON.stringify] writes a number that
    is not finite as [null]. *)
Definition number_json (x : JSNumber.num) : JSON :=
  if JSNumber.isFinite x then JDouble x else JNull.

(** [{ message: m }] *)
Definition message (m : string) : JSON := JObj [("message"%string, JStr m)].

(** Property [k] of a JSON object. *)
Definition json_get (k : string) (j : JSON) : option JSON :=
  match j with
  | JObj fields => snd <$> find (fun kv => String.eqb (fst kv) k) fields
  | _ => None
  end.

(** The keys of a JSON object, in order. *)
Definition json_keys (j : JSON) : list string :=
  match j with
  | JObj fields => map fst fields
  | _ => []
  end.

(** ** Route handlers as computations

    The body of a handler is a [try] block of awaited database calls.  A
    call reads or writes the database; [return res...json(..)] ends the
    handler with a response; an exception ends the [try] block and the
    [catch] clause answers 500.  Writes made before the exception stay. *)

Inductive Outcome (A : Type) :=
  | Next (a : A)
  | Sent (r : Response)
  | Thrown.
Arguments Next {A} a.
Arguments Sent {A} r.
Arguments Thrown {A}.

Definition Handler (A : Type) : Type := DB -> Outcome A * DB.

Definition ret {A} (a : A) : Handler A := fun db => (Next a, db).

Definition bind {A B} (m : Handler A) (k : A -> Handler B) : Handler B :=
  fun db =>
    match m db with
    | (Next a, db') => k a db'
    | (Sent r, db') => (Sent r, db')
    | (Thrown, db') => (Thrown, db')
    end.

Notation "'let*' x := m 'in' k" := (bind m (fun x => k))
  (at level 10, x name, m at level 100, k at level 200).
Notation "m ;; k" := (bind m (fun _ => k))
  (at level 100, k at level 200, right associativity).

(** [return res.status(st).json(b)] *)
Definition send {A} (st : Z) (b : JSON) : Handler A :=
  fun db => (Sent {| status := st; body := b |}, db).

Definition throw {A} : Handler A := fun db => (Thrown, db).

(** [res.status(st).json(body)] for a body that holds Mongoose documents:
    [body] is [None] when serialising one of them throws, and the exception
    then leaves the [try] block. *)
Definition send_json {A} (st : Z) (body : option JSON) : Handler A :=
  match body with
  | Some b => send st b
  | None => throw
  end.

Definition read {A} (f : DB -> A) : Handler A := fun db => (Next (f db), db).

Definition write (f : DB -> DB) : Handler unit := fun db => (Next tt, f db).

(** [try { h } catch (error) { res.status(500).json({ message: m }) }].
    A handler body has type [Handler Empty_set]: it cannot fall off its end. *)
Definition try_catch (h : Handler Empty_set) (m : string) (db : DB) : Response * DB :=
  match h db with
  | (Next e, _) => match e with end
  | (Sent r, db') => (r, db')
  | (Thrown, db') => ({| status := 500; body := message m |}, db')
  end.

(** ** Mongoose model operations *)

(** [Book.findById], [User.findById] *)
Definition Book_findById (bid : ObjectId) : Handler (option Book) :=
  read (fun db => books db !! bid).

Definition User_findById (uid : ObjectId) : Handler (option User) :=
  read (fun db => users db !! uid).

(** [user.save()] of a loaded user document. *)
Definition User_save (uid : ObjectId) (u : User) : Handler unit :=
  write (set_users (insert uid u)).

(** [user.save()] of a loaded user document of which one path was changed:
    Mongoose writes the modified path; [f] sets it in the stored document. *)
Definition User_save_modified (uid : ObjectId) (f : User -> User) : Handler unit :=
  write (set_users (alter f uid)).

(** [book.updateAverageRating()] as a database call. *)
Definition Book_updateAverageRating (bid : ObjectId) (this : Book) : Handler unit :=
  write (updateAverageRating bid this).

(** [Review.findById]: position and document. *)
Definition find_review (rid : ObjectId) (rs : list Review) : option (nat * Review) :=
  list_find (fun r => r_id r = rid) rs.

Definition Review_findById (rid : ObjectId) : Handler (option Review) :=
  read (fun db => snd <$> find_review rid (reviews db)).

(** [Review.findOne({ book, user })] *)
Definition Review_findOne (bid uid : ObjectId) : Handler (option Review) :=
  read (fun db =>
    snd <$> list_find (fun r => book r = bid /\ user r = uid) (reviews db)).

(** The body shared by the three post hooks of the Review schema:
    [const book = await Book.findById(doc.book);
     if (book) { await book.updateAverageRating(); }] *)
Definition recompute_parent (doc : Review) : Handler unit :=
  let* b := Book_findById (book doc) in
  match b with
  | Some this => Book_updateAverageRating (book doc) this
  | None => ret tt
  end.

(** [reviewSchema.post('save', ...)] *)
Definition post_save (this : Review) : Handler unit := recompute_parent this.

(** [reviewSchema.post('findOneAndDelete', ...)] *)
Definition post_findOneAndDelete (doc : option Review) : Handler unit :=
  match doc with
  | Some d => recompute_parent d
  | None => ret tt
  end.

(** [reviewSchema.post('findOneAndUpdate', ...)] *)
Definition post_findOneAndUpdate (doc : option Review) : Handler unit :=
  match doc with
  | Some d => recompute_parent d
  | None => ret tt
  end.

(** The unique indexes of the Review collection: [_id], and the compound
    index [{ book: 1, user: 1 }]. *)
Definition duplicate_key (r : Review) (rs : list Review) : bool :=
  existsb (fun r' => N.eqb (r_id r') (r_id r)
                     || (N.eqb (book r') (book r) && N.eqb (user r') (user r))) rs.

(** The validators of the Review schema on the paths that the model keeps:
    [rating] has [min: 1, max: 5]; [title] and [content] are [required],
    which a string meets when it is not empty, and have [maxlength] 100 and
    2000, counted by [length]. *)
Definition paths_valid (rating : Z) (title content : string) : bool :=
  (1 <=? rating) && (rating <=? 5)
  && negb (String.eqb title "") && (js_length title <=? 100)%nat
  && negb (String.eqb content "") && (js_length content <=? 2000)%nat.

Definition Review_valid (r : Review) : bool :=
  paths_valid (rating r) (r_title r) (content r).

(** [review.save()] of a new document: [save] validates the document first
    and throws when a validator fails; the insert fails with a duplicate-key
    error when a unique index is violated; the post-save hook runs after a
    successful insert. *)
Definition Review_save_new (r : Review) : Handler unit :=
  if negb (Review_valid r) then throw else
  let* dup := read (fun db => duplicate_key r (reviews db)) in
  if dup then throw
  else write (set_reviews (fun rs => rs ++ [r])) ;; post_save r.

(** [review.save()] of a loaded document: the stored document with the same
    [_id] is overwritten; the post-save hook runs afterwards. *)
Definition Review_save (r : Review) : Handler unit :=
  let* found := read (fun db => find_review (r_id r) (reviews db)) in
  match found with
  | Some (i, _) => write (set_reviews (fun rs => <[i := r]> rs)) ;; post_save r
  | None => throw
  end.

(** [Review.findByIdAndDelete(id)]: removes the document and hands it to the
    post hook. *)
Definition Review_findByIdAndDelete (rid : ObjectId) : Handler (option Review) :=
  let* found := read (fun db => find_review rid (reviews db)) in
  match found with
  | Some (i, doc) =>
      write (set_reviews (fun rs => delete i rs)) ;;
      post_findOneAndDelete (Some doc) ;;
      ret (Some doc)
  | None => post_findOneAndDelete None ;; ret None
  end.

(** The update document built by [PUT /api/reviews/:id]: the allowed fields
    present in the request, and the optional [$push] to [editHistory]. *)
Record ReviewUpdate := mkReviewUpdate {
  u_rating : option Z;
  u_title : option string;
  u_content : option string;
  u_push : option Edit
}.

(** The stored document after the update; the values of [title] and
    [content] pass through the [trim] setters of their paths when the update
    is cast. *)
Definition apply_update (u : ReviewUpdate) (r : Review) : Review :=
  {| r_id := r_id r; book := book r; user := user r;
     rating := default (rating r) (u_rating u);
     r_title := default (r_title r) (trim <$> u_title u);
     content := default (content r) (trim <$> u_content u);
     likes := likes r; helpful := helpful r;
     editHistory := editHistory r ++ option_list (u_push u);
     r_createdAt := r_createdAt r |}.

(** The schema validators that [runValidators: true] applies to the cast
    values of the fields being set. *)
Definition update_valid (u : ReviewUpdate) : bool :=
  from_option (fun x => (1 <=? x) && (x <=? 5)) true (u_rating u)
  && from_option (fun t => negb (String.eqb (trim t) "") && (js_length (trim t) <=? 100)%nat)
       true (u_title u)
  && from_option (fun c => negb (String.eqb (trim c) "") && (js_length (trim c) <=? 2000)%nat)
       true (u_content u).

(** [Review.findByIdAndUpdate(id, updates, { new: true, runValidators: true })]:
    the post hook receives the updated document. *)
Definition Review_findByIdAndUpdate (rid : ObjectId) (u : ReviewUpdate)
  : Handler (option Review) :=
  if negb (update_valid u) then throw else
  let* found := read (fun db => find_review rid (reviews db)) in
  match found with
  | Some (i, doc) =>
      let doc' := apply_update u doc in
      write (set_reviews (fun rs => <[i := doc']> rs)) ;;
      post_findOneAndUpdate (Some doc') ;;
      ret (Some doc')
  | None => post_findOneAndUpdate None ;; ret None
  end.

(** ** server/models/Review.js: the helpfulness score *)

(** [reviewSchema.virtual('helpfulnessScore')] *)
Definition helpfulnessScore (this : Review) : JSNumber.num :=
  if (length (helpful this) =? 0)%nat then JSNumber.zero
  else
    let helpfulVotes := length (filter (fun vote => isHelpful vote = true) (helpful this)) in
    let totalVotes := length (helpful this) in
    JSNumber.mul (JSNumber.div (JSNumber.of_nat helpfulVotes) (JSNumber.of_nat totalVotes))
      (JSNumber.of_Z 100).

(** ** Documents in a response

    [res.json(body)] serialises every Mongoose document of [body] with its
    [toJSON].  The Review and the User schema set [toJSON: { virtuals: true }],
    so the getters of their virtuals run at that moment, on the paths the
    document was loaded with.  A getter that reads the [length] of a path that
    was not loaded throws a TypeError, which reaches the [catch] clause of
    the handler.  The Book schema has no virtuals of its own. *)

(** The paths a document was loaded with: [select('a b')] and the second
    argument of [populate] name the paths to load, [select('-a -b')] the
    paths to leave out. *)
Definition Select : Type := string -> bool.

Definition including (paths : list string) : Select := fun p => isIn p paths.

Definition excluding (paths : list string) : Select := fun p => negb (isIn p paths).

(** [userSchema.virtual('stats')] on a user document loaded with [sel]. *)
Definition User_stats (sel : Select) (u : User) : option JSON :=
  if sel "booksRead"%string && sel "followers"%string
     && sel "following"%string && sel "wishlist"%string
  then Some (JObj [("booksRead"%string, JNum (inject_Z (Z.of_nat (length (booksRead u)))));
                   ("followers"%string, JNum (inject_Z (Z.of_nat (length (followers u)))));
                   ("following"%string, JNum (inject_Z (Z.of_nat (length (following u)))));
                   ("wishlistBooks"%string,
                    JNum (inject_Z (Z.of_nat (length (wishlist u)))))])
  else None.

(** [toJSON] of a populated user document. *)
Definition populated_user_json (sel : Select) (i : ObjectId) (u : User) : option JSON :=
  stats ← User_stats sel u;
  Some (JObj [("_id"%string, JId i); ("username"%string, JStr (username u));
              ("stats"%string, stats)]).

(** A reference to a user after [populate(path, paths)]: the document, or
    [null] when there is no user with that id. *)
Definition user_ref_json (sel : Select) (i : ObjectId) (db : DB) : option JSON :=
  match users db !! i with
  | Some u => populated_user_json sel i u
  | None => Some JNull
  end.

(** A reference to a book after [populate('book', 'title author coverImage')]. *)
Definition book_ref_json (i : ObjectId) (db : DB) : JSON :=
  match books db !! i with
  | Some b => JObj [("_id"%string, JId i); ("title"%string, JStr (title b));
                    ("author"%string, JStr (author b))]
  | None => JNull
  end.

(** [toJSON] of a review document loaded with [sel], with the given
    renderings of its [user] and [book]; the getter of [helpfulnessScore]
    reads [this.helpful.length]. *)
Definition review_fields (user_field book_field : JSON) (r : Review) : JSON :=
  JObj [("_id"%string, JId (r_id r)); ("book"%string, book_field);
        ("user"%string, user_field);
        ("rating"%string, JNum (inject_Z (rating r)));
        ("title"%string, JStr (r_title r));
        ("content"%string, JStr (content r));
        ("helpfulnessScore"%string, number_json (helpfulnessScore r))].

Definition review_json (sel : Select) (user_field book_field : JSON) (r : Review)
  : option JSON :=
  if sel "helpful"%string then Some (review_fields user_field book_field r) else None.

(** A review after [.populate('user', 'username firstName lastName avatar')]
    and [.populate('book', 'title author coverImage')], as the creation and
    update routes answer it. *)
Definition populated_review_json (db : DB) (r : Review) : option JSON :=
  author ← user_ref_json (including ["username"; "firstName"; "lastName"; "avatar"]%string)
             (user r) db;
  review_json (excluding []) author (book_ref_json (book r) db) r.

(** A review after [.populate('user', 'username firstName lastName avatar')]
    and [.select('-__v')], as the list routes answer it. *)
Definition listed_review_json (db : DB) (r : Review) : option JSON :=
  author ← user_ref_json (including ["username"; "firstName"; "lastName"; "avatar"]%string)
             (user r) db;
  review_json (excluding ["__v"]%string) author (JId (book r)) r.

(** A book document with the given rendering of its [addedBy]. *)
Definition book_json_with (owner : JSON) (doc : ObjectId * Book) : JSON :=
  JObj [("_id"%string, JId (fst doc));
        ("title"%string, JStr (title (snd doc)));
        ("author"%string, JStr (author (snd doc)));
        ("genre"%string, JStr (genre_name (genre (snd doc))));
        ("averageRating"%string, JNum (averageRating (snd doc)));
        ("ratingsCount"%string, JNum (inject_Z (ratingsCount (snd doc))));
        ("addedBy"%string, owner);
        ("featured"%string, JBool (featured (snd doc)))].

(** A book document as loaded by [findById]: [addedBy] is the id. *)
Definition book_json (doc : ObjectId * Book) : JSON :=
  book_json_with (JId (addedBy (snd doc))) doc.

(** A book after [.populate('addedBy', 'username firstName lastName')], as
    the list routes answer it. *)
Definition listed_book_json (db : DB) (doc : ObjectId * Book) : option JSON :=
  owner ← user_ref_json (including ["username"; "firstName"; "lastName"]%string)
            (addedBy (snd doc)) db;
  Some (book_json_with owner doc).

(** ** The reviews router *)

(** [req.user], set by the [auth] middleware. *)
Record AuthUser := mkAuthUser {
  au_id : ObjectId;
  au_role : Role
}.

(** The body of a review submission: the three properties that the
    validator chain requires, and three that it does not look at and that
    [...req.body] hands to the new document all the same. *)
Record ReviewBody := mkReviewBody {
  rb_rating : Z;
  rb_title : string;
  rb_content : string;
  rb_likes : list ObjectId;
  rb_helpful : list Vote;
  rb_editHistory : list Edit
}.

(** The failed checks of the validator chain of the two creation routes, as
    [errors.array()] lists them. *)
Definition review_errors (req : ReviewBody) : list string :=
  (if (1 <=? rb_rating req) && (rb_rating req <=? 5) then []
   else ["Rating must be between 1 and 5"%string])
  ++ (if String.eqb (rb_title req) "" then ["Review title is required"%string] else [])
  ++ (if (isLength_len (rb_title req) <=? 100)%nat then []
      else ["Invalid value"%string])
  ++ (if String.eqb (rb_content req) "" then ["Review content is required"%string] else [])
  ++ (if (isLength_len (rb_content req) <=? 2000)%nat then []
      else ["Invalid value"%string]).

Definition validation_failed (m : string) (errors : list string) : JSON :=
  JObj [("message"%string, JStr m); ("errors"%string, JArr (map JStr errors))].

(** [new Review({ ...req.body, book, user })]: the setters of [title] and
    [content] trim the strings. *)
Definition new_review (newId bid uid : ObjectId) (now : Z) (req : ReviewBody) : Review :=
  {| r_id := newId; book := bid; user := uid;
     rating := rb_rating req;
     r_title := trim (rb_title req); content := trim (rb_content req);
     likes := rb_likes req; helpful := rb_helpful req;
     editHistory := rb_editHistory req; r_createdAt := now |}.

(** The body of the 201 answer of the creation routes. *)
Definition created_body (review : JSON) : JSON :=
  JObj [("message"%string, JStr "Review created successfully");
        ("review"%string, review)].

Definition push_booksRead (bid : ObjectId) (u : User) : User :=
  {| username := username u; favoriteGenres := favoriteGenres u;
     readingGoal := readingGoal u; booksRead := booksRead u ++ [bid];
     wishlist := wishlist u; followers := followers u;
     following := following u; role := role u |}.

(** [POST /api/reviews]; [newId] is the [_id] and [now] the [createdAt] of
    the new document.  The two [populate] calls load the author and the book
    of the saved review; the answer is serialised at the end. *)
Definition createReview (au : AuthUser) (newId : ObjectId) (now : Z)
    (bookId : ObjectId) (req : ReviewBody) : DB -> Response * DB :=
  try_catch
    (match review_errors req with
     | _ :: _ => send 400 (validation_failed "Validation failed" (review_errors req))
     | [] =>
     let* book := Book_findById bookId in
     match book with
     | None => send 404 (message "Book not found")
     | Some _ =>
     let* existingReview := Review_findOne bookId (au_id au) in
     match existingReview with
     | Some _ => send 400 (message "You have already reviewed this book")
     | None =>
     let review := new_review newId bookId (au_id au) now req in
     Review_save_new review ;;
     let* populated := read (fun db => populated_review_json db review) in
     let* user := User_findById (au_id au) in
     match user with
     | None => throw
     | Some u =>
       (if decide (bookId ∈ booksRead u) then ret tt
        else User_save (au_id au) (push_booksRead bookId u)) ;;
       send_json 201 (created_body <$> populated)
     end end end end)
    "Server error while creating review".

(** [POST /api/books/:id/reviews] *)
Definition createNestedReview (au : AuthUser) (newId : ObjectId) (now : Z)
    (id : ObjectId) (req : ReviewBody) : DB -> Response * DB :=
  try_catch
    (match review_errors req with
     | _ :: _ => send 400 (validation_failed "Validation failed" (review_errors req))
     | [] =>
     let* book := Book_findById id in
     match book with
     | None => send 404 (message "Book not found")
     | Some _ =>
     let* existingReview := Review_findOne id (au_id au) in
     match existingReview with
     | Some _ => send 400 (message "You have already reviewed this book")
     | None =>
     let review := new_review newId id (au_id au) now req in
     Review_save_new review ;;
     let* populated := read (fun db => populated_review_json db review) in
     let* user := User_findById (au_id au) in
     (match user with
      | Some u =>
          if decide (id ∈ booksRead u) then ret tt
          else User_save (au_id au) (push_booksRead id u)
      | None => ret tt
      end) ;;
     send_json 201 (created_body <$> populated)
     end end end)
    "Server error while creating review".

(** The fields of the body of [PUT /api/reviews/:id] that the model keeps. *)
Record UpdateBody := mkUpdateBody {
  ub_rating : option Z;
  ub_title : option string;
  ub_content : option string
}.

Definition update_errors (req : UpdateBody) : list string :=
  from_option (fun x => if (1 <=? x) && (x <=? 5) then [] else ["Invalid value"%string])
    [] (ub_rating req)
  ++ from_option (fun t => if (isLength_len t <=? 100)%nat then []
                           else ["Invalid value"%string]) [] (ub_title req)
  ++ from_option (fun c => if (isLength_len c <=? 2000)%nat then []
                           else ["Invalid value"%string]) [] (ub_content req).

(** The [updates] object of the update route; the empty string is falsy, so
    it never adds to the edit history. *)
Definition build_updates (now : Z) (previous : string) (req : UpdateBody) : ReviewUpdate :=
  {| u_rating := ub_rating req; u_title := ub_title req; u_content := ub_content req;
     u_push :=
       match ub_content req with
       | Some c =>
           if negb (String.eqb c "") && negb (String.eqb c previous)
           then Some {| editedAt := now; previousContent := previous |}
           else None
       | None => None
       end |}.

(** The body of the 200 answer of the update route. *)
Definition updated_body (review : JSON) : JSON :=
  JObj [("message"%string, JStr "Review updated successfully");
        ("review"%string, review)].

(** [PUT /api/reviews/:id] *)
Definition updateReview (au : AuthUser) (now : Z) (id : ObjectId) (req : UpdateBody)
  : DB -> Response * DB :=
  try_catch
    (match update_errors req with
     | _ :: _ => send 400 (validation_failed "Validation failed" (update_errors req))
     | [] =>
     let* review := Review_findById id in
     match review with
     | None => send 404 (message "Review not found")
     | Some r =>
     if negb (N.eqb (user r) (au_id au))
     then send 403 (message "Not authorized to update this review")
     else
     let updates := build_updates now (content r) req in
     let* updatedReview := Review_findByIdAndUpdate id updates in
     let* populated :=
       read (fun db => from_option (populated_review_json db) (Some JNull) updatedReview) in
     send_json 200 (updated_body <$> populated)
     end end)
    "Server error while updating review".

(** [DELETE /api/reviews/:id] *)
Definition deleteReview (au : AuthUser) (id : ObjectId) : DB -> Response * DB :=
  try_catch
    (let* review := Review_findById id in
     match review with
     | None => send 404 (message "Review not found")
     | Some r =>
     if negb (N.eqb (user r) (au_id au)) && negb (bool_decide (au_role au = RoleAdmin))
     then send 403 (message "Not authorized to delete this review")
     else
     Review_findByIdAndDelete id ;;
     send 200 (message "Review deleted successfully")
     end)
    "Server error while deleting review".

(** The update of [review.helpful] in [POST /api/reviews/:id/helpful]:
    [findIndex] locates the vote of [userId]; it is overwritten in place when
    found, and a new vote is pushed otherwise. *)
Definition cast_vote (userId : ObjectId) (b : bool) (votes : list Vote) : list Vote :=
  match list_find (fun vote => v_user vote = userId) votes with
  | Some (existingVoteIndex, vote) =>
      <[existingVoteIndex := {| v_user := v_user vote; isHelpful := b |}]> votes
  | None => votes ++ [ {| v_user := userId; isHelpful := b |} ]
  end.

Definition set_helpful (votes : list Vote) (r : Review) : Review :=
  {| r_id := r_id r; book := book r; user := user r; rating := rating r;
     r_title := r_title r; content := content r; likes := likes r;
     helpful := votes; editHistory := editHistory r; r_createdAt := r_createdAt r |}.

(** [POST /api/reviews/:id/helpful] *)
Definition markHelpful (au : AuthUser) (id : ObjectId) (b : bool) : DB -> Response * DB :=
  try_catch
    (let* review := Review_findById id in
     match review with
     | None => send 404 (message "Review not found")
     | Some r =>
     let review' := set_helpful (cast_vote (au_id au) b (helpful r)) r in
     Review_save review' ;;
     let helpfulVotes := length (filter (fun vote => isHelpful vote = true) (helpful review')) in
     let totalVotes := length (helpful review') in
     send 200 (JObj [("message"%string, JStr "Helpfulness vote recorded");
                     ("helpfulVotes"%string, JNum (inject_Z (Z.of_nat helpfulVotes)));
                     ("totalVotes"%string, JNum (inject_Z (Z.of_nat totalVotes)));
                     ("helpfulnessScore"%string, number_json (helpfulnessScore review'))])
     end)
    "Server error while recording helpfulness vote".

(** ** The users router *)

(** [MongooseArray.prototype.pull(v)]: removes every element equal to [v]. *)
Definition pull (v : ObjectId) (l : list ObjectId) : list ObjectId :=
  filter (fun x => x <> v) l.

Definition set_following (l : list ObjectId) (u : User) : User :=
  {| username := username u; favoriteGenres := favoriteGenres u;
     readingGoal := readingGoal u; booksRead := booksRead u;
     wishlist := wishlist u; followers := followers u;
     following := l; role := role u |}.

Definition set_followers (l : list ObjectId) (u : User) : User :=
  {| username := username u; favoriteGenres := favoriteGenres u;
     readingGoal := readingGoal u; booksRead := booksRead u;
     wishlist := wishlist u; followers := l;
     following := following u; role := role u |}.

(** The text of the [:id] of a request path, by what the handler can see of
    it: the text that [toString()] gives the id [i] (24 lower-case
    hexadecimal digits); another text that Mongoose casts to the id [i], as
    the same digits in upper case; or a text that it does not cast. *)
Inductive IdText :=
  | Canonical (i : ObjectId)
  | Variant (i : ObjectId)
  | Malformed.

(** The ObjectId that Mongoose casts the text to where a query or an array
    needs one; the call throws a CastError for a text that is no id. *)
Definition cast_id (t : IdText) : option ObjectId :=
  match t with
  | Canonical i | Variant i => Some i
  | Malformed => None
  end.

(** [t === i.toString()] *)
Definition is_toString (t : IdText) (i : ObjectId) : bool :=
  match t with
  | Canonical j => N.eqb j i
  | Variant _ | Malformed => false
  end.

(** [l.includes(t)] on a Mongoose array of ObjectIds: [indexOf] compares the
    text with each element by [==], that is with its [toString()]. *)
Definition includes_text (t : IdText) (l : list ObjectId) : bool :=
  existsb (is_toString t) l.

(** [POST /api/users/:id/follow] *)
Definition followUser (au : AuthUser) (targetUserId : IdText) : DB -> Response * DB :=
  try_catch
    (let currentUserId := au_id au in
     if is_toString targetUserId currentUserId
     then send 400 (message "You cannot follow yourself")
     else
     match cast_id targetUserId with
     | None => throw
     | Some targetId =>
     let* targetUser := User_findById targetId in
     let* currentUser := User_findById currentUserId in
     match targetUser with
     | None => send 404 (message "User not found")
     | Some target =>
     match currentUser with
     | None => throw
     | Some current =>
     let isFollowing := includes_text targetUserId (following current) in
     let following' :=
       if isFollowing then pull targetId (following current)
       else following current ++ [targetId] in
     let followers' :=
       if isFollowing then pull currentUserId (followers target)
       else followers target ++ [currentUserId] in
     User_save_modified currentUserId (set_following following') ;;
     User_save_modified targetId (set_followers followers') ;;
     send 200
       (JObj [("message"%string,
               JStr (if isFollowing then "User unfollowed" else "User followed"));
              ("isFollowing"%string, JBool (negb isFollowing));
              ("followersCount"%string,
               JNum (inject_Z (Z.of_nat (length followers'))))])
     end end end)
    "Server error while following user".

(** The follow route for a path that holds the id [id] as [toString()]
    gives it. *)
Definition follow (au : AuthUser) (id : ObjectId) : DB -> Response * DB :=
  followUser au (Canonical id).

(** [Math.round((user.booksRead.length / user.readingGoal) * 100)], the
    [progressPercentage] of the reading statistics. *)
Definition progressPercentage (u : User) : JSNumber.num :=
  JSNumber.round
    (JSNumber.mul
       (JSNumber.div (JSNumber.of_nat (length (booksRead u))) (readingGoal u))
       (JSNumber.of_Z 100)).

(** [GET /api/users/:id/reading-stats]; of the response only the fields
    computed from the user document are modelled, the three aggregations over
    the user's reviews are left out. *)
Definition readingStats (id : ObjectId) : DB -> Response * DB :=
  try_catch
    (let* user := User_findById id in
     match user with
     | None => send 404 (message "User not found")
     | Some u =>
     send 200
       (JObj [("readingStats"%string,
               JObj [("booksRead"%string, JNum (inject_Z (Z.of_nat (length (booksRead u)))));
                     ("readingGoal"%string, number_json (readingGoal u));
                     ("progressPercentage"%string,
                      number_json (progressPercentage u))])])
     end)
    "Server error while fetching reading statistics".

(** The range the User schema gives [readingGoal]: [min: 0, max: 365]. *)
Definition readingGoal_valid (u : User) : Prop :=
  JSNumber.leb (JSNumber.of_Z 0) (readingGoal u) = true /\
  JSNumber.leb (readingGoal u) (JSNumber.of_Z 365) = true.

(** [.populate('booksRead', 'genre')]: the referenced books that exist. *)
Definition populate_books (ids : list ObjectId) (db : DB) : list (ObjectId * Book) :=
  omap (fun i => (fun b => (i, b)) <$> books db !! i) ids.

(** [[...new Set(l)]]: the distinct elements of [l], each at its first
    occurrence. *)
Definition Set_from {A} `{EqDecision A} (l : list A) : list A :=
  fold_left (fun acc x => if decide (x ∈ acc) then acc else acc ++ [x]) l [].

(** The filter of the recommendation query. *)
Definition recommendable (favoriteGenres : list Genre) (read : list ObjectId)
    (doc : ObjectId * Book) : bool :=
  bool_decide (genre (snd doc) ∈ favoriteGenres)
  && negb (bool_decide (fst doc ∈ read))
  && Qle_bool 4 (averageRating (snd doc))
  && (5 <=? ratingsCount (snd doc)).

(** [.sort({ averageRating: -1, ratingsCount: -1 })]: [x] may come before [y]. *)
Definition by_rating_desc (x y : ObjectId * Book) : Prop :=
  match (averageRating (snd x) ?= averageRating (snd y))%Q with
  | Gt => True
  | Eq => ratingsCount (snd y) <= ratingsCount (snd x)
  | Lt => False
  end.

#[global] Instance by_rating_desc_dec x y : Decision (by_rating_desc x y).
Proof.
  unfold by_rating_desc.
  destruct (averageRating (snd x) ?= averageRating (snd y))%Q; apply _.
Defined.

(** The candidate genres of the recommendation route for the populated user
    document [u]:
    [readGenres = user.booksRead.map(book => book.genre)] and
    [favoriteGenres = [...new Set([...user.favoriteGenres, ...readGenres])]].
    ([.populate('favoriteGenres')] names a path without [ref] and leaves the
    array of genre names as it is.) *)
Definition candidate_genres (u : User) (db : DB) : list Genre :=
  let readGenres := map (fun b => genre (snd b)) (populate_books (booksRead u) db) in
  Set_from (favoriteGenres u ++ readGenres).

(** The recommendation query:
    [Book.find({ genre: { $in: favoriteGenres }, _id: { $nin: user.booksRead },
                 averageRating: { $gte: 4 }, ratingsCount: { $gte: 5 } })
       .sort({ averageRating: -1, ratingsCount: -1 }).limit(12)]. *)
Definition recommend (u : User) (db : DB) : list (ObjectId * Book) :=
  let read := populate_books (booksRead u) db in
  let favoriteGenres := candidate_genres u db in
  take 12
    (merge_sort by_rating_desc
       (filter (fun doc => recommendable favoriteGenres (map fst read) doc = true)
          (map_to_list (books db)))).

(** [GET /api/users/:id/recommendations] *)
Definition recommendations (id : ObjectId) : DB -> Response * DB :=
  try_catch
    (let* user := User_findById id in
     match user with
     | None => send 404 (message "User not found")
     | Some u =>
     let* recommendations := read (recommend u) in
     let* listed := read (fun db => mapM (listed_book_json db) recommendations) in
     send_json 200 ((fun l => JObj [("recommendations"%string, JArr l)]) <$> listed)
     end)
    "Server error while fetching recommendations".

(** ** The books router *)

(** The query string of [GET /api/books]; [q_page] and [q_limit] hold the
    integers that the parameters denote when present. *)
Record BooksQuery := mkBooksQuery {
  q_page : option Z;
  q_limit : option Z;
  q_genre : option string;
  q_author : option string;
  q_search : option string;
  q_sortBy : option string;
  q_order : option string
}.

(** The failed checks of the route's validator chain. *)
Definition books_query_errors (q : BooksQuery) : list string :=
  from_option (fun p => if 1 <=? p then [] else ["Invalid value"%string]) [] (q_page q)
  ++ from_option (fun l => if (1 <=? l) && (l <=? 50) then [] else ["Invalid value"%string])
       [] (q_limit q)
  ++ from_option
       (fun f => if isIn f ["title"; "author"; "averageRating"; "createdAt"; "publishedDate"]%string
                 then [] else ["Invalid value"%string]) [] (q_sortBy q)
  ++ from_option
       (fun o => if isIn o ["asc"; "desc"]%string then [] else ["Invalid value"%string])
       [] (q_order q).

(** [parseInt(x) || d] for a parameter that is absent or denotes an integer. *)
Definition parseInt_or (x : option Z) (d : Z) : Z :=
  match x with
  | Some n => if n =? 0 then d else n
  | None => d
  end.

(** [x || d] for a string parameter: absent and empty are falsy. *)
Definition string_or (x : option string) (d : string) : string :=
  match x with
  | Some s => if String.eqb s "" then d else s
  | None => d
  end.

(** A truthy string parameter. *)
Definition given (x : option string) : option string :=
  match x with
  | Some s => if String.eqb s "" then None else Some s
  | None => None
  end.

Section BookList.

(** The database's matching of a case-insensitive regular expression
    against a string, and its text index: the score of a document for a
    search string, and whether the document matches it. *)
Variable regex_test : string -> string -> bool.
Variable textScore : string -> ObjectId * Book -> Q.
Variable text_match : string -> ObjectId * Book -> bool.

(** The [filter] object of the list route. *)
Definition books_filter (q : BooksQuery) (doc : ObjectId * Book) : bool :=
  from_option (fun g => String.eqb (genre_name (genre (snd doc))) g) true (given (q_genre q))
  && from_option (fun a => regex_test a (author (snd doc))) true (given (q_author q))
  && from_option (fun s => text_match s doc) true (given (q_search q)).

(** Comparison of two books on the sort field. *)
Definition field_compare (sortBy : string) (x y : Book) : comparison :=
  if String.eqb sortBy "title" then String.compare (title x) (title y)
  else if String.eqb sortBy "author" then String.compare (author x) (author y)
  else if String.eqb sortBy "averageRating" then (averageRating x ?= averageRating y)%Q
  else if String.eqb sortBy "publishedDate" then (publishedDate x ?= publishedDate y)
  else (b_createdAt x ?= b_createdAt y).

(** The [sort] object of the list route, [{ [sortBy]: order }] with
    [score: { $meta: 'textScore' }] added when searching: [x] may come
    before [y]. *)
Definition books_order (q : BooksQuery) (x y : ObjectId * Book) : Prop :=
  let sortBy := string_or (q_sortBy q) "createdAt" in
  let ascending := from_option (fun o => String.eqb o "asc") false (q_order q) in
  match (if ascending then field_compare sortBy (snd x) (snd y)
         else field_compare sortBy (snd y) (snd x)) with
  | Lt => True
  | Gt => False
  | Eq =>
      match given (q_search q) with
      | Some s => Qle_bool (textScore s y) (textScore s x) = true
      | None => True
      end
  end.

#[global] Instance books_order_dec q x y : Decision (books_order q x y).
Proof.
  unfold books_order. cbv zeta.
  destruct (if from_option _ false (q_order q) then _ else _); try apply _.
  destruct (given (q_search q)); apply _.
Defined.

(** [Book.find(filter)] *)
Definition find_books (q : BooksQuery) (db : DB) : list (ObjectId * Book) :=
  filter (fun doc => books_filter q doc = true) (map_to_list (books db)).

(** [GET /api/books] *)
Definition listBooks (q : BooksQuery) : DB -> Response * DB :=
  try_catch
    (match books_query_errors q with
     | _ :: _ =>
         send 400 (validation_failed "Invalid query parameters" (books_query_errors q))
     | [] =>
     let page := parseInt_or (q_page q) 1 in
     let limit := parseInt_or (q_limit q) 12 in
     let skip := (page - 1) * limit in
     let* books :=
       read (fun db =>
         take (Z.to_nat limit)
           (drop (Z.to_nat skip) (merge_sort (books_order q) (find_books q db)))) in
     let* listed := read (fun db => mapM (listed_book_json db) books) in
     let* total := read (fun db => Z.of_nat (length (find_books q db))) in
     let totalPages := Math_ceil (inject_Z total / inject_Z limit) in
     send_json 200
       ((fun l =>
           JObj [("books"%string, JArr l);
                 ("pagination"%string,
                  JObj [("current"%string, JNum (inject_Z page));
                        ("pages"%string, JNum (inject_Z totalPages));
                        ("total"%string, JNum (inject_Z total));
                        ("limit"%string, JNum (inject_Z limit))])]) <$> listed)
     end)
    "Server error while fetching books".

End BookList.

(** ** More routes of the three routers *)

Definition set_likes (l : list ObjectId) (r : Review) : Review :=
  {| r_id := r_id r; book := book r; user := user r; rating := rating r;
     r_title := r_title r; content := content r; likes := l;
     helpful := helpful r; editHistory := editHistory r; r_createdAt := r_createdAt r |}.

(** The update of [review.likes] in [POST /api/reviews/:id/like]:
    [indexOf] locates the user; [push] when absent, [splice(userIndex, 1)]
    when present. *)
Definition toggle_like (userId : ObjectId) (l : list ObjectId) : list ObjectId :=
  match list_find (fun x => x = userId) l with
  | None => l ++ [userId]
  | Some (userIndex, _) => delete userIndex l
  end.

(** [POST /api/reviews/:id/like] *)
Definition likeReview (au : AuthUser) (id : ObjectId) : DB -> Response * DB :=
  try_catch
    (let* review := Review_findById id in
     match review with
     | None => send 404 (message "Review not found")
     | Some r =>
     let absent := bool_decide (list_find (fun x => x = au_id au) (likes r) = None) in
     let review' := set_likes (toggle_like (au_id au) (likes r)) r in
     Review_save review' ;;
     send 200 (JObj [("message"%string,
                      JStr (if absent then "Review liked" else "Review unliked"));
                     ("likesCount"%string,
                      JNum (inject_Z (Z.of_nat (length (likes review')))));
                     ("isLiked"%string, JBool absent)])
     end)
    "Server error while liking review".



(** [DELETE /api/books/:id]: [Review.deleteMany({ book })] runs no hook of
    the Review schema, and the Book schema has none. *)
Definition deleteBook (au : AuthUser) (id : ObjectId) : DB -> Response * DB :=
  try_catch
    (let* found := Book_findById id in
     match found with
     | None => send 404 (message "Book not found")
     | Some b =>
     if negb (N.eqb (addedBy b) (au_id au)) && negb (bool_decide (au_role au = RoleAdmin))
     then send 403 (message "Not authorized to delete this book")
     else
     write (set_reviews (filter (fun r => book r <> id))) ;;
     write (set_books (delete id)) ;;
     send 200 (message "Book and associated reviews deleted successfully")
     end)
    "Server error while deleting book".

Definition set_featured (f : bool) (b : Book) : Book :=
  {| title := title b; author := author b; genre := genre b;
     publishedDate := publishedDate b; pageCount := pageCount b;
     averageRating := averageRating b; ratingsCount := ratingsCount b;
     addedBy := addedBy b; featured := f; b_createdAt := b_createdAt b |}.

(** [POST /api/books/:id/toggle-featured], behind the [adminAuth]
    middleware. *)
Definition toggleFeatured (id : ObjectId) : DB -> Response * DB :=
  try_catch
    (let* book := Book_findById id in
     match book with
     | None => send 404 (message "Book not found")
     | Some b =>
     let b' := set_featured (negb (featured b)) b in
     write (set_books (insert id b')) ;;
     send 200
       (JObj [("message"%string,
               JStr (if featured b' then "Book featured successfully"
                     else "Book unfeatured successfully"));
              ("book"%string, book_json (id, b'))])
     end)
    "Server error while updating featured status".

(** [.sort({ averageRating: -1, createdAt: -1 })]: [x] may come before [y]. *)
Definition by_rating_then_newest (x y : ObjectId * Book) : Prop :=
  match (averageRating (snd x) ?= averageRating (snd y))%Q with
  | Gt => True
  | Eq => b_createdAt (snd y) <= b_createdAt (snd x)
  | Lt => False
  end.

#[global] Instance by_rating_then_newest_dec x y : Decision (by_rating_then_newest x y).
Proof.
  unfold by_rating_then_newest.
  destruct (averageRating (snd x) ?= averageRating (snd y))%Q; apply _.
Defined.

(** The query of [GET /api/books/featured]. *)
Definition featured_books (db : DB) : list (ObjectId * Book) :=
  take 8
    (merge_sort by_rating_then_newest
       (filter (fun doc => featured (snd doc) = true) (map_to_list (books db)))).

(** [GET /api/books/featured] *)
Definition featuredBooks : DB -> Response * DB :=
  try_catch
    (let* books := read featured_books in
     let* listed := read (fun db => mapM (listed_book_json db) books) in
     send_json 200 ((fun l => JObj [("books"%string, JArr l)]) <$> listed))
    "Server error while fetching featured books".

(** The filter of the trending query. *)
Definition is_trending (oneMonthAgo : Z) (doc : ObjectId * Book) : bool :=
  (oneMonthAgo <=? b_createdAt (snd doc))
  && Qle_bool 4 (averageRating (snd doc))
  && (3 <=? ratingsCount (snd doc)).

(** The query of [GET /api/books/trending]; [oneMonthAgo] is the date that
    [setMonth(getMonth() - 1)] makes of the time of the request. *)
Definition trending_books (oneMonthAgo : Z) (db : DB) : list (ObjectId * Book) :=
  take 10
    (merge_sort by_rating_desc
       (filter (fun doc => is_trending oneMonthAgo doc = true) (map_to_list (books db)))).

(** [GET /api/books/trending] *)
Definition trendingBooks (oneMonthAgo : Z) : DB -> Response * DB :=
  try_catch
    (let* books := read (trending_books oneMonthAgo) in
     let* listed := read (fun db => mapM (listed_book_json db) books) in
     send_json 200 ((fun l => JObj [("books"%string, JArr l)]) <$> listed))
    "Server error while fetching trending books".

(** [reviewSchema.virtual('readingDuration')] on the two dates of the
    document, in milliseconds; [None] is the [null] of the source. *)
Definition readingDuration (readingStartDate readingEndDate : option Z) : option Z :=
  match readingStartDate, readingEndDate with
  | Some s, Some e =>
      let timeDiff := e - s in
      Some (Math_ceil (inject_Z timeDiff / inject_Z (1000 * 3600 * 24)))
  | _, _ => None
  end.

(** The query string of [GET /api/reviews/book/:bookId]. *)
Record ReviewsQuery := mkReviewsQuery {
  rq_page : option Z;
  rq_limit : option Z;
  rq_sortBy : option string;
  rq_order : option string
}.

Definition reviews_query_errors (q : ReviewsQuery) : list string :=
  from_option (fun p => if 1 <=? p then [] else ["Invalid value"%string]) [] (rq_page q)
  ++ from_option (fun l => if (1 <=? l) && (l <=? 50) then [] else ["Invalid value"%string])
       [] (rq_limit q)
  ++ from_option
       (fun f => if isIn f ["createdAt"; "rating"; "helpful"]%string
                 then [] else ["Invalid value"%string]) [] (rq_sortBy q)
  ++ from_option
       (fun o => if isIn o ["asc"; "desc"]%string then [] else ["Invalid value"%string])
       [] (rq_order q).

(** [{ $sort: { _id: -1 } }] on the groups: [x] may come before [y]. *)
Definition higher_rating_first (x y : Z * Z) : Prop := fst y <= fst x.

#[global] Instance higher_rating_first_dec x y : Decision (higher_rating_first x y).
Proof. unfold higher_rating_first. apply _. Defined.

(** [[{ $match: { book } }, { $group: { _id: '$rating', count: { $sum: 1 } } },
      { $sort: { _id: -1 } }]] on the output of [match_book]: one pair
    (rating, count) for each rating that occurs, highest rating first. *)
Definition rating_distribution (matched : list Review) : list (Z * Z) :=
  merge_sort higher_rating_first
    (map (fun k => (k, Z.of_nat (length (filter (fun r => rating r = k) matched))))
       (remove_dups (map rating matched))).

Section BookReviews.

(** The database's comparison of two [helpful] arrays in a sort. *)
Variable helpful_compare : list Vote -> list Vote -> comparison.

Definition review_compare (sortBy : string) (x y : Review) : comparison :=
  if String.eqb sortBy "rating" then (rating x ?= rating y)
  else if String.eqb sortBy "helpful" then helpful_compare (helpful x) (helpful y)
  else (r_createdAt x ?= r_createdAt y).

(** The [sort] object [{ [sortBy]: order }]: [x] may come before [y]. *)
Definition reviews_order (q : ReviewsQuery) (x y : Review) : Prop :=
  let sortBy := string_or (rq_sortBy q) "createdAt" in
  let ascending := from_option (fun o => String.eqb o "asc") false (rq_order q) in
  (if ascending then review_compare sortBy x y else review_compare sortBy y x) <> Gt.

#[global] Instance reviews_order_dec q x y : Decision (reviews_order q x y).
Proof. unfold reviews_order. apply _. Defined.

(** [GET /api/reviews/book/:bookId] *)
Definition listBookReviews (q : ReviewsQuery) (bookId : ObjectId) : DB -> Response * DB :=
  try_catch
    (match reviews_query_errors q with
     | _ :: _ =>
         send 400 (validation_failed "Invalid query parameters" (reviews_query_errors q))
     | [] =>
     let page := parseInt_or (rq_page q) 1 in
     let limit := parseInt_or (rq_limit q) 10 in
     let skip := (page - 1) * limit in
     let* found :=
       read (fun db =>
         take (Z.to_nat limit)
           (drop (Z.to_nat skip)
              (merge_sort (reviews_order q) (match_book bookId (reviews db))))) in
     let* listed := read (fun db => mapM (listed_review_json db) found) in
     let* total := read (fun db => Z.of_nat (length (match_book bookId (reviews db)))) in
     let totalPages := Math_ceil (inject_Z total / inject_Z limit) in
     let* ratingDistribution :=
       read (fun db => rating_distribution (match_book bookId (reviews db))) in
     send_json 200
       ((fun l =>
           JObj [("reviews"%string, JArr l);
                 ("pagination"%string,
                  JObj [("current"%string, JNum (inject_Z page));
                        ("pages"%string, JNum (inject_Z totalPages));
                        ("total"%string, JNum (inject_Z total));
                        ("limit"%string, JNum (inject_Z limit))]);
                 ("ratingDistribution"%string,
                  JArr (map (fun g => JObj [("_id"%string, JNum (inject_Z (fst g)));
                                            ("count"%string, JNum (inject_Z (snd g)))])
                          ratingDistribution))]) <$> listed)
     end)
    "Server error while fetching book reviews".

End BookReviews.

(** [.populate(path, ...)] of an array of user references: the referenced
    users that exist. *)
Definition populate_users (ids : list ObjectId) (db : DB) : list (ObjectId * User) :=
  omap (fun i => (fun u => (i, u)) <$> users db !! i) ids.

(** [.sort({ createdAt: -1 })] on reviews: [x] may come before [y]. *)
Definition newest_first (x y : Review) : Prop := r_createdAt y <= r_createdAt x.

#[global] Instance newest_first_dec x y : Decision (newest_first x y).
Proof. unfold newest_first. apply _. Defined.

(** The [stats] object of the profile route, for the populated [user]. *)
Record ProfileStats := mkProfileStats {
  ps_booksRead : nat;
  ps_reviews : nat;
  ps_averageRating : Q;
  ps_followers : nat;
  ps_following : nat;
  ps_wishlistBooks : nat
}.

Definition profile_stats (id : ObjectId) (u : User) (db : DB) : ProfileStats :=
  let own := filter (fun r => user r = id) (reviews db) in
  {| ps_booksRead := length (populate_books (booksRead u) db);
     ps_reviews := length own;
     ps_averageRating :=
       match own with
       | [] => 0%Q
       | _ :: _ => (inject_Z (sumZ (map rating own)) / inject_Z (Z.of_nat (length own)))%Q
       end;
     ps_followers := length (populate_users (followers u) db);
     ps_following := length (populate_users (following u) db);
     ps_wishlistBooks := length (populate_books (wishlist u) db) |}.

(** [isFollowing] of the profile route: whether the requester, if there is
    one, is among the populated followers. *)
Definition profile_isFollowing (requester : option AuthUser) (u : User) (db : DB) : bool :=
  match requester with
  | Some au =>
      existsb (fun follower => N.eqb (fst follower) (au_id au))
        (populate_users (followers u) db)
  | None => false
  end.

Definition stats_json (st : ProfileStats) : JSON :=
  JObj [("booksRead"%string, JNum (inject_Z (Z.of_nat (ps_booksRead st))));
        ("reviews"%string, JNum (inject_Z (Z.of_nat (ps_reviews st))));
        ("averageRating"%string, JNum (ps_averageRating st));
        ("followers"%string, JNum (inject_Z (Z.of_nat (ps_followers st))));
        ("following"%string, JNum (inject_Z (Z.of_nat (ps_following st))));
        ("wishlistBooks"%string, JNum (inject_Z (Z.of_nat (ps_wishlistBooks st))))].

(** The [user] of the profile route in the response.  The document was
    loaded with [select('-password -email')], so its own [stats] getter finds
    its paths; the books of [booksRead] and [wishlist] and the users of
    [followers] and [following] are populated, the users with
    ['username firstName lastName avatar']. *)
Definition user_json (id : ObjectId) (u : User) (db : DB) : option JSON :=
  let populated := including ["username"; "firstName"; "lastName"; "avatar"]%string in
  let booksRead' := populate_books (booksRead u) db in
  let wishlist' := populate_books (wishlist u) db in
  let followers' := populate_users (followers u) db in
  let following' := populate_users (following u) db in
  followersJ ← mapM (fun d => populated_user_json populated (fst d) (snd d)) followers';
  followingJ ← mapM (fun d => populated_user_json populated (fst d) (snd d)) following';
  Some (JObj [("_id"%string, JId id);
              ("username"%string, JStr (username u));
              ("booksRead"%string, JArr (map (fun d => book_ref_json (fst d) db) booksRead'));
              ("wishlist"%string, JArr (map (fun d => book_ref_json (fst d) db) wishlist'));
              ("followers"%string, JArr followersJ);
              ("following"%string, JArr followingJ);
              ("stats"%string,
               JObj [("booksRead"%string, JNum (inject_Z (Z.of_nat (length booksRead'))));
                     ("followers"%string, JNum (inject_Z (Z.of_nat (length followers'))));
                     ("following"%string, JNum (inject_Z (Z.of_nat (length following'))));
                     ("wishlistBooks"%string,
                      JNum (inject_Z (Z.of_nat (length wishlist'))))])]).

(** One of the [recentReviews] of the profile route: loaded with
    [.select('rating title content createdAt book')], its [book] populated. *)
Definition recent_review_json (db : DB) (r : Review) : option JSON :=
  review_json (including ["rating"; "title"; "content"; "createdAt"; "book"]%string)
    JNull (book_ref_json (book r) db) r.

(** [GET /api/users/:id], behind [optionalAuth]. *)
Definition getProfile (requester : option AuthUser) (id : ObjectId) : DB -> Response * DB :=
  try_catch
    (let* found := User_findById id in
     match found with
     | None => send 404 (message "User not found")
     | Some u =>
     let* recentReviews :=
       read (fun db =>
         take 5 (merge_sort newest_first (filter (fun r => user r = id) (reviews db)))) in
     let* stats := read (profile_stats id u) in
     let* isFollowing := read (profile_isFollowing requester u) in
     let* rendered := read (user_json id u) in
     let* recent := read (fun db => mapM (recent_review_json db) recentReviews) in
     send_json 200
       (userJ ← rendered;
        recentJ ← recent;
        Some (JObj [("user"%string, userJ);
                    ("recentReviews"%string, JArr recentJ);
                    ("stats"%string, stats_json stats);
                    ("isFollowing"%string, JBool isFollowing)]))
     end)
    "Server error while fetching user profile".

(** ** Notions used in the statements *)

(** The database after the recompute hook has run for book [bid]. *)
Definition recomputed (bid : ObjectId) (db : DB) : DB :=
  match books db !! bid with
  | Some this => updateAverageRating bid this db
  | None => db
  end.

(** The database after a successful insert of [r] and its post-save hook. *)
Definition inserted (r : Review) (db : DB) : DB :=
  recomputed (book r) (set_reviews (fun rs => rs ++ [r]) db).

(** The answers of the creation routes; in the 201 answer the [user] of
    the review is [null]. *)
Definition created (db : DB) (r : Review) : Response :=
  {| status := 201;
     body := created_body (review_fields JNull (book_ref_json (book r) db) r) |}.

Definition already_reviewed : Response :=
  {| status := 400; body := message "You have already reviewed this book" |}.

Definition server_error (m : string) : Response :=
  {| status := 500; body := message m |}.

(** The review mutations of the public interface. *)
Inductive ReviewMutation :=
  | Create (au : AuthUser) (newId : ObjectId) (now : Z) (bookId : ObjectId) (req : ReviewBody)
  | CreateNested (au : AuthUser) (newId : ObjectId) (now : Z) (id : ObjectId) (req : ReviewBody)
  | Update (au : AuthUser) (now : Z) (id : ObjectId) (req : UpdateBody)
  | Delete (au : AuthUser) (id : ObjectId).

Definition run_mutation (m : ReviewMutation) : DB -> Response * DB :=
  match m with
  | Create au newId now bookId req => createReview au newId now bookId req
  | CreateNested au newId now id req => createNestedReview au newId now id req
  | Update au now id req => updateReview au now id req
  | Delete au id => deleteReview au id
  end.

(** The book whose review the mutation creates, changes or removes. *)
Definition parent_book (m : ReviewMutation) (db : DB) : option ObjectId :=
  match m with
  | Create _ _ _ bookId _ => Some bookId
  | CreateNested _ _ _ id _ => Some id
  | Update _ _ id _ | Delete _ id =>
      (fun found => book (snd found)) <$> find_review id (reviews db)
  end.

(** A 2xx answer. *)
Definition succeeded (r : Response) : bool :=
  (200 <=? status r) && (status r <? 300).

(** The denormalized fields of book [bid], if it exists, are the aggregate
    of its current reviews. *)
Definition aggregate_holds (bid : ObjectId) (db : DB) : Prop :=
  forall b, books db !! bid = Some b ->
    averageRating b = fst (aggregate_of (ratings_of bid db)) /\
    ratingsCount b = snd (aggregate_of (ratings_of bid db)).

(** Every book of the database has the aggregate of its reviews. *)
Definition all_aggregates_hold (db : DB) : Prop :=
  forall bid, aggregate_holds bid db.

(** No two reviews have the same (book, user) pair. *)
Definition one_review_per_pair (db : DB) : Prop :=
  NoDup ((fun r => (book r, user r)) <$> reviews db).

(** The two user documents after a toggle. *)
Definition toggled_current (target : ObjectId) (current : User) : User :=
  if bool_decide (target ∈ following current)
  then set_following (pull target (following current)) current
  else set_following (following current ++ [target]) current.

Definition toggled_target (currentId target : ObjectId) (current targetUser : User) : User :=
  if bool_decide (target ∈ following current)
  then set_followers (pull currentId (followers targetUser)) targetUser
  else set_followers (followers targetUser ++ [currentId]) targetUser.

(** Followers and followings mirror each other. *)
Definition mirrored (db : DB) : Prop :=
  forall a b ua ub,
    users db !! a = Some ua -> users db !! b = Some ub ->
    (b ∈ following ua <-> a ∈ followers ub).

(** A user the schema admits, with a reading goal of zero and one book read. *)
Definition idle_reader : User :=
  {| username := "reader"; favoriteGenres := []; readingGoal := JSNumber.zero;
     booksRead := [7%N]; wishlist := []; followers := []; following := [];
     role := RoleUser |}.

(** The order of the result, in terms of the two sort keys. *)
Definition rating_then_count_desc (x y : ObjectId * Book) : Prop :=
  (averageRating (snd y) < averageRating (snd x))%Q \/
  ((averageRating (snd x) == averageRating (snd y))%Q /\
   ratingsCount (snd y) <= ratingsCount (snd x)).

(** A book qualifies for the user when its genre is a candidate genre, the
    user has not read it, and it meets the two thresholds. *)
Definition qualifies (u : User) (db : DB) (i : ObjectId) (b : Book) : Prop :=
  (genre b ∈ favoriteGenres u \/
   exists j bj, j ∈ booksRead u /\ books db !! j = Some bj /\ genre bj = genre b) /\
  (i ∉ booksRead u) /\
  (4 <= averageRating b)%Q /\ 5 <= ratingsCount b.


(** Every review is of a book that exists. *)
Definition reviews_have_books (db : DB) : Prop :=
  forall r, r ∈ reviews db -> is_Some (books db !! book r).

(** Whoever has reviewed a book has it among the books read. *)
Definition reviewed_is_read (db : DB) : Prop :=
  forall r u, r ∈ reviews db -> users db !! user r = Some u -> book r ∈ booksRead u.

(** The requester may delete or change what [owner] owns. *)
Definition owner_or_admin (au : AuthUser) (owner : ObjectId) : Prop :=
  owner = au_id au \/ au_role au = RoleAdmin.

(** The follow lists are mirrored, name nobody twice, and nobody follows
    themselves. *)
Definition social_sound (db : DB) : Prop :=
  mirrored db /\
  forall a u, users db !! a = Some u ->
    NoDup (following u) /\ NoDup (followers u) /\
    (a ∉ following u) /\ (a ∉ followers u).

(** The order of the featured list, in terms of its two sort keys. *)
Definition rating_then_newest_desc (x y : ObjectId * Book) : Prop :=
  (averageRating (snd y) < averageRating (snd x))%Q \/
  ((averageRating (snd x) == averageRating (snd y))%Q /\
   b_createdAt (snd y) <= b_createdAt (snd x)).

(** The list query [q] asked for page [p]. *)
Definition with_page (p : Z) (q : BooksQuery) : BooksQuery :=
  {| q_page := Some p; q_limit := q_limit q; q_genre := q_genre q;
     q_author := q_author q; q_search := q_search q;
     q_sortBy := q_sortBy q; q_order := q_order q |}.

(** The [books] array of an answer of the list route. *)
Definition response_books (r : Response) : list JSON :=
  match json_get "books" (body r) with
  | Some (JArr l) => l
  | _ => []
  end.

(** The number of the given reviews that have rating [k]. *)
Definition count_rating (k : Z) (rs : list Review) : Z :=
  Z.of_nat (length (filter (fun r => rating r = k) rs)).

(** One element of [ratingDistribution] in a response. *)
Definition group_json (g : Z * Z) : JSON :=
  JObj [("_id"%string, JNum (inject_Z (fst g))); ("count"%string, JNum (inject_Z (snd g)))].

(** Every stored rating is within the Review schema's range. *)
Definition ratings_in_range (db : DB) : Prop :=
  forall r, r ∈ reviews db -> 1 <= rating r <= 5.

(** The checks that a review creation passes before the document is
    inserted: the validator chain of the route, the lookup of the book, the
    search for a review of the book by the requester, the validators of the
    schema on the new document, and the unique index on [_id]. *)
Definition can_review (au : AuthUser) (newId bid : ObjectId) (req : ReviewBody)
    (db : DB) : Prop :=
  review_errors req = [] /\
  is_Some (books db !! bid) /\
  (forall r, r ∈ reviews db -> ~ (book r = bid /\ user r = au_id au)) /\
  paths_valid (rb_rating req) (trim (rb_title req)) (trim (rb_content req)) = true /\
  (forall r, r ∈ reviews db -> r_id r <> newId).

(** The checks that a review mutation passes before it writes. *)
Definition carried_out (m : ReviewMutation) (db : DB) : Prop :=
  match m with
  | Create au newId _ bid req | CreateNested au newId _ bid req =>
      can_review au newId bid req db
  | Update au now id req =>
      update_errors req = [] /\
      exists i r, find_review id (reviews db) = Some (i, r) /\ user r = au_id au /\
                  update_valid (build_updates now (content r) req) = true
  | Delete au id =>
      exists i r, find_review id (reviews db) = Some (i, r) /\ owner_or_admin au (user r)
  end.

(** The database after a creation that was carried out for a requester
    whose user document, if there is one, is [user]. *)
Definition after_creation (bid uid : ObjectId) (review : Review) (user : option User)
    (db : DB) : DB :=
  match user with
  | Some u =>
      if decide (bid ∈ booksRead u) then inserted review db
      else set_users (insert uid (push_booksRead bid u)) (inserted review db)
  | None => inserted review db
  end.

(** There is no user document for the owner of the book. *)
Definition ownerless (db : DB) (doc : ObjectId * Book) : Prop :=
  users db !! addedBy (snd doc) = None.

(** There is no user document for the author of the review. *)
Definition authorless (db : DB) (r : Review) : Prop :=
  users db !! user r = None.

(** ** A small database for the examples

    One book (id 100) reviewed by users 1, 2 and 3 with ratings 5, 4 and 3,
    a fourth user without reviews, and a few more books for the
    recommendation and list routes. *)

Definition a_book (t : string) (g : Genre) (r : Q) (c : Z) : Book :=
  {| title := t; author := "An Author"; genre := g; publishedDate := 0;
     pageCount := 100; averageRating := r; ratingsCount := c;
     addedBy := 1%N; featured := false; b_createdAt := 0 |}.

Definition a_user (n : string) (fav : list Genre) (read : list ObjectId) : User :=
  {| username := n; favoriteGenres := fav; readingGoal := JSNumber.of_Z 12;
     booksRead := read; wishlist := []; followers := []; following := [];
     role := RoleUser |}.

Definition a_review (i b u : ObjectId) (r : Z) : Review :=
  {| r_id := i; book := b; user := u; rating := r; r_title := "title";
     content := "content"; likes := []; helpful := []; editHistory := [];
     r_createdAt := 0 |}.

Definition library : DB :=
  {| books :=
       {[ 100%N := a_book "Dune" SciFi (inject_Z 40 / 10) 3;
          101%N := a_book "Emma" Romance (45 # 10) 12;
          102%N := a_book "Ulysses" Fiction (45 # 10) 10;
          103%N := a_book "Hamlet" Fiction 5 5;
          104%N := a_book "Walden" NonFiction (39 # 10) 50;
          105%N := a_book "Odes" Poetry 5 4 ]};
     reviews := [a_review 11 100 1 5; a_review 12 100 2 4; a_review 13 100 3 3];
     users :=
       {[ 1%N := a_user "ann" [Fiction] [100%N];
          2%N := a_user "bob" [] [100%N];
          3%N := a_user "cy" [Romance; Fiction] [100%N; 102%N];
          4%N := a_user "dee" [] [] ]} |}.

Definition ann : AuthUser := {| au_id := 1; au_role := RoleUser |}.
Definition dee : AuthUser := {| au_id := 4; au_role := RoleUser |}.

Definition two_stars : ReviewBody :=
  {| rb_rating := 2; rb_title := "Too long"; rb_content := "Sand everywhere.";
     rb_likes := []; rb_helpful := []; rb_editHistory := [] |}.

(** The database after user 4 has reviewed book 100 with two stars, and
    after that review has been deleted again. *)
Definition after_add : DB := snd (createReview dee 14 0 100 two_stars library).

Definition after_delete : DB := snd (deleteReview dee 14 after_add).

(** The stored aggregate of a book, the average in lowest terms. *)
Definition aggregate_fields (bid : ObjectId) (db : DB) : option (Q * Z) :=
  (fun b => (Qred (averageRating b), ratingsCount b)) <$> books db !! bid.

(** [GET /api/books] without parameters. *)
Definition plain_query : BooksQuery :=
  {| q_page := None; q_limit := None; q_genre := None; q_author := None;
     q_search := None; q_sortBy := None; q_order := None |}.

(** The shape [{items, pagination: {current, pages, total, limit}}]. *)
Definition items_shape (j : JSON) : Prop :=
  exists items current pages total limit,
    j = JObj [("items"%string, items);
              ("pagination"%string,
               JObj [("current"%string, current); ("pages"%string, pages);
                     ("total"%string, total); ("limit"%string, limit)])].

(** The example database with book 100 alone, so that every book has the
    aggregate of its reviews. *)
Definition shelf : DB :=
  {| books := {[ 100%N := a_book "Dune" SciFi (inject_Z 40 / 10) 3 ]};
     reviews := reviews library;
     users := users library |}.

(** The example database without its user documents. *)
Definition deserted : DB := set_users (fun _ => ∅) library.


(** [GET /api/reviews/book/:bookId] without parameters. *)
Definition plain_reviews_query : ReviewsQuery :=
  {| rq_page := None; rq_limit := None; rq_sortBy := None; rq_order := None |}.

(** * Theorems *)

Section Aggregator.

Lemma Math_round_bounds (x : Q) :
  (inject_Z (Math_round x) - (1 # 2) <= x)%Q /\
  (x < inject_Z (Math_round x) + (1 # 2))%Q.
Proof.
  unfold Math_round. split.
  - pose proof (Qfloor_le (x + (1 # 2))) as H. lra.
  - pose proof (Qlt_floor (x + (1 # 2))) as H.
    rewrite inject_Z_plus in H. change (inject_Z 1) with 1%Q in H. lra.
Qed.

Lemma aggregate_stats_ratings bid db :
  aggregate_stats bid db =
    match ratings_of bid db with
    | [] => []
    | _ :: _ => [ {| s_id := bid;
                s_averageRating := mean (ratings_of bid db);
                s_ratingsCount := Z.of_nat (length (ratings_of bid db)) |} ]
    end.
Proof.
  unfold aggregate_stats, ratings_of, group_by_book, mean.
  destruct (match_book bid (reviews db)) as [|r l]; simpl; [reflexivity|].
  rewrite !length_map. reflexivity.
Qed.

Lemma rated_aggregate bid this db :
  averageRating (rated this (aggregate_stats bid db)) = fst (aggregate_of (ratings_of bid db)) /\
  ratingsCount (rated this (aggregate_stats bid db)) = snd (aggregate_of (ratings_of bid db)).
Proof.
  rewrite aggregate_stats_ratings.
  destruct (ratings_of bid db); simpl; split; reflexivity.
Qed.

(** The rounding of a number is determined. *)
Lemma rounded_half_up_1dp_unique x v v' :
  rounded_half_up_1dp x v -> rounded_half_up_1dp x v' -> (v == v')%Q.
Proof.
  intros (k & Hv & Hlo & Hhi) (k' & Hv' & Hlo' & Hhi').
  assert (k = k') as ->.
  { assert (inject_Z k < inject_Z k' + 1)%Q as H1 by lra.
    assert (inject_Z k' < inject_Z k + 1)%Q as H2 by lra.
    change 1%Q with (inject_Z 1) in H1, H2.
    rewrite <- inject_Z_plus, <- Zlt_Qlt in H1, H2. lia. }
  rewrite Hv, Hv'. reflexivity.
Qed.

Lemma sumZ_bounds l :
  Forall (fun r => 1 <= r <= 5) l ->
  Z.of_nat (length l) <= sumZ l <= 5 * Z.of_nat (length l).
Proof.
  induction 1 as [|r l Hr _ IH]; simpl; [lia|].
  unfold sumZ in *. simpl. lia.
Qed.

Lemma Math_round_Z (k : Z) : Math_round (inject_Z k) = k.
Proof.
  unfold Math_round.
  pose proof (Qfloor_le (inject_Z k + (1 # 2))) as Hle.
  pose proof (Qlt_floor (inject_Z k + (1 # 2))) as Hlt.
  set (f := Qfloor (inject_Z k + (1 # 2))) in *.
  assert (inject_Z f < inject_Z k + 1)%Q as H1 by lra.
  assert (inject_Z k < inject_Z (f + 1))%Q as H2 by lra.
  change 1%Q with (inject_Z 1) in H1.
  rewrite <- inject_Z_plus, <- Zlt_Qlt in H1. rewrite <- Zlt_Qlt in H2. lia.
Qed.

Lemma Math_round_mono x y : (x <= y)%Q -> Math_round x <= Math_round y.
Proof. intros H. unfold Math_round. apply Qfloor_resp_le. lra. Qed.

Lemma mean_range l :
  l <> [] -> Forall (fun r => 1 <= r <= 5) l -> (1 <= mean l)%Q /\ (mean l <= 5)%Q.
Proof.
  intros Hne Hall. pose proof (sumZ_bounds _ Hall) as [Hlo Hhi].
  assert (0 < Z.of_nat (length l)) as Hn by (destruct l; [congruence|simpl; lia]).
  assert (inject_Z 0 < inject_Z (Z.of_nat (length l)))%Q as HnQ
    by (rewrite <- Zlt_Qlt; exact Hn).
  change (inject_Z 0) with 0%Q in HnQ.
  rewrite Zle_Qle in Hlo, Hhi. rewrite inject_Z_mult in Hhi.
  unfold mean. split.
  - apply Qle_shift_div_l; [exact HnQ|]. rewrite Qmult_1_l. exact Hlo.
  - apply Qle_shift_div_r; [exact HnQ|]. exact Hhi.
Qed.

(** With ratings in the Review schema's range 1..5 the stored average lies in
    the Book schema's range 0..5: the validation of [this.save()] passes. *)
Lemma aggregate_of_range l :
  Forall (fun r => 1 <= r <= 5) l ->
  (0 <= fst (aggregate_of l))%Q /\ (fst (aggregate_of l) <= 5)%Q.
Proof.
  intros Hall. destruct l as [|r l]; [simpl; split; discriminate|].
  destruct (mean_range (r :: l) ltac:(discriminate) Hall) as [Hlo Hhi].
  set (rs := r :: l) in *.
  change (fst (aggregate_of rs)) with (inject_Z (Math_round (mean rs * 10)) / 10)%Q.
  assert (10 <= Math_round (mean rs * 10) <= 50) as [H1 H2].
  { split.
    - apply Z.le_trans with (Math_round (inject_Z 10)); [rewrite Math_round_Z; lia|].
      apply Math_round_mono. change (inject_Z 10) with 10%Q. lra.
    - apply Z.le_trans with (Math_round (inject_Z 50)); [|rewrite Math_round_Z; lia].
      apply Math_round_mono. change (inject_Z 50) with 50%Q. lra. }
  rewrite Zle_Qle in H1, H2.
  change (inject_Z 10) with 10%Q in H1. change (inject_Z 50) with 50%Q in H2.
  set (k := inject_Z (Math_round (mean rs * 10))) in *.
  split.
  - apply Qle_shift_div_l; [reflexivity|]. lra.
  - apply Qle_shift_div_r; [reflexivity|]. lra.
Qed.

(** C1. [updateAverageRating] on a book with reviews of ratings [r1..rN]
    stores the mean of the ratings rounded half-up to one decimal place,
    computed as [round(avg*10)/10], and stores [N] as the count; with no
    review it stores 0 and 0.  No other field of the book changes. *)
Theorem updateAverageRating_spec (bid : ObjectId) (this : Book) (db : DB) :
  let rs := ratings_of bid db in
  exists b',
    books (updateAverageRating bid this db) !! bid = Some b' /\
    ratingsCount b' = Z.of_nat (length rs) /\
    (rs = [] -> averageRating b' = 0%Q) /\
    (rs <> [] ->
       averageRating b' = (inject_Z (Math_round (mean rs * 10)) / 10)%Q /\
       rounded_half_up_1dp (mean rs) (averageRating b')) /\
    (title b', author b', genre b', publishedDate b', pageCount b',
     addedBy b', featured b', b_createdAt b') =
    (title this, author this, genre this, publishedDate this, pageCount this,
     addedBy this, featured this, b_createdAt this).
Proof.
  intros rs. exists (rated this (aggregate_stats bid db)).
  split; [apply lookup_insert_eq|].
  rewrite aggregate_stats_ratings. fold rs.
  destruct rs as [|r l]; simpl.
  - split; [reflexivity|]. split; [reflexivity|].
    split; [intros Hne; congruence | reflexivity].
  - split; [reflexivity|]. split; [intros Hnil; discriminate|].
    split; [|reflexivity].
    intros _. split; [reflexivity|].
    exists (Math_round (mean (r :: l) * 10)).
    split; [reflexivity|]. apply Math_round_bounds.
Qed.

End Aggregator.

(** ** The hooks and the handlers, step by step *)

Section Hooks.

Lemma recompute_parent_run doc db :
  recompute_parent doc db = (Next tt, recomputed (book doc) db).
Proof.
  unfold recompute_parent, recomputed, bind, Book_findById, read,
    Book_updateAverageRating, write, ret.
  destruct (books db !! book doc); reflexivity.
Qed.

Lemma recomputed_reviews bid db : reviews (recomputed bid db) = reviews db.
Proof. unfold recomputed. destruct (books db !! bid); reflexivity. Qed.

Lemma recomputed_users bid db : users (recomputed bid db) = users db.
Proof. unfold recomputed. destruct (books db !! bid); reflexivity. Qed.

Lemma recomputed_books_other bid bid' db :
  bid <> bid' -> books (recomputed bid db) !! bid' = books db !! bid'.
Proof.
  intros Hne. unfold recomputed. destruct (books db !! bid); [|reflexivity].
  simpl. apply lookup_insert_ne. exact Hne.
Qed.

Lemma recomputed_books_dom bid bid' db :
  is_Some (books (recomputed bid db) !! bid') <-> is_Some (books db !! bid').
Proof.
  destruct (decide (bid = bid')) as [<-|Hne].
  - unfold recomputed. destruct (books db !! bid) eqn:E; simpl.
    + rewrite lookup_insert_eq. split; eauto.
    + rewrite E. reflexivity.
  - rewrite recomputed_books_other by exact Hne. reflexivity.
Qed.

Lemma inserted_reviews r db : reviews (inserted r db) = reviews db ++ [r].
Proof. unfold inserted. rewrite recomputed_reviews. reflexivity. Qed.

Lemma inserted_users r db : users (inserted r db) = users db.
Proof. unfold inserted. rewrite recomputed_users. reflexivity. Qed.

End Hooks.

Section Serialisation.

(** None of the populate calls of the routers loads the paths that the
    [stats] getter of the User schema reads. *)
Lemma populated_user_json_throws (paths : list string) i u :
  isIn "booksRead" paths = false ->
  populated_user_json (including paths) i u = None.
Proof.
  intros H. unfold populated_user_json, User_stats, including. rewrite H. reflexivity.
Qed.

Lemma user_ref_json_Some (paths : list string) i db j :
  isIn "booksRead" paths = false ->
  user_ref_json (including paths) i db = Some j <-> users db !! i = None /\ j = JNull.
Proof.
  intros H. unfold user_ref_json. destruct (users db !! i) as [u|].
  - rewrite populated_user_json_throws by exact H. split; [discriminate|].
    intros [[=] _].
  - split; [intros [= <-]; auto|]. intros [_ ->]. reflexivity.
Qed.

Lemma listed_book_json_Some db doc j :
  listed_book_json db doc = Some j <-> ownerless db doc /\ j = book_json_with JNull doc.
Proof.
  unfold listed_book_json, ownerless.
  destruct (user_ref_json _ (addedBy (snd doc)) db) as [o|] eqn:E; simpl.
  - apply user_ref_json_Some in E as [Hn ->]; [|reflexivity].
    split; [intros [= <-]; auto|]. intros [_ ->]. reflexivity.
  - split; [discriminate|]. intros [Hn _].
    assert (user_ref_json (including ["username"; "firstName"; "lastName"]%string)
              (addedBy (snd doc)) db = Some JNull) as E'
      by (apply user_ref_json_Some; [reflexivity|auto]).
    rewrite E' in E. discriminate E.
Qed.

Lemma populated_review_json_Some db r j :
  populated_review_json db r = Some j <->
  authorless db r /\ j = review_fields JNull (book_ref_json (book r) db) r.
Proof.
  unfold populated_review_json, authorless.
  destruct (user_ref_json _ (user r) db) as [o|] eqn:E; simpl.
  - apply user_ref_json_Some in E as [Hn ->]; [|reflexivity].
    split; [intros [= <-]; auto|]. intros [_ ->]. reflexivity.
  - split; [discriminate|]. intros [Hn _].
    assert (user_ref_json
              (including ["username"; "firstName"; "lastName"; "avatar"]%string)
              (user r) db = Some JNull) as E'
      by (apply user_ref_json_Some; [reflexivity|auto]).
    rewrite E' in E. discriminate E.
Qed.

Lemma listed_review_json_Some db r j :
  listed_review_json db r = Some j <->
  authorless db r /\ j = review_fields JNull (JId (book r)) r.
Proof.
  unfold listed_review_json, authorless.
  destruct (user_ref_json _ (user r) db) as [o|] eqn:E; simpl.
  - apply user_ref_json_Some in E as [Hn ->]; [|reflexivity].
    split; [intros [= <-]; auto|]. intros [_ ->]. reflexivity.
  - split; [discriminate|]. intros [Hn _].
    assert (user_ref_json
              (including ["username"; "firstName"; "lastName"; "avatar"]%string)
              (user r) db = Some JNull) as E'
      by (apply user_ref_json_Some; [reflexivity|auto]).
    rewrite E' in E. discriminate E.
Qed.

(** A list of documents is serialised when each of them is. *)
Lemma mapM_total {A B} (f : A -> option B) (g : A -> B) (P : A -> Prop) (l : list A) :
  (forall x j, f x = Some j <-> P x /\ j = g x) ->
  forall js, mapM f l = Some js <-> Forall P l /\ js = map g l.
Proof.
  intros Hf js. rewrite mapM_Some. split.
  - intros H. induction H as [|x j l' js Hx _ [IH1 IH2]]; [auto|].
    apply Hf in Hx as [Hx ->]. subst js. auto.
  - intros [HF ->]. induction HF as [|x l' Hx _ IH]; constructor; [|exact IH].
    apply Hf. auto.
Qed.

Lemma mapM_total_None {A B} (f : A -> option B) (g : A -> B) (P : A -> Prop) (l : list A) :
  (forall x j, f x = Some j <-> P x /\ j = g x) ->
  mapM f l = None <-> ~ Forall P l.
Proof.
  intros Hf. destruct (mapM f l) as [js|] eqn:E.
  - apply (mapM_total f g P l Hf) in E as [HF _]. split; [discriminate|tauto].
  - split; [|reflexivity]. intros _ HF.
    assert (mapM f l = Some (map g l)) as E' by (apply (mapM_total f g P l Hf); auto).
    rewrite E' in E. discriminate.
Qed.

(** The books of a list route are serialised exactly when none of them has
    an owner with a user document; [addedBy] is [null] in each of them
    then. *)
Lemma listed_books_cases db (docs : list (ObjectId * Book)) :
  (Forall (ownerless db) docs /\
   mapM (listed_book_json db) docs = Some (map (book_json_with JNull) docs)) \/
  (~ Forall (ownerless db) docs /\ mapM (listed_book_json db) docs = None).
Proof.
  destruct (mapM (listed_book_json db) docs) as [js|] eqn:E.
  - apply (mapM_total _ (book_json_with JNull) (ownerless db) docs
             (listed_book_json_Some db)) in E as [HF ->]. left. auto.
  - right. split; [|reflexivity].
    apply (mapM_total_None _ (book_json_with JNull) (ownerless db) docs
             (listed_book_json_Some db)). exact E.
Qed.

Lemma listed_reviews_cases db (rs : list Review) :
  (Forall (authorless db) rs /\
   mapM (listed_review_json db) rs
     = Some (map (fun r => review_fields JNull (JId (book r)) r) rs)) \/
  (~ Forall (authorless db) rs /\ mapM (listed_review_json db) rs = None).
Proof.
  destruct (mapM (listed_review_json db) rs) as [js|] eqn:E.
  - apply (mapM_total _ (fun r => review_fields JNull (JId (book r)) r) (authorless db) rs
             (listed_review_json_Some db)) in E as [HF ->]. left. auto.
  - right. split; [|reflexivity].
    apply (mapM_total_None _ (fun r => review_fields JNull (JId (book r)) r)
             (authorless db) rs (listed_review_json_Some db)). exact E.
Qed.

End Serialisation.

Section Mutations.

Lemma find_review_id rid rs i r :
  find_review rid rs = Some (i, r) -> r_id r = rid.
Proof. unfold find_review. intros H. apply list_find_Some in H. tauto. Qed.

Lemma find_review_lookup rid rs i r :
  find_review rid rs = Some (i, r) -> rs !! i = Some r.
Proof. unfold find_review. intros H. apply list_find_Some in H. tauto. Qed.

Lemma Review_save_new_run r db :
  Review_save_new r db =
    if negb (Review_valid r) || duplicate_key r (reviews db)
    then (Thrown, db) else (Next tt, inserted r db).
Proof.
  unfold Review_save_new. destruct (negb (Review_valid r)); [reflexivity|]. simpl.
  unfold bind, read, throw, write, post_save.
  destruct (duplicate_key r (reviews db)); [reflexivity|].
  rewrite recompute_parent_run. reflexivity.
Qed.

Lemma Review_save_run r db :
  Review_save r db =
    match find_review (r_id r) (reviews db) with
    | Some (i, _) => (Next tt, recomputed (book r) (set_reviews (fun rs => <[i := r]> rs) db))
    | None => (Thrown, db)
    end.
Proof.
  unfold Review_save, bind, read, throw, write, post_save.
  destruct (find_review (r_id r) (reviews db)) as [[i d]|]; [|reflexivity].
  rewrite recompute_parent_run. reflexivity.
Qed.

Lemma Review_findByIdAndDelete_run rid db :
  Review_findByIdAndDelete rid db =
    match find_review rid (reviews db) with
    | Some (i, doc) =>
        (Next (Some doc), recomputed (book doc) (set_reviews (fun rs => delete i rs) db))
    | None => (Next None, db)
    end.
Proof.
  unfold Review_findByIdAndDelete, bind, read, write, ret, post_findOneAndDelete.
  destruct (find_review rid (reviews db)) as [[i d]|]; [|reflexivity].
  rewrite recompute_parent_run. reflexivity.
Qed.

Lemma Review_findByIdAndUpdate_run rid u db :
  Review_findByIdAndUpdate rid u db =
    if update_valid u then
      match find_review rid (reviews db) with
      | Some (i, doc) =>
          (Next (Some (apply_update u doc)),
           recomputed (book doc)
             (set_reviews (fun rs => <[i := apply_update u doc]> rs) db))
      | None => (Next None, db)
      end
    else (Thrown, db).
Proof.
  unfold Review_findByIdAndUpdate, bind, read, write, ret, throw, post_findOneAndUpdate.
  destruct (update_valid u); simpl; [|reflexivity].
  destruct (find_review rid (reviews db)) as [[i d]|]; [|reflexivity].
  rewrite recompute_parent_run. reflexivity.
Qed.

Lemma createReview_run au newId now bid req db :
  createReview au newId now bid req db =
    let review := new_review newId bid (au_id au) now req in
    match review_errors req with
    | _ :: _ =>
        ({| status := 400;
            body := validation_failed "Validation failed" (review_errors req) |}, db)
    | [] =>
    match books db !! bid with
    | None => ({| status := 404; body := message "Book not found" |}, db)
    | Some _ =>
    match list_find (fun r => book r = bid /\ user r = au_id au) (reviews db) with
    | Some _ => (already_reviewed, db)
    | None =>
    if negb (Review_valid review) || duplicate_key review (reviews db)
    then (server_error "Server error while creating review", db)
    else
      (server_error "Server error while creating review",
       after_creation bid (au_id au) review (users db !! au_id au) db)
    end end end.
Proof.
  unfold createReview, try_catch. cbv zeta.
  destruct (review_errors req); [|reflexivity].
  unfold bind at 1. unfold Book_findById at 1, read at 1.
  destruct (books db !! bid); [|reflexivity].
  unfold bind at 1. unfold Review_findOne at 1, read at 1.
  destruct (list_find _ (reviews db)); [reflexivity|]. simpl.
  unfold bind at 1. rewrite Review_save_new_run.
  destruct (negb _ || duplicate_key _ (reviews db)); [reflexivity|].
  unfold bind at 1. unfold read at 1.
  unfold bind at 1. unfold User_findById, read.
  rewrite inserted_users. unfold after_creation.
  destruct (users db !! au_id au) as [u|] eqn:Hu; [|reflexivity].
  assert (populated_review_json (inserted (new_review newId bid (au_id au) now req) db)
            (new_review newId bid (au_id au) now req) = None) as ->.
  { destruct (populated_review_json _ _) as [j|] eqn:E; [|reflexivity].
    apply populated_review_json_Some in E as [Hn _].
    unfold authorless in Hn. rewrite inserted_users in Hn. simpl in Hn. congruence. }
  unfold bind, send_json, throw. simpl.
  destruct (decide (bid ∈ booksRead u)); reflexivity.
Qed.

Lemma createNestedReview_run au newId now bid req db :
  createNestedReview au newId now bid req db =
    let review := new_review newId bid (au_id au) now req in
    match review_errors req with
    | _ :: _ =>
        ({| status := 400;
            body := validation_failed "Validation failed" (review_errors req) |}, db)
    | [] =>
    match books db !! bid with
    | None => ({| status := 404; body := message "Book not found" |}, db)
    | Some _ =>
    match list_find (fun r => book r = bid /\ user r = au_id au) (reviews db) with
    | Some _ => (already_reviewed, db)
    | None =>
    if negb (Review_valid review) || duplicate_key review (reviews db)
    then (server_error "Server error while creating review", db)
    else
      (match users db !! au_id au with
       | Some _ => server_error "Server error while creating review"
       | None => created (inserted review db) review
       end,
       after_creation bid (au_id au) review (users db !! au_id au) db)
    end end end.
Proof.
  unfold createNestedReview, try_catch. cbv zeta.
  destruct (review_errors req); [|reflexivity].
  unfold bind at 1. unfold Book_findById at 1, read at 1.
  destruct (books db !! bid); [|reflexivity].
  unfold bind at 1. unfold Review_findOne at 1, read at 1.
  destruct (list_find _ (reviews db)); [reflexivity|]. simpl.
  unfold bind at 1. rewrite Review_save_new_run.
  destruct (negb _ || duplicate_key _ (reviews db)); [reflexivity|].
  unfold bind at 1. unfold read at 1.
  unfold bind at 1. unfold bind at 1. unfold User_findById, read.
  rewrite inserted_users. unfold after_creation.
  destruct (users db !! au_id au) as [u|] eqn:Hu.
  - assert (populated_review_json (inserted (new_review newId bid (au_id au) now req) db)
              (new_review newId bid (au_id au) now req) = None) as ->.
    { destruct (populated_review_json _ _) as [j|] eqn:E; [|reflexivity].
      apply populated_review_json_Some in E as [Hn _].
      unfold authorless in Hn. rewrite inserted_users in Hn. simpl in Hn. congruence. }
    unfold send_json, throw. simpl.
    destruct (decide (bid ∈ booksRead u)); reflexivity.
  - assert (populated_review_json (inserted (new_review newId bid (au_id au) now req) db)
              (new_review newId bid (au_id au) now req)
            = Some (review_fields JNull
                      (book_ref_json bid (inserted (new_review newId bid (au_id au) now req) db))
                      (new_review newId bid (au_id au) now req))) as ->.
    { apply populated_review_json_Some. split; [|reflexivity].
      unfold authorless. rewrite inserted_users. exact Hu. }
    reflexivity.
Qed.

Lemma updateReview_run au now id req db :
  updateReview au now id req db =
    match update_errors req with
    | _ :: _ =>
        ({| status := 400;
            body := validation_failed "Validation failed" (update_errors req) |}, db)
    | [] =>
    match find_review id (reviews db) with
    | None => ({| status := 404; body := message "Review not found" |}, db)
    | Some (i, r) =>
    if negb (N.eqb (user r) (au_id au))
    then ({| status := 403; body := message "Not authorized to update this review" |}, db)
    else
      let updates := build_updates now (content r) req in
      if update_valid updates then
        let db' :=
          recomputed (book r)
            (set_reviews (fun rs => <[i := apply_update updates r]> rs) db) in
        (match users db !! user r with
         | Some _ => server_error "Server error while updating review"
         | None =>
             {| status := 200;
                body := updated_body
                          (review_fields JNull (book_ref_json (book r) db')
                             (apply_update updates r)) |}
         end, db')
      else (server_error "Server error while updating review", db)
    end end.
Proof.
  unfold updateReview, try_catch. cbv zeta.
  destruct (update_errors req); [|reflexivity].
  unfold bind at 1. unfold Review_findById at 1, read at 1.
  destruct (find_review id (reviews db)) as [[i r]|] eqn:E; [|reflexivity]. simpl.
  destruct (negb (N.eqb (user r) (au_id au))); [reflexivity|].
  unfold bind at 1. rewrite Review_findByIdAndUpdate_run.
  destruct (update_valid _); [|reflexivity].
  rewrite E. unfold bind, read. simpl.
  set (r' := apply_update _ r). set (db' := recomputed _ _).
  destruct (users db !! user r) as [u|] eqn:Hu.
  - assert (populated_review_json db' r' = None) as ->.
    { destruct (populated_review_json _ _) as [j|] eqn:E'; [|reflexivity].
      apply populated_review_json_Some in E' as [Hn _].
      unfold authorless, db' in Hn. rewrite recomputed_users in Hn. simpl in Hn.
      congruence. }
    reflexivity.
  - assert (populated_review_json db' r'
            = Some (review_fields JNull (book_ref_json (book r') db') r')) as ->.
    { apply populated_review_json_Some. split; [|reflexivity].
      unfold authorless, db'. rewrite recomputed_users. exact Hu. }
    reflexivity.
Qed.

Lemma after_creation_books bid uid r o db :
  books (after_creation bid uid r o db) = books (inserted r db).
Proof.
  unfold after_creation. destruct o as [u|]; [|reflexivity].
  destruct (decide (bid ∈ booksRead u)); reflexivity.
Qed.

Lemma after_creation_reviews bid uid r o db :
  reviews (after_creation bid uid r o db) = reviews db ++ [r].
Proof.
  unfold after_creation. destruct o as [u|]; [|apply inserted_reviews].
  destruct (decide (bid ∈ booksRead u)); simpl; apply inserted_reviews.
Qed.

Lemma after_creation_users bid uid r o db :
  users (after_creation bid uid r o db) =
    match o with
    | Some u =>
        if decide (bid ∈ booksRead u) then users db
        else <[uid := push_booksRead bid u]> (users db)
    | None => users db
    end.
Proof.
  unfold after_creation. destruct o as [u|]; [|apply inserted_users].
  destruct (decide (bid ∈ booksRead u)); simpl; rewrite inserted_users; reflexivity.
Qed.

Lemma deleteReview_run au id db :
  deleteReview au id db =
    match find_review id (reviews db) with
    | None => ({| status := 404; body := message "Review not found" |}, db)
    | Some (i, r) =>
    if negb (N.eqb (user r) (au_id au)) && negb (bool_decide (au_role au = RoleAdmin))
    then ({| status := 403; body := message "Not authorized to delete this review" |}, db)
    else
      ({| status := 200; body := message "Review deleted successfully" |},
       recomputed (book r) (set_reviews (fun rs => delete i rs) db))
    end.
Proof.
  unfold deleteReview, try_catch.
  unfold bind at 1. unfold Review_findById at 1, read at 1.
  destruct (find_review id (reviews db)) as [[i r]|] eqn:E; [|reflexivity]. simpl.
  destruct (negb (N.eqb (user r) (au_id au)) && _); [reflexivity|].
  unfold bind. rewrite Review_findByIdAndDelete_run, E. reflexivity.
Qed.

Lemma markHelpful_run au id b db :
  markHelpful au id b db =
    match find_review id (reviews db) with
    | None => ({| status := 404; body := message "Review not found" |}, db)
    | Some (i, r) =>
      let review' := set_helpful (cast_vote (au_id au) b (helpful r)) r in
      ({| status := 200;
          body :=
            JObj [("message"%string, JStr "Helpfulness vote recorded");
                  ("helpfulVotes"%string,
                   JNum (inject_Z (Z.of_nat
                     (length (filter (fun vote => isHelpful vote = true) (helpful review'))))));
                  ("totalVotes"%string, JNum (inject_Z (Z.of_nat (length (helpful review')))));
                  ("helpfulnessScore"%string, number_json (helpfulnessScore review'))] |},
       recomputed (book r) (set_reviews (fun rs => <[i := review']> rs) db))
    end.
Proof.
  unfold markHelpful, try_catch.
  unfold bind at 1. unfold Review_findById at 1, read at 1.
  destruct (find_review id (reviews db)) as [[i r]|] eqn:E; [|reflexivity]. simpl.
  unfold bind. rewrite Review_save_run. simpl.
  rewrite (find_review_id _ _ _ _ E), E. reflexivity.
Qed.

End Mutations.

Section AggregateInvariant.

Lemma recomputed_aggregate_holds bid db :
  is_Some (books db !! bid) -> aggregate_holds bid (recomputed bid db).
Proof.
  intros [this Hthis] b. unfold recomputed. rewrite Hthis.
  change (ratings_of bid (updateAverageRating bid this db)) with (ratings_of bid db).
  change (books (updateAverageRating bid this db))
    with (<[bid := rated this (aggregate_stats bid db)]> (books db)).
  rewrite lookup_insert_eq. intros [= <-]. apply rated_aggregate.
Qed.

Lemma recomputed_aggregate_holds' bid db : aggregate_holds bid (recomputed bid db).
Proof.
  destruct (books db !! bid) eqn:E.
  - apply recomputed_aggregate_holds. eauto.
  - intros b Hb. apply mk_is_Some in Hb. apply recomputed_books_dom in Hb.
    rewrite E in Hb. destruct Hb as [? [=]].
Qed.

Lemma aggregate_holds_frame bid db db' :
  books db' = books db -> reviews db' = reviews db ->
  aggregate_holds bid db -> aggregate_holds bid db'.
Proof.
  unfold aggregate_holds, ratings_of. intros -> ->. auto.
Qed.

Lemma aggregate_holds_set_users f bid db :
  aggregate_holds bid db -> aggregate_holds bid (set_users f db).
Proof. apply aggregate_holds_frame; reflexivity. Qed.

Lemma succeeded_status r : succeeded r = true -> 200 <= status r < 300.
Proof. unfold succeeded. lia. Qed.

(** *** The invariant over the whole database *)

Lemma match_book_overwrite_other bid (rs : list Review) i r r' :
  rs !! i = Some r -> book r <> bid -> book r' <> bid ->
  match_book bid (<[i := r']> rs) = match_book bid rs.
Proof.
  unfold match_book. revert i. induction rs as [|x rs IH]; intros [|i] Hi Hr Hr';
    simpl in *; try discriminate.
  - injection Hi as ->. rewrite !filter_cons_False by auto. reflexivity.
  - rewrite !filter_cons. rewrite (IH i Hi Hr Hr'). reflexivity.
Qed.

Lemma match_book_delete_other bid (rs : list Review) i r :
  rs !! i = Some r -> book r <> bid ->
  match_book bid (delete i rs) = match_book bid rs.
Proof.
  unfold match_book. revert i. induction rs as [|x rs IH]; intros [|i] Hi Hr;
    simpl in *; try discriminate.
  - injection Hi as ->. rewrite filter_cons_False by auto. reflexivity.
  - rewrite !filter_cons. rewrite (IH i Hi Hr). reflexivity.
Qed.

Lemma match_book_push_other bid (rs : list Review) r :
  book r <> bid -> match_book bid (rs ++ [r]) = match_book bid rs.
Proof.
  intros Hr. unfold match_book. rewrite filter_app, filter_cons_False by auto.
  rewrite filter_nil. apply app_nil_r.
Qed.

(** The hook for book [bid], run after a change of the reviews of [bid]
    only, leaves every book with its aggregate. *)
Lemma all_aggregates_after_hook bid db db1 :
  books db1 = books db ->
  (forall bid', bid' <> bid -> match_book bid' (reviews db1) = match_book bid' (reviews db)) ->
  all_aggregates_hold db -> all_aggregates_hold (recomputed bid db1).
Proof.
  intros Hbooks Hother Hall bid'.
  destruct (decide (bid' = bid)) as [->|Hne]; [apply recomputed_aggregate_holds'|].
  intros b. rewrite recomputed_books_other by congruence. rewrite Hbooks.
  unfold ratings_of. rewrite recomputed_reviews, (Hother bid' Hne).
  apply Hall.
Qed.

Lemma all_aggregates_set_users f db :
  all_aggregates_hold db -> all_aggregates_hold (set_users f db).
Proof. intros Hall bid. apply aggregate_holds_set_users, Hall. Qed.

Lemma all_aggregates_inserted r db :
  all_aggregates_hold db -> all_aggregates_hold (inserted r db).
Proof.
  intros Hall. unfold inserted. apply (all_aggregates_after_hook _ db); [reflexivity| |exact Hall].
  intros bid' Hne. simpl. apply match_book_push_other. congruence.
Qed.

Lemma all_aggregates_after_creation bid uid r o db :
  all_aggregates_hold db -> all_aggregates_hold (after_creation bid uid r o db).
Proof.
  intros Hall. unfold after_creation. destruct o as [u|].
  - destruct (decide (bid ∈ booksRead u));
      [|apply all_aggregates_set_users]; apply all_aggregates_inserted, Hall.
  - apply all_aggregates_inserted, Hall.
Qed.

(** Every review mutation, whatever its answer, keeps the aggregate of every
    book. *)
Lemma run_mutation_all_aggregates m db :
  all_aggregates_hold db -> all_aggregates_hold (snd (run_mutation m db)).
Proof.
  intros Hall.
  destruct m as [au newId now bid req | au newId now bid req | au now id req | au id];
    simpl.
  - rewrite createReview_run. cbv zeta.
    destruct (review_errors req); [|exact Hall].
    destruct (books db !! bid); [|exact Hall].
    destruct (list_find _ (reviews db)); [exact Hall|].
    destruct (negb _ || duplicate_key _ (reviews db)); [exact Hall|]. simpl.
    apply all_aggregates_after_creation, Hall.
  - rewrite createNestedReview_run. cbv zeta.
    destruct (review_errors req); [|exact Hall].
    destruct (books db !! bid); [|exact Hall].
    destruct (list_find _ (reviews db)); [exact Hall|].
    destruct (negb _ || duplicate_key _ (reviews db)); [exact Hall|]. simpl.
    apply all_aggregates_after_creation, Hall.
  - rewrite updateReview_run. cbv zeta.
    destruct (update_errors req); [|exact Hall].
    destruct (find_review id (reviews db)) as [[i r]|] eqn:Hf; [|exact Hall].
    destruct (negb _); [exact Hall|].
    destruct (update_valid _); [|exact Hall]. simpl.
    apply (all_aggregates_after_hook _ db); [reflexivity| |exact Hall].
    intros bid' Hne. simpl.
    eapply match_book_overwrite_other; eauto using find_review_lookup.
  - rewrite deleteReview_run.
    destruct (find_review id (reviews db)) as [[i r]|] eqn:Hf; [|exact Hall].
    destruct (negb _ && _); [exact Hall|]. simpl.
    apply (all_aggregates_after_hook _ db); [reflexivity| |exact Hall].
    intros bid' Hne. simpl.
    eapply match_book_delete_other; eauto using find_review_lookup.
Qed.

Lemma negb_Review_valid_new newId bid uid now req :
  negb (Review_valid (new_review newId bid uid now req))
  = negb (paths_valid (rb_rating req) (trim (rb_title req)) (trim (rb_content req))).
Proof. reflexivity. Qed.

Lemma duplicate_key_false newId bid uid now req (rs : list Review) :
  list_find (fun r => book r = bid /\ user r = uid) rs = None ->
  (duplicate_key (new_review newId bid uid now req) rs = false
   <-> forall r, r ∈ rs -> r_id r <> newId).
Proof.
  intros Hnone. apply list_find_None in Hnone. rewrite Forall_forall in Hnone.
  unfold duplicate_key. rewrite <- not_true_iff_false, existsb_exists. simpl. split.
  - intros H r Hr Hid. apply H. exists r. split; [apply list_elem_of_In, Hr|].
    apply orb_true_iff. left. apply N.eqb_eq, Hid.
  - intros H [r [Hr Hdup]]. apply list_elem_of_In in Hr.
    apply orb_true_iff in Hdup as [Hid|Hpair].
    + apply N.eqb_eq in Hid. exact (H r Hr Hid).
    + apply andb_true_iff in Hpair as [Hb Hu].
      apply N.eqb_eq in Hb, Hu. exact (Hnone r Hr (conj Hb Hu)).
Qed.

(** The creation routes write exactly when [can_review] holds. *)
Lemma can_review_iff au newId now bid req db :
  can_review au newId bid req db <->
  review_errors req = [] /\ is_Some (books db !! bid) /\
  list_find (fun r => book r = bid /\ user r = au_id au) (reviews db) = None /\
  negb (Review_valid (new_review newId bid (au_id au) now req))
  || duplicate_key (new_review newId bid (au_id au) now req) (reviews db) = false.
Proof.
  unfold can_review. rewrite negb_Review_valid_new. split.
  - intros (H1 & H2 & H3 & H4 & H5).
    assert (list_find (fun r => book r = bid /\ user r = au_id au) (reviews db) = None) as Hn.
    { apply list_find_None, Forall_forall. exact H3. }
    split; [exact H1|]. split; [exact H2|]. split; [exact Hn|].
    rewrite H4. simpl. apply (duplicate_key_false _ _ _ _ _ _ Hn). exact H5.
  - intros (H1 & H2 & H3 & H4).
    apply orb_false_iff in H4 as [H4 H5]. apply negb_false_iff in H4.
    split; [exact H1|]. split; [exact H2|]. split.
    { apply list_find_None in H3. rewrite Forall_forall in H3. exact H3. }
    split; [exact H4|]. apply (duplicate_key_false _ _ _ now req _ H3). exact H5.
Qed.

Lemma classic_can_review au newId (now : Z) bid req db :
  can_review au newId bid req db \/ ~ can_review au newId bid req db.
Proof.
  rewrite (can_review_iff au newId now bid req db).
  destruct (review_errors req); [|right; intros (? & _); discriminate].
  destruct (books db !! bid); [|right; intros (_ & [? ?] & _); discriminate].
  destruct (list_find _ (reviews db)); [right; intros (_ & _ & ? & _); discriminate|].
  destruct (negb _ || duplicate_key _ (reviews db));
    [right; intros (_ & _ & _ & ?); discriminate|].
  left. eauto.
Qed.

(** The outcome of a creation request: the database after it. *)
Lemma creation_database (nested : bool) au newId now bid req db :
  let create := if nested then createNestedReview else createReview in
  (can_review au newId bid req db ->
     snd (create au newId now bid req db) =
       after_creation bid (au_id au) (new_review newId bid (au_id au) now req)
         (users db !! au_id au) db) /\
  (~ can_review au newId bid req db -> snd (create au newId now bid req db) = db).
Proof.
  intros create. rewrite (can_review_iff au newId now bid req db). subst create.
  destruct nested; [rewrite createNestedReview_run | rewrite createReview_run]; cbv zeta;
    (destruct (review_errors req);
       [|split; [intros (? & _); discriminate | reflexivity]]);
    (destruct (books db !! bid);
       [|split; [intros (_ & [? ?] & _); discriminate | reflexivity]]);
    (destruct (list_find _ (reviews db));
       [split; [intros (_ & _ & ? & _); discriminate | reflexivity]|]);
    (destruct (negb _ || duplicate_key _ (reviews db));
       [split; [intros (_ & _ & _ & ?); discriminate | reflexivity]|]);
    (split; [reflexivity|]); intros Hn; exfalso; apply Hn; eauto.
Qed.

(** A mutation that answers 2xx has been carried out. *)
Lemma succeeded_carried_out m db :
  succeeded (fst (run_mutation m db)) = true -> carried_out m db.
Proof.
  intros Hok. apply succeeded_status in Hok.
  destruct m as [au newId now bid req | au newId now bid req | au now id req | au id];
    simpl in *.
  - rewrite createReview_run in Hok. cbv zeta in Hok.
    destruct (review_errors req); [|simpl in Hok; lia].
    destruct (books db !! bid); [|simpl in Hok; lia].
    destruct (list_find _ (reviews db)); [simpl in Hok; lia|].
    destruct (negb _ || duplicate_key _ (reviews db)); simpl in Hok; lia.
  - apply (can_review_iff au newId now bid req db).
    rewrite createNestedReview_run in Hok. cbv zeta in Hok.
    destruct (review_errors req); [|simpl in Hok; lia].
    destruct (books db !! bid); [|simpl in Hok; lia].
    destruct (list_find _ (reviews db)); [simpl in Hok; lia|].
    destruct (negb _ || duplicate_key _ (reviews db)); [simpl in Hok; lia|]. eauto.
  - rewrite updateReview_run in Hok. cbv zeta in Hok.
    destruct (update_errors req); [|simpl in Hok; lia].
    destruct (find_review id (reviews db)) as [[i r]|]; [|simpl in Hok; lia].
    destruct (N.eqb_spec (user r) (au_id au)) as [Hu|Hu]; [|simpl in Hok; lia].
    simpl in Hok.
    destruct (update_valid _) eqn:Hv; [|simpl in Hok; lia].
    split; [reflexivity|]. exists i, r. auto.
  - rewrite deleteReview_run in Hok.
    destruct (find_review id (reviews db)) as [[i r]|]; [|simpl in Hok; lia].
    exists i, r. split; [reflexivity|]. unfold owner_or_admin.
    destruct (N.eqb_spec (user r) (au_id au)) as [Hu|Hu]; [auto|]. simpl in Hok.
    destruct (bool_decide (au_role au = RoleAdmin)) eqn:Ha; [|simpl in Hok; lia].
    apply bool_decide_eq_true in Ha. auto.
Qed.

(** C2. After a review creation (either route), update or deletion that is
    carried out, that is, passes the checks that come before the write, the
    parent book's [averageRating] and [ratingsCount] are the aggregate
    (rounded mean, count) of the book's reviews as they then are, whatever
    the answer of the route; a mutation that is answered 2xx has been carried
    out; a mutation does not remove the book; and if every book had its
    aggregate before, every book has it afterwards, again whatever the
    answer. *)
Theorem review_mutation_reestablishes_aggregate
    (m : ReviewMutation) (db : DB) (bid : ObjectId) :
  parent_book m db = Some bid ->
  (carried_out m db -> aggregate_holds bid (snd (run_mutation m db))) /\
  (succeeded (fst (run_mutation m db)) = true -> carried_out m db) /\
  (is_Some (books db !! bid) -> is_Some (books (snd (run_mutation m db)) !! bid)) /\
  (all_aggregates_hold db -> all_aggregates_hold (snd (run_mutation m db))).
Proof.
  intros Hparent.
  split; [|split; [apply succeeded_carried_out|split; [|apply run_mutation_all_aggregates]]].
  - intros Hdone.
    destruct m as [au newId now bookId req | au newId now id req | au now id req | au id];
      simpl in *.
    + injection Hparent as ->.
      rewrite (proj1 (creation_database false au newId now bid req db) Hdone).
      eapply aggregate_holds_frame;
        [apply after_creation_books | rewrite after_creation_reviews; symmetry;
                                      apply inserted_reviews |].
      apply recomputed_aggregate_holds'.
    + injection Hparent as ->.
      rewrite (proj1 (creation_database true au newId now bid req db) Hdone).
      eapply aggregate_holds_frame;
        [apply after_creation_books | rewrite after_creation_reviews; symmetry;
                                      apply inserted_reviews |].
      apply recomputed_aggregate_holds'.
    + destruct Hdone as (Herr & i & r & Hf & Hu & Hv).
      rewrite updateReview_run, Herr, Hf. cbv zeta.
      rewrite Hf in Hparent. simpl in Hparent. injection Hparent as <-.
      rewrite Hu, N.eqb_refl, Hv. simpl. apply recomputed_aggregate_holds'.
    + destruct Hdone as (i & r & Hf & Hown).
      rewrite deleteReview_run, Hf.
      rewrite Hf in Hparent. simpl in Hparent. injection Hparent as <-.
      assert (negb (N.eqb (user r) (au_id au)) && negb (bool_decide (au_role au = RoleAdmin))
              = false) as ->.
      { destruct Hown as [->|Ha]; [rewrite N.eqb_refl; reflexivity|].
        rewrite (bool_decide_eq_true_2 _ Ha). apply andb_false_r. }
      simpl. apply recomputed_aggregate_holds'.
  - intros HS.
    destruct m as [au newId now bookId req | au newId now id req | au now id req | au id];
      simpl in *.
    + destruct (classic_can_review au newId now bookId req db) as [Hc|Hc].
      * rewrite (proj1 (creation_database false au newId now bookId req db) Hc).
        rewrite after_creation_books. injection Hparent as ->.
        apply recomputed_books_dom. exact HS.
      * rewrite (proj2 (creation_database false au newId now bookId req db) Hc).
        injection Hparent as ->. exact HS.
    + destruct (classic_can_review au newId now id req db) as [Hc|Hc].
      * rewrite (proj1 (creation_database true au newId now id req db) Hc).
        rewrite after_creation_books. injection Hparent as ->.
        apply recomputed_books_dom. exact HS.
      * rewrite (proj2 (creation_database true au newId now id req db) Hc).
        injection Hparent as ->. exact HS.
    + rewrite updateReview_run. cbv zeta.
      destruct (update_errors req); [|exact HS].
      destruct (find_review id (reviews db)) as [[i r]|]; [|exact HS].
      destruct (negb _); [exact HS|].
      destruct (update_valid _); [|exact HS]. simpl.
      apply recomputed_books_dom. exact HS.
    + rewrite deleteReview_run.
      destruct (find_review id (reviews db)) as [[i r]|]; [|exact HS].
      destruct (negb _ && _); [exact HS|]. simpl.
      apply recomputed_books_dom. exact HS.
Qed.

End AggregateInvariant.

Section OneReviewPerPair.

Lemma find_pair_None bid uid (rs : list Review) :
  list_find (fun r => book r = bid /\ user r = uid) rs = None ->
  (bid, uid) ∉ (fun r => (book r, user r)) <$> rs.
Proof.
  intros H Hin. apply list_find_None in H.
  apply list_elem_of_fmap in Hin as [r [Heq Hr]].
  rewrite Forall_forall in H. apply (H r Hr). injection Heq as -> ->. auto.
Qed.

Lemma one_review_per_pair_inserted newId bid uid now req db :
  list_find (fun r => book r = bid /\ user r = uid) (reviews db) = None ->
  one_review_per_pair db ->
  one_review_per_pair (inserted (new_review newId bid uid now req) db).
Proof.
  unfold one_review_per_pair. intros Hnone Hnd.
  rewrite inserted_reviews, fmap_app. apply NoDup_app. split; [exact Hnd|]. split.
  - intros p Hp Hin. simpl in Hin. apply list_elem_of_singleton in Hin. subst p.
    apply (find_pair_None _ _ _ Hnone Hp).
  - simpl. apply NoDup_singleton.
Qed.

Lemma one_review_per_pair_frame db db' :
  reviews db' = reviews db -> one_review_per_pair db -> one_review_per_pair db'.
Proof. unfold one_review_per_pair. intros ->. auto. Qed.

Lemma one_review_per_pair_overwrite i r r' bid db :
  reviews db !! i = Some r -> book r' = book r -> user r' = user r ->
  one_review_per_pair db ->
  one_review_per_pair (recomputed bid (set_reviews (fun rs => <[i := r']> rs) db)).
Proof.
  unfold one_review_per_pair. intros Hi Hb Hu Hnd.
  rewrite recomputed_reviews. simpl. rewrite list_fmap_insert.
  rewrite list_insert_id; [exact Hnd|].
  rewrite list_lookup_fmap, Hi. simpl. rewrite Hb, Hu. reflexivity.
Qed.

Lemma one_review_per_pair_delete i bid db :
  one_review_per_pair db ->
  one_review_per_pair (recomputed bid (set_reviews (fun rs => delete i rs) db)).
Proof.
  unfold one_review_per_pair. intros Hnd.
  rewrite recomputed_reviews. simpl. rewrite list_fmap_delete.
  eapply sublist_NoDup; [exact Hnd | apply sublist_delete].
Qed.

(** Every review mutation keeps the pairs distinct. *)
Lemma run_mutation_one_review_per_pair m db :
  one_review_per_pair db -> one_review_per_pair (snd (run_mutation m db)).
Proof.
  intros Hnd.
  destruct m as [au newId now bid req | au newId now bid req | au now id req | au id];
    simpl.
  - rewrite createReview_run. cbv zeta.
    destruct (review_errors req); [|exact Hnd].
    destruct (books db !! bid); [|exact Hnd].
    destruct (list_find _ (reviews db)) eqn:Hf; [exact Hnd|].
    destruct (negb _ || duplicate_key _ (reviews db)); [exact Hnd|].
    pose proof (one_review_per_pair_inserted newId _ _ now req _ Hf Hnd) as HI.
    eapply one_review_per_pair_frame; [|exact HI]. simpl.
    rewrite after_creation_reviews, inserted_reviews. reflexivity.
  - rewrite createNestedReview_run. cbv zeta.
    destruct (review_errors req); [|exact Hnd].
    destruct (books db !! bid); [|exact Hnd].
    destruct (list_find _ (reviews db)) eqn:Hf; [exact Hnd|].
    destruct (negb _ || duplicate_key _ (reviews db)); [exact Hnd|].
    pose proof (one_review_per_pair_inserted newId _ _ now req _ Hf Hnd) as HI.
    eapply one_review_per_pair_frame; [|exact HI]. simpl.
    rewrite after_creation_reviews, inserted_reviews. reflexivity.
  - rewrite updateReview_run. cbv zeta.
    destruct (update_errors req); [|exact Hnd].
    destruct (find_review id (reviews db)) as [[i r]|] eqn:Hf; [|exact Hnd].
    destruct (negb _); [exact Hnd|].
    destruct (update_valid _); [|exact Hnd]. simpl.
    eapply one_review_per_pair_overwrite; eauto using find_review_lookup.
  - rewrite deleteReview_run.
    destruct (find_review id (reviews db)) as [[i r]|] eqn:Hf; [|exact Hnd].
    destruct (negb _ && _); [exact Hnd|]. simpl.
    apply one_review_per_pair_delete, Hnd.
Qed.

(** C5. A user who has already reviewed a book cannot create a second review
    of it: on both creation routes the request is answered with a 4xx status
    and the database is left as it was, and when the request is otherwise
    acceptable (valid body, existing book) the answer is the 400 response
    "You have already reviewed this book".  Consequently, review mutations
    keep at most one review per (book, user) pair. *)
Theorem duplicate_review_rejected
    (nested : bool) (au : AuthUser) (newId : ObjectId) (now : Z)
    (bid : ObjectId) (req : ReviewBody) (db : DB) :
  (exists r, r ∈ reviews db /\ book r = bid /\ user r = au_id au) ->
  let create := if nested then createNestedReview else createReview in
  let res := create au newId now bid req db in
  snd res = db /\
  400 <= status (fst res) < 500 /\
  (review_errors req = [] -> is_Some (books db !! bid) ->
   fst res = {| status := 400; body := message "You have already reviewed this book" |}) /\
  (forall m, one_review_per_pair db -> one_review_per_pair (snd (run_mutation m db))).
Proof.
  intros [r [Hin [Hb Hu]]] create res.
  assert (is_Some (list_find (fun r => book r = bid /\ user r = au_id au) (reviews db)))
    as [found Hfound] by (eapply list_find_elem_of; eauto).
  assert (res =
    match review_errors req with
    | _ :: _ =>
        ({| status := 400;
            body := validation_failed "Validation failed" (review_errors req) |}, db)
    | [] =>
      match books db !! bid with
      | None => ({| status := 404; body := message "Book not found" |}, db)
      | Some _ => (already_reviewed, db)
      end
    end) as ->.
  { subst res create. destruct nested;
      [rewrite createNestedReview_run | rewrite createReview_run]; cbv zeta;
      rewrite Hfound; reflexivity. }
  split; [|split; [|split]].
  - destruct (review_errors req); [destruct (books db !! bid)|]; reflexivity.
  - destruct (review_errors req); [destruct (books db !! bid)|]; simpl; lia.
  - intros -> [b ->]. reflexivity.
  - intros m. apply run_mutation_one_review_per_pair.
Qed.

End OneReviewPerPair.

Section HelpfulVotes.

Lemma list_find_overwrite {A} (P : A -> Prop) `{forall x, Decision (P x)}
    (l : list A) (i : nat) (x y : A) :
  list_find P l = Some (i, x) -> P y -> list_find P (<[i := y]> l) = Some (i, y).
Proof.
  intros Hf Hy. apply list_find_Some in Hf as (Hi & Hx & Hlt).
  apply list_find_Some. split; [|split].
  - apply list_lookup_insert_eq. eapply lookup_lt_Some; eauto.
  - exact Hy.
  - intros j z Hj Hji. rewrite list_lookup_insert_ne in Hj by lia. eauto.
Qed.








Lemma find_review_overwrite id rs i r r' :
  find_review id rs = Some (i, r) -> r_id r' = id ->
  find_review id (<[i := r']> rs) = Some (i, r').
Proof. unfold find_review. intros Hf Hid. eapply list_find_overwrite; eauto. Qed.



End HelpfulVotes.

Section BooksRead.


End BooksRead.

Section Follow.

Lemma includes_Canonical id (l : list ObjectId) :
  includes_text (Canonical id) l = bool_decide (id ∈ l).
Proof.
  unfold includes_text. destruct (decide (id ∈ l)) as [Hin|Hnot].
  - rewrite bool_decide_eq_true_2 by exact Hin. apply existsb_exists.
    exists id. split; [apply list_elem_of_In, Hin|]. simpl. apply N.eqb_refl.
  - rewrite bool_decide_eq_false_2 by exact Hnot. apply not_true_is_false.
    intros H. apply existsb_exists in H as [x [Hx Heq]]. simpl in Heq.
    apply N.eqb_eq in Heq. subst x. apply list_elem_of_In in Hx. contradiction.
Qed.

Lemma follow_run au id db :
  follow au id db =
    if N.eqb id (au_id au)
    then ({| status := 400; body := message "You cannot follow yourself" |}, db)
    else
      match users db !! id with
      | None => ({| status := 404; body := message "User not found" |}, db)
      | Some target =>
        match users db !! au_id au with
        | None => (server_error "Server error while following user", db)
        | Some current =>
          let isFollowing := bool_decide (id ∈ following current) in
          ({| status := 200;
              body :=
                JObj [("message"%string,
                       JStr (if isFollowing then "User unfollowed" else "User followed"));
                      ("isFollowing"%string, JBool (negb isFollowing));
                      ("followersCount"%string,
                       JNum (inject_Z (Z.of_nat (length
                         (followers (toggled_target (au_id au) id current target))))))] |},
           set_users (fun us =>
             <[id := toggled_target (au_id au) id current target]>
               (<[au_id au := toggled_current id current]> us)) db)
        end
      end.
Proof.
  unfold follow, followUser, try_catch. cbv zeta. simpl.
  destruct (N.eqb_spec id (au_id au)) as [|Hne]; [reflexivity|].
  unfold bind at 1. unfold User_findById at 1, read at 1.
  unfold bind at 1. unfold User_findById at 1, read at 1.
  destruct (users db !! id) as [target|] eqn:Ht; [|reflexivity].
  destruct (users db !! au_id au) as [current|] eqn:Hc; [|reflexivity].
  rewrite includes_Canonical.
  unfold bind, User_save_modified, write, send. simpl.
  unfold toggled_target, toggled_current.
  f_equal.
  - destruct (bool_decide (id ∈ following current)); reflexivity.
  - unfold set_users. simpl. f_equal.
    apply map_eq. intros k.
    destruct (decide (k = id)) as [->|Hk].
    + rewrite lookup_alter_eq, lookup_insert_eq.
      rewrite lookup_alter_ne by congruence. rewrite Ht. simpl.
      destruct (bool_decide (id ∈ following current)); reflexivity.
    + rewrite lookup_alter_ne, lookup_insert_ne by congruence.
      destruct (decide (k = au_id au)) as [->|Hk'].
      * rewrite lookup_alter_eq, lookup_insert_eq, Hc. simpl.
        destruct (bool_decide (id ∈ following current)); reflexivity.
      * rewrite lookup_alter_ne, lookup_insert_ne by congruence. reflexivity.
Qed.

(** The guard of the follow route answers a path that holds the requester's
    id as [toString()] gives it. *)
Lemma self_follow_canonical (au : AuthUser) (db : DB) :
  follow au (au_id au) db =
    ({| status := 400; body := message "You cannot follow yourself" |}, db).
Proof. rewrite follow_run, N.eqb_refl. reflexivity. Qed.

Lemma includes_Variant id (l : list ObjectId) : includes_text (Variant id) l = false.
Proof. unfold includes_text. induction l as [|x l IH]; [reflexivity|exact IH]. Qed.

(** The run of the follow route on a path that holds the requester's own id
    in a spelling other than that of [toString()]. *)
Lemma followUser_own_variant (au : AuthUser) (db : DB) (u : User) :
  users db !! au_id au = Some u ->
  followUser au (Variant (au_id au)) db =
    ({| status := 200;
        body := JObj [("message"%string, JStr "User followed");
                      ("isFollowing"%string, JBool true);
                      ("followersCount"%string,
                       JNum (inject_Z (Z.of_nat (length (followers u ++ [au_id au]))))) ] |},
     set_users
       (insert (au_id au)
          (set_followers (followers u ++ [au_id au])
             (set_following (following u ++ [au_id au]) u))) db).
Proof.
  intros Hu. unfold followUser, try_catch. cbv zeta. simpl.
  unfold bind at 1. unfold User_findById at 1, read at 1.
  unfold bind at 1. unfold User_findById at 1, read at 1.
  rewrite Hu, includes_Variant.
  unfold bind, User_save_modified, write, send. simpl.
  f_equal. unfold set_users. simpl. f_equal.
  apply map_eq. intros k. destruct (decide (k = au_id au)) as [->|Hk].
  - rewrite !lookup_alter_eq, lookup_insert_eq, Hu. reflexivity.
  - rewrite !lookup_alter_ne, lookup_insert_ne by congruence. reflexivity.
Qed.

(** C8, on the code.  The guard of the follow route compares the text of
    the path with the requester's id as text.  A path that holds the
    requester's own id in another spelling, as in upper-case digits, passes
    the guard: the request is answered 200 "User followed", and the
    requester is stored in the own [following] and [followers]. *)
Theorem self_follow_not_rejected (au : AuthUser) (db : DB) (u : User) :
  users db !! au_id au = Some u ->
  followUser au (Variant (au_id au)) db =
    ({| status := 200;
        body := JObj [("message"%string, JStr "User followed");
                      ("isFollowing"%string, JBool true);
                      ("followersCount"%string,
                       JNum (inject_Z (Z.of_nat (length (followers u ++ [au_id au]))))) ] |},
     set_users
       (insert (au_id au)
          (set_followers (followers u ++ [au_id au])
             (set_following (following u ++ [au_id au]) u))) db).
Proof. apply followUser_own_variant. Qed.

Lemma elem_of_pull x v l : x ∈ pull v l <-> x ∈ l /\ x <> v.
Proof. unfold pull. rewrite list_elem_of_filter. tauto. Qed.



Lemma set_following_id u : set_following (following u) u = u.
Proof. destruct u; reflexivity. Qed.

Lemma set_followers_id u : set_followers (followers u) u = u.
Proof. destruct u; reflexivity. Qed.

Lemma set_users_id db : set_users (fun us => us) db = db.
Proof. destruct db; reflexivity. Qed.

Lemma follow_between au id db current target :
  au_id au <> id ->
  users db !! au_id au = Some current -> users db !! id = Some target ->
  status (fst (follow au id db)) = 200 /\
  snd (follow au id db) =
    set_users (fun us =>
      <[id := toggled_target (au_id au) id current target]>
        (<[au_id au := toggled_current id current]> us)) db.
Proof.
  intros Hne Hc Ht. rewrite follow_run.
  destruct (N.eqb_spec id (au_id au)) as [Heq|_]; [congruence|].
  rewrite Ht, Hc. split; reflexivity.
Qed.

Lemma toggled_current_following target current :
  following (toggled_current target current) =
    if decide (target ∈ following current) then pull target (following current)
    else following current ++ [target].
Proof.
  unfold toggled_current.
  destruct (decide (target ∈ following current)) as [H|H].
  - rewrite bool_decide_eq_true_2 by exact H. reflexivity.
  - rewrite bool_decide_eq_false_2 by exact H. reflexivity.
Qed.

Lemma toggled_target_followers currentId target current targetUser :
  followers (toggled_target currentId target current targetUser) =
    if decide (target ∈ following current) then pull currentId (followers targetUser)
    else followers targetUser ++ [currentId].
Proof.
  unfold toggled_target.
  destruct (decide (target ∈ following current)) as [H|H].
  - rewrite bool_decide_eq_true_2 by exact H. reflexivity.
  - rewrite bool_decide_eq_false_2 by exact H. reflexivity.
Qed.

Lemma toggled_current_rest target current :
  (username (toggled_current target current), favoriteGenres (toggled_current target current),
   readingGoal (toggled_current target current), booksRead (toggled_current target current),
   wishlist (toggled_current target current), followers (toggled_current target current),
   role (toggled_current target current)) =
  (username current, favoriteGenres current, readingGoal current, booksRead current,
   wishlist current, followers current, role current).
Proof. unfold toggled_current. destruct (bool_decide _); reflexivity. Qed.

Lemma toggled_target_rest currentId target current u :
  (username (toggled_target currentId target current u),
   favoriteGenres (toggled_target currentId target current u),
   readingGoal (toggled_target currentId target current u),
   booksRead (toggled_target currentId target current u),
   wishlist (toggled_target currentId target current u),
   following (toggled_target currentId target current u),
   role (toggled_target currentId target current u)) =
  (username u, favoriteGenres u, readingGoal u, booksRead u,
   wishlist u, following u, role u).
Proof. unfold toggled_target. destruct (bool_decide _); reflexivity. Qed.

(** Membership in the toggled lists. *)
Lemma elem_of_toggled_following x target current :
  x ∈ following (toggled_current target current) <->
    if decide (x = target) then target ∉ following current else x ∈ following current.
Proof.
  rewrite toggled_current_following.
  destruct (decide (target ∈ following current)) as [H|H].
  - rewrite elem_of_pull. destruct (decide (x = target)); subst; tauto.
  - rewrite elem_of_app, list_elem_of_singleton.
    destruct (decide (x = target)); subst; tauto.
Qed.

Lemma elem_of_toggled_followers x currentId target current u :
  x ∈ followers (toggled_target currentId target current u) <->
    if decide (target ∈ following current) then x ∈ followers u /\ x <> currentId
    else x ∈ followers u \/ x = currentId.
Proof.
  rewrite toggled_target_followers.
  destruct (decide (target ∈ following current)) as [H|H].
  - apply elem_of_pull.
  - rewrite elem_of_app, list_elem_of_singleton. reflexivity.
Qed.

Lemma follow_mirrored au id db current target :
  au_id au <> id ->
  users db !! au_id au = Some current -> users db !! id = Some target ->
  mirrored db -> mirrored (snd (follow au id db)).
Proof.
  intros Hne Hc Ht Hm.
  destruct (follow_between au id db current target Hne Hc Ht) as [_ ->].
  set (A := au_id au) in *. set (B := id) in *.
  intros a b ua ub. simpl.
  rewrite !lookup_insert.
  pose proof (toggled_current_rest B current) as Hcr.
  pose proof (toggled_target_rest A B current target) as Htr.
  injection Hcr as _ _ _ _ _ Hcf _. injection Htr as _ _ _ _ _ Htf _.
  pose proof (Hm A B current target Hc Ht) as HAB.
  repeat case_decide; subst; intros Hua Hub;
    repeat match goal with
      | H : Some _ = Some _ |- _ => injection H as <-
      end;
    rewrite ?elem_of_toggled_following, ?elem_of_toggled_followers, ?Hcf, ?Htf;
    repeat case_decide; try congruence;
    try (pose proof (Hm _ _ _ _ Hua Hub)); try (pose proof (Hm _ _ _ _ Hc Hub));
    try (pose proof (Hm _ _ _ _ Hua Ht)); try (pose proof (Hm _ _ _ _ Hua Hc));
    try (pose proof (Hm _ _ _ _ Ht Hub)); try (pose proof (Hm _ _ _ _ Hc Hc));
    try (pose proof (Hm _ _ _ _ Ht Ht)); try (pose proof (Hm _ _ _ _ Ht Hc));
    try tauto; try (intuition congruence).
Qed.



End Follow.

Section ReadingStats.

Lemma div_by_zero_not_finite (x : JSNumber.num) (s : bool) :
  JSNumber.isFinite
    (JSNumber.round (JSNumber.mul (JSNumber.div x (SpecFloat.S754_zero s))
                       (JSNumber.of_Z 100))) = false.
Proof. destruct x as [sx|sx| |sx m e]; reflexivity. Qed.

(** C10. The progress percentage of the reading statistics divides by
    [readingGoal] unguarded: whenever the goal is zero, which the schema's
    range allows, the value is not a finite number; it is NaN with no book
    read, and there is an admissible user for whom it is Infinity and for
    whom the route answers 200 with [null] in its place. *)
Theorem progressPercentage_not_total :
  (forall u s, readingGoal u = SpecFloat.S754_zero s ->
     JSNumber.isFinite (progressPercentage u) = false) /\
  (forall u s, readingGoal u = SpecFloat.S754_zero s -> booksRead u = [] ->
     progressPercentage u = JSNumber.NaN) /\
  (exists u, readingGoal_valid u /\
     progressPercentage u = JSNumber.Infinity /\
     forall id db, users db !! id = Some u ->
       status (fst (readingStats id db)) = 200 /\
       (json_get "readingStats" (body (fst (readingStats id db)))
          ≫= json_get "progressPercentage") = Some JNull).
Proof.
  split; [|split].
  - intros u s H0. unfold progressPercentage. rewrite H0.
    apply div_by_zero_not_finite.
  - intros u s H0 Hread. unfold progressPercentage. rewrite H0, Hread. reflexivity.
  - exists idle_reader. split; [|split].
    + unfold readingGoal_valid. split; reflexivity.
    + reflexivity.
    + intros id db Hu. unfold readingStats, try_catch, bind, User_findById, read.
      rewrite Hu. split; reflexivity.
Qed.

End ReadingStats.

Section Recommendations.

Lemma Set_from_acc {A} `{EqDecision A} (l acc : list A) :
  let r := fold_left (fun acc x => if decide (x ∈ acc) then acc else acc ++ [x]) l acc in
  (forall x, x ∈ r <-> x ∈ acc \/ x ∈ l) /\ (NoDup acc -> NoDup r).
Proof.
  revert acc. induction l as [|y l IH]; intros acc; simpl.
  - split; [|auto]. intros x. rewrite elem_of_nil. tauto.
  - destruct (decide (y ∈ acc)) as [Hin|Hnot].
    + destruct (IH acc) as [Hmem Hnd]. split; [|exact Hnd].
      intros x. rewrite Hmem, elem_of_cons.
      split; [tauto|]. intros [?|[->|?]]; auto.
    + destruct (IH (acc ++ [y])) as [Hmem Hnd]. split.
      * intros x. rewrite Hmem, elem_of_app, list_elem_of_singleton, elem_of_cons. tauto.
      * intros Hacc. apply Hnd. apply NoDup_app. split; [exact Hacc|].
        split; [|apply NoDup_singleton].
        intros x Hx Hx'. apply list_elem_of_singleton in Hx'. subst x. auto.
Qed.

Lemma elem_of_Set_from {A} `{EqDecision A} (l : list A) x : x ∈ Set_from l <-> x ∈ l.
Proof.
  unfold Set_from. destruct (Set_from_acc l []) as [Hmem _].
  rewrite Hmem, elem_of_nil. tauto.
Qed.

Lemma NoDup_Set_from {A} `{EqDecision A} (l : list A) : NoDup (Set_from l).
Proof.
  unfold Set_from. destruct (Set_from_acc l []) as [_ Hnd]. apply Hnd, NoDup_nil_2.
Qed.

Lemma elem_of_populate_books ids db i b :
  (i, b) ∈ populate_books ids db <-> i ∈ ids /\ books db !! i = Some b.
Proof.
  unfold populate_books. rewrite list_elem_of_omap. split.
  - intros [j [Hj Hf]]. destruct (books db !! j) as [bj|] eqn:E; [|discriminate].
    simpl in Hf. injection Hf as -> ->. auto.
  - intros [Hi Hb]. exists i. rewrite Hb. auto.
Qed.

(** The candidate genres are the favourite genres and the genres of the
    books read, without repetition. *)
Lemma candidate_genres_spec u db :
  NoDup (candidate_genres u db) /\
  forall g, g ∈ candidate_genres u db <->
    g ∈ favoriteGenres u \/
    exists j bj, j ∈ booksRead u /\ books db !! j = Some bj /\ genre bj = g.
Proof.
  unfold candidate_genres. split; [apply NoDup_Set_from|].
  intros g. rewrite elem_of_Set_from, elem_of_app.
  change (map (fun b => genre (snd b)) (populate_books (booksRead u) db))
    with ((fun b : ObjectId * Book => genre (snd b)) <$> populate_books (booksRead u) db).
  rewrite list_elem_of_fmap. split.
  - intros [H|[[j bj] [-> Hin]]]; [auto|]. right.
    apply elem_of_populate_books in Hin as [Hj Hb]. eauto.
  - intros [H|(j & bj & Hj & Hb & <-)]; [auto|]. right.
    exists (j, bj). split; [reflexivity|]. apply elem_of_populate_books. auto.
Qed.

Lemma by_rating_desc_alt x y : by_rating_desc x y <-> rating_then_count_desc x y.
Proof.
  unfold by_rating_desc, rating_then_count_desc.
  destruct (Qcompare_spec (averageRating (snd x)) (averageRating (snd y))) as [H|H|H].
  - split; [auto|]. intros [Hlt|[_ Hle]]; [|exact Hle].
    exfalso. rewrite H in Hlt. exact (Qlt_irrefl _ Hlt).
  - split; [tauto|]. intros [Hlt|[Heq _]]; [exact (Qlt_irrefl _ (Qlt_trans _ _ _ H Hlt))|].
    rewrite Heq in H. exact (Qlt_irrefl _ H).
  - split; auto.
Qed.

#[local] Instance by_rating_desc_total : Total by_rating_desc.
Proof.
  intros x y. rewrite !by_rating_desc_alt. unfold rating_then_count_desc.
  destruct (Q_dec (averageRating (snd x)) (averageRating (snd y))) as [[H|H]|H]; auto.
  destruct (Z_le_gt_dec (ratingsCount (snd y)) (ratingsCount (snd x))).
  - left. right. auto.
  - right. right. split; [symmetry; exact H|lia].
Qed.

#[local] Instance by_rating_desc_trans : Transitive by_rating_desc.
Proof.
  intros x y z. rewrite !by_rating_desc_alt. unfold rating_then_count_desc.
  intros [H1|[H1 L1]] [H2|[H2 L2]].
  - left. eapply Qlt_trans; eauto.
  - left. rewrite <- H2. exact H1.
  - left. rewrite H1. exact H2.
  - right. split; [rewrite H1; exact H2|lia].
Qed.

Lemma StronglySorted_take {A} (R : relation A) n (l : list A) :
  StronglySorted R l -> StronglySorted R (take n l).
Proof.
  intros H. rewrite <- (take_drop n l) in H.
  eapply StronglySorted_app_1_l. exact H.
Qed.

Lemma StronglySorted_impl {A} (R S : relation A) (l : list A) :
  (forall x y, R x y -> S x y) -> StronglySorted R l -> StronglySorted S l.
Proof.
  intros HRS. induction 1 as [|x l Hl IH Hx]; constructor; [exact IH|].
  eapply Forall_impl; eauto.
Qed.

(** Membership in the query's result set, before sorting and cutting. *)
Lemma recommendable_spec gs read i b :
  recommendable gs read (i, b) = true <->
    genre b ∈ gs /\ (i ∉ read) /\ (4 <= averageRating b)%Q /\ 5 <= ratingsCount b.
Proof.
  unfold recommendable. simpl.
  rewrite !andb_true_iff, negb_true_iff, bool_decide_eq_true, bool_decide_eq_false,
    Qle_bool_iff, Z.leb_le. tauto.
Qed.

Lemma elem_of_recommend_pool u db i b :
  (i, b) ∈ filter (fun doc => recommendable (candidate_genres u db)
                     (map fst (populate_books (booksRead u) db)) doc = true)
            (map_to_list (books db)) <->
  books db !! i = Some b /\ qualifies u db i b.
Proof.
  rewrite list_elem_of_filter, elem_of_map_to_list, recommendable_spec.
  destruct (candidate_genres_spec u db) as [_ Hg]. rewrite Hg.
  unfold qualifies.
  assert (books db !! i = Some b ->
          (i ∈ map fst (populate_books (booksRead u) db) <-> i ∈ booksRead u)) as Hread.
  { intros Hb.
    change (map fst (populate_books (booksRead u) db))
      with (fst <$> populate_books (booksRead u) db).
    rewrite list_elem_of_fmap. split.
    - intros [[j bj] [-> Hin]]. apply elem_of_populate_books in Hin. tauto.
    - intros Hi. exists (i, b). split; [reflexivity|].
      apply elem_of_populate_books. auto. }
  split.
  - intros [(Hgen & Hnot & Hr & Hc) Hb]. rewrite Hread in Hnot by exact Hb. tauto.
  - intros [Hb (Hgen & Hnot & Hr & Hc)]. rewrite Hread by exact Hb. tauto.
Qed.

Lemma recommendations_run id db :
  recommendations id db =
    match users db !! id with
    | None => ({| status := 404; body := message "User not found" |}, db)
    | Some u =>
        (match mapM (listed_book_json db) (recommend u db) with
         | Some l => {| status := 200; body := JObj [("recommendations"%string, JArr l)] |}
         | None => server_error "Server error while fetching recommendations"
         end, db)
    end.
Proof.
  unfold recommendations, try_catch, bind, User_findById, read.
  destruct (users db !! id) as [u|]; [|reflexivity].
  destruct (mapM (listed_book_json db) (recommend u db)); reflexivity.
Qed.

(** C3. For a user [u], the recommendation query selects only existing
    books that qualify (genre among the deduplicated union of the favourite
    genres and the genres of the books read, not among the books read,
    average rating at least 4, at least 5 ratings), no book twice, ordered by
    descending average rating and then descending ratings count, at most 12
    of them and as many as qualify up to 12, hence none when no book
    qualifies.  The route returns this list, and answers 200, exactly when
    no selected book has an owner with a user document; with an empty list
    it always does. *)
Theorem recommend_spec (id : ObjectId) (u : User) (db : DB) :
  users db !! id = Some u ->
  (status (fst (recommendations id db)) = 200 <-> Forall (ownerless db) (recommend u db)) /\
  (status (fst (recommendations id db)) = 200 ->
     body (fst (recommendations id db)) =
       JObj [("recommendations"%string,
              JArr (map (book_json_with JNull) (recommend u db)))]) /\
  NoDup (candidate_genres u db) /\
  (forall i b, (i, b) ∈ recommend u db -> books db !! i = Some b /\ qualifies u db i b) /\
  NoDup (map fst (recommend u db)) /\
  StronglySorted rating_then_count_desc (recommend u db) /\
  (length (recommend u db) <= 12)%nat /\
  (forall pool : list (ObjectId * Book),
     NoDup pool ->
     (forall i b, (i, b) ∈ pool <-> books db !! i = Some b /\ qualifies u db i b) ->
     length (recommend u db) = Nat.min 12 (length pool)) /\
  ((forall i b, books db !! i = Some b -> ~ qualifies u db i b) ->
     recommend u db = [] /\
     fst (recommendations id db) =
       {| status := 200; body := JObj [("recommendations"%string, JArr [])] |}).
Proof.
  intros Hu.
  set (pool := filter (fun doc => recommendable (candidate_genres u db)
                         (map fst (populate_books (booksRead u) db)) doc = true)
                 (map_to_list (books db))).
  assert (recommend u db = take 12 (merge_sort by_rating_desc pool)) as Hrec by reflexivity.
  assert (merge_sort by_rating_desc pool ≡ₚ pool) as Hperm by apply merge_sort_Permutation.
  assert (NoDup pool) as Hnd.
  { subst pool. apply NoDup_filter, NoDup_map_to_list. }
  split; [|split; [|split; [|split; [|split; [|split; [|split; [|split]]]]]]].
  - rewrite recommendations_run, Hu. simpl.
    destruct (listed_books_cases db (recommend u db)) as [[HF ->]|[HF ->]]; simpl.
    + tauto.
    + split; [discriminate|contradiction].
  - rewrite recommendations_run, Hu. simpl.
    destruct (listed_books_cases db (recommend u db)) as [[HF ->]|[HF ->]]; simpl.
    + reflexivity.
    + discriminate.
  - apply candidate_genres_spec.
  - intros i b Hin. apply elem_of_recommend_pool. fold pool.
    rewrite Hrec in Hin. apply subseteq_take in Hin. rewrite Hperm in Hin. exact Hin.
  - rewrite Hrec. change (map fst (take 12 (merge_sort by_rating_desc pool)))
      with (fst <$> take 12 (merge_sort by_rating_desc pool)).
    rewrite fmap_take.
    eapply sublist_NoDup; [|apply sublist_take].
    rewrite Hperm. subst pool.
    apply (sublist_NoDup _ (fst <$> map_to_list (books db)));
      [apply NoDup_fst_map_to_list | apply fmap_sublist, sublist_filter].
  - rewrite Hrec. apply StronglySorted_take.
    eapply StronglySorted_impl; [|apply StronglySorted_merge_sort; apply _].
    intros x y. apply by_rating_desc_alt.
  - rewrite Hrec, length_take. lia.
  - intros pool' Hnd' Hpool'. rewrite Hrec, length_take, Hperm.
    f_equal. apply Permutation_length. apply NoDup_Permutation; [exact Hnd|exact Hnd'|].
    intros [i b]. rewrite Hpool'. apply elem_of_recommend_pool.
  - intros Hnone.
    assert (recommend u db = []) as Hempty.
    { rewrite Hrec.
      assert (pool = []) as ->.
      { destruct pool as [|[i b] l] eqn:E; [reflexivity|]. exfalso.
        assert ((i, b) ∈ pool) as Hin by (rewrite E; apply list_elem_of_here).
        apply elem_of_recommend_pool in Hin as [Hb Hq]. exact (Hnone i b Hb Hq). }
      reflexivity. }
    split; [exact Hempty|]. rewrite recommendations_run, Hu, Hempty. reflexivity.
Qed.

End Recommendations.

Section BookListShape.

Variable regex_test : string -> string -> bool.
Variable textScore : string -> ObjectId * Book -> Q.
Variable text_match : string -> ObjectId * Book -> bool.

(** [Math.ceil(t / l)] is the least number of pages of size [l] that hold
    [t] items. *)
Lemma Math_ceil_div (t l : Z) :
  0 < l ->
  (Math_ceil (inject_Z t / inject_Z l) - 1) * l < t <= Math_ceil (inject_Z t / inject_Z l) * l.
Proof.
  intros Hl. unfold Math_ceil.
  set (x := (inject_Z t / inject_Z l)%Q).
  assert (inject_Z 0 < inject_Z l)%Q as HlQ by (rewrite <- Zlt_Qlt; exact Hl).
  change (inject_Z 0) with 0%Q in HlQ.
  assert (x * inject_Z l == inject_Z t)%Q as Hx.
  { unfold x. field. intros H0. rewrite H0 in HlQ. exact (Qlt_irrefl _ HlQ). }
  pose proof (Qle_ceiling x) as Hup. pose proof (Qceiling_lt x) as Hlow.
  split.
  - rewrite Zlt_Qlt, inject_Z_mult, <- Hx.
    apply Qmult_lt_compat_r; assumption.
  - rewrite Zle_Qle, inject_Z_mult, <- Hx.
    apply Qmult_le_compat_r; [assumption|]. apply Qlt_le_weak, HlQ.
Qed.

Lemma parseInt_or_valid_page (p : option Z) :
  from_option (fun p => if 1 <=? p then [] else ["Invalid value"%string]) [] p = [] ->
  1 <= parseInt_or p 1.
Proof.
  destruct p as [n|]; simpl; [|lia].
  destruct (Z.leb_spec 1 n); [|discriminate]. intros _.
  destruct (Z.eqb_spec n 0); lia.
Qed.

Lemma parseInt_or_valid_limit (l : option Z) :
  from_option (fun l => if (1 <=? l) && (l <=? 50) then [] else ["Invalid value"%string])
    [] l = [] ->
  1 <= parseInt_or l 12 <= 50.
Proof.
  destruct l as [n|]; simpl; [|lia].
  destruct (Z.leb_spec 1 n); simpl; [|discriminate].
  destruct (Z.leb_spec n 50); [|discriminate]. intros _.
  destruct (Z.eqb_spec n 0); lia.
Qed.

Lemma listBooks_run q db :
  listBooks regex_test textScore text_match q db =
    match books_query_errors q with
    | _ :: _ =>
        ({| status := 400;
            body := validation_failed "Invalid query parameters" (books_query_errors q) |}, db)
    | [] =>
      let page := parseInt_or (q_page q) 1 in
      let limit := parseInt_or (q_limit q) 12 in
      let found := find_books regex_test text_match q db in
      let total := Z.of_nat (length found) in
      let items :=
        take (Z.to_nat limit)
          (drop (Z.to_nat ((page - 1) * limit))
             (merge_sort (books_order textScore q) found)) in
      (match mapM (listed_book_json db) items with
       | Some l =>
           {| status := 200;
              body :=
                JObj [("books"%string, JArr l);
                      ("pagination"%string,
                       JObj [("current"%string, JNum (inject_Z page));
                             ("pages"%string,
                              JNum (inject_Z (Math_ceil (inject_Z total / inject_Z limit))));
                             ("total"%string, JNum (inject_Z total));
                             ("limit"%string, JNum (inject_Z limit))])] |}
       | None => server_error "Server error while fetching books"
       end, db)
    end.
Proof.
  unfold listBooks, try_catch. destruct (books_query_errors q); [|reflexivity].
  cbv zeta. unfold bind, read.
  destruct (mapM (listed_book_json db) _); reflexivity.
Qed.

(** C7, as the code has it. A successful answer of the book-list route is
    the object [{books, pagination: {current, pages, total, limit}}]: [books]
    is the requested page of the sorted matching books, at most [limit] of
    them, each with [null] for its owner, [total] counts the matching books,
    and [pages] is [ceil(total / limit)], the least number of pages that hold
    them. *)
Theorem listBooks_shape (q : BooksQuery) (db : DB) :
  let r := fst (listBooks regex_test textScore text_match q db) in
  status r = 200 ->
  exists (items : list (ObjectId * Book)) (current pages total limit : Z),
    body r =
      JObj [("books"%string, JArr (map (book_json_with JNull) items));
            ("pagination"%string,
             JObj [("current"%string, JNum (inject_Z current));
                   ("pages"%string, JNum (inject_Z pages));
                   ("total"%string, JNum (inject_Z total));
                   ("limit"%string, JNum (inject_Z limit))])] /\
    1 <= current /\ 1 <= limit <= 50 /\
    total = Z.of_nat (length (find_books regex_test text_match q db)) /\
    items =
      take (Z.to_nat limit)
        (drop (Z.to_nat ((current - 1) * limit))
           (merge_sort (books_order textScore q) (find_books regex_test text_match q db))) /\
    (length items <= Z.to_nat limit)%nat /\
    (forall doc, doc ∈ items ->
       books db !! fst doc = Some (snd doc) /\
       books_filter regex_test text_match q doc = true /\
       ownerless db doc) /\
    pages = Math_ceil (inject_Z total / inject_Z limit) /\
    (pages - 1) * limit < total <= pages * limit.
Proof.
  intros r Hok. subst r. rewrite listBooks_run in *.
  destruct (books_query_errors q) eqn:Herr; [|discriminate]. cbv zeta in *.
  destruct (listed_books_cases db
              (take (Z.to_nat (parseInt_or (q_limit q) 12))
                 (drop (Z.to_nat ((parseInt_or (q_page q) 1 - 1) * parseInt_or (q_limit q) 12))
                    (merge_sort (books_order textScore q)
                       (find_books regex_test text_match q db)))))
    as [[HF Hm]|[HF Hm]]; rewrite Hm in *; [|discriminate]. simpl.
  unfold books_query_errors in Herr.
  apply app_eq_nil in Herr as [Hpage Herr]. apply app_eq_nil in Herr as [Hlimit _].
  pose proof (parseInt_or_valid_page _ Hpage) as Hp.
  pose proof (parseInt_or_valid_limit _ Hlimit) as Hl.
  eexists _, _, _, _, _. split; [reflexivity|].
  split; [exact Hp|]. split; [exact Hl|]. split; [reflexivity|].
  split; [reflexivity|]. split; [rewrite length_take; lia|].
  split; [|split; [reflexivity|apply Math_ceil_div; lia]].
  intros [i b] Hin. rewrite Forall_forall in HF. pose proof (HF _ Hin) as Howner.
  apply subseteq_take, subseteq_drop in Hin.
  rewrite merge_sort_Permutation in Hin. unfold find_books in Hin.
  apply list_elem_of_filter in Hin as [Hf Hin].
  apply elem_of_map_to_list in Hin. auto.
Qed.

End BookListShape.

(** * The theorems at work on the example database *)

Section Scenario.

(** The scenario of the specification: with reviews 5, 4, 3 the book has
    average 4.0 and count 3; a review of 2 makes it 3.5 and 4; deleting that
    review brings 4.0 and 3 back. *)
Example scenario_initial :
  aggregate_fields 100 (updateAverageRating 100 (a_book "Dune" SciFi 0 0) library)
    = Some (4%Q, 3).
Proof. vm_compute. reflexivity. Qed.

Example scenario_add :
  ratings_of 100 after_add = [5; 4; 3; 2] /\
  aggregate_fields 100 after_add = Some (7 # 2, 4).
Proof. vm_compute. split; reflexivity. Qed.

Example scenario_delete :
  ratings_of 100 after_delete = [5; 4; 3] /\
  aggregate_fields 100 after_delete = Some (4%Q, 3).
Proof. vm_compute. split; reflexivity. Qed.

(** A tie goes up: ratings 4, 4, 5, 4 have mean 4.25, stored as 4.3. *)
Example tie_rounds_up : Qred (fst (aggregate_of [4; 4; 5; 4])) = (43 # 10)%Q.
Proof. vm_compute. reflexivity. Qed.

End Scenario.

Lemma dee_can_review : can_review dee 14 100 two_stars library.
Proof.
  apply (can_review_iff dee 14 0 100 two_stars library).
  split; [reflexivity|]. split; [eexists; reflexivity|]. split; reflexivity.
Qed.

(** The fourth review of the scenario: the creation is carried out (and
    answered 500), and the book has its aggregate afterwards. *)
Lemma review_mutation_reestablishes_aggregate_witness :
  parent_book (Create dee 14 0 100 two_stars) library = Some 100%N /\
  carried_out (Create dee 14 0 100 two_stars) library /\
  status (fst (run_mutation (Create dee 14 0 100 two_stars) library)) = 500 /\
  aggregate_holds 100 (snd (run_mutation (Create dee 14 0 100 two_stars) library)).
Proof.
  assert (parent_book (Create dee 14 0 100 two_stars) library = Some 100%N) as H1
    by reflexivity.
  split; [exact H1|]. split; [exact dee_can_review|]. split; [vm_compute; reflexivity|].
  exact (proj1 (review_mutation_reestablishes_aggregate _ _ _ H1) dee_can_review).
Defined.



(** User 1 has reviewed book 100; a second review is refused. *)
Lemma duplicate_review_rejected_witness :
  (exists r, r ∈ reviews library /\ book r = 100%N /\ user r = au_id ann) /\
  createReview ann 14 0 100 two_stars library =
    ({| status := 400; body := message "You have already reviewed this book" |}, library).
Proof.
  assert (exists r, r ∈ reviews library /\ book r = 100%N /\ user r = au_id ann) as H.
  { exists (a_review 11 100 1 5). split; [apply list_elem_of_here|]. split; reflexivity. }
  split; [exact H|].
  destruct (duplicate_review_rejected false ann 14 0 100 two_stars library H)
    as (Hdb & _ & Hresp & _).
  apply injective_projections; simpl.
  - apply Hresp; [reflexivity|]. exists (a_book "Dune" SciFi (inject_Z 40 / 10) 3).
    reflexivity.
  - exact Hdb.
Defined.



(** User 3 likes Romance and Fiction and has read books 100 and 102: books
    103 and 101 are selected, in this order. *)
Lemma recommend_spec_witness :
  users library !! 3%N = Some (a_user "cy" [Romance; Fiction] [100%N; 102%N]) /\
  map fst (recommend (a_user "cy" [Romance; Fiction] [100%N; 102%N]) library)
    = [103%N; 101%N] /\
  StronglySorted rating_then_count_desc
    (recommend (a_user "cy" [Romance; Fiction] [100%N; 102%N]) library).
Proof.
  assert (users library !! 3%N = Some (a_user "cy" [Romance; Fiction] [100%N; 102%N]))
    as H by reflexivity.
  split; [exact H|]. split; [vm_compute; reflexivity|].
  destruct (recommend_spec 3 _ library H) as (_ & _ & _ & _ & _ & Hsorted & _).
  exact Hsorted.
Defined.

(** The list route without parameters on the six books of the example,
    when their owner has no user document. *)
Lemma listBooks_shape_witness :
  status (fst (listBooks (fun _ _ => true) (fun _ _ => 1%Q) (fun _ _ => true)
                 plain_query deserted)) = 200 /\
  exists items pages,
    json_get "books"
      (body (fst (listBooks (fun _ _ => true) (fun _ _ => 1%Q) (fun _ _ => true)
                    plain_query deserted)))
      = Some (JArr (map (book_json_with JNull) items)) /\
    (pages - 1) * 12 < 6 <= pages * 12.
Proof.
  assert (status (fst (listBooks (fun _ _ => true) (fun _ _ => 1%Q) (fun _ _ => true)
                         plain_query deserted)) = 200) as H by (vm_compute; reflexivity).
  split; [exact H|].
  destruct (listBooks_shape (fun _ _ => true) (fun _ _ => 1%Q) (fun _ _ => true)
              plain_query deserted H)
    as (items & current & pages & total & limit & Hbody & _ & _ & Htotal & _ & _ & _ & Hpages & Hceil).
  exists items, pages. rewrite Hbody. split; [reflexivity|].
  assert (total = 6) as Ht by (rewrite Htotal; vm_compute; reflexivity).
  assert (limit = 12) as Hl.
  { clear - Hbody. vm_compute in Hbody. inversion Hbody. reflexivity. }
  subst total limit. exact Hceil.
Defined.

(** C7, as stated, fails: the successful answer of the book-list route has
    the keys [books] and [pagination]; it has no [items] key and so is not of
    the shape [{items, pagination: {...}}]. *)
Lemma listBooks_not_items_shape :
  status (fst (listBooks (fun _ _ => true) (fun _ _ => 1%Q) (fun _ _ => true)
                 plain_query deserted)) = 200 /\
  json_keys (body (fst (listBooks (fun _ _ => true) (fun _ _ => 1%Q) (fun _ _ => true)
                         plain_query deserted))) = ["books"; "pagination"]%string /\
  json_get "items"
    (body (fst (listBooks (fun _ _ => true) (fun _ _ => 1%Q) (fun _ _ => true)
                  plain_query deserted))) = None /\
  ~ items_shape
      (body (fst (listBooks (fun _ _ => true) (fun _ _ => 1%Q) (fun _ _ => true)
                    plain_query deserted))).
Proof.
  assert (exists l pagination,
            body (fst (listBooks (fun _ _ => true) (fun _ _ => 1%Q) (fun _ _ => true)
                         plain_query deserted))
            = JObj [("books"%string, l); ("pagination"%string, pagination)]) as (l & pg & Hb).
  { eexists _, _. vm_compute. reflexivity. }
  split; [vm_compute; reflexivity|]. rewrite Hb.
  split; [reflexivity|]. split; [reflexivity|].
  intros (items & current & pages & total & limit & H). discriminate H.
Qed.

(** User 1 asks to follow the own id written in another spelling. *)
Lemma self_follow_not_rejected_witness :
  users library !! au_id ann = Some (a_user "ann" [Fiction] [100%N]) /\
  status (fst (followUser ann (Variant (au_id ann)) library)) = 200 /\
  (following <$> users (snd (followUser ann (Variant (au_id ann)) library)) !! 1%N) = Some [1%N] /\
  (followers <$> users (snd (followUser ann (Variant (au_id ann)) library)) !! 1%N) = Some [1%N].
Proof.
  assert (users library !! au_id ann = Some (a_user "ann" [Fiction] [100%N])) as H
    by reflexivity.
  split; [exact H|].
  rewrite (self_follow_not_rejected ann library _ H).
  split; [reflexivity|]. simpl. rewrite lookup_insert_eq. split; reflexivity.
Defined.

(** * Further routes *)

Section Likes.

Lemma likeReview_run au id db :
  likeReview au id db =
    match find_review id (reviews db) with
    | None => ({| status := 404; body := message "Review not found" |}, db)
    | Some (i, r) =>
      let absent := bool_decide (list_find (fun x => x = au_id au) (likes r) = None) in
      let review' := set_likes (toggle_like (au_id au) (likes r)) r in
      ({| status := 200;
          body :=
            JObj [("message"%string,
                   JStr (if absent then "Review liked" else "Review unliked"));
                  ("likesCount"%string,
                   JNum (inject_Z (Z.of_nat (length (likes review')))));
                  ("isLiked"%string, JBool absent)] |},
       recomputed (book r) (set_reviews (fun rs => <[i := review']> rs) db))
    end.
Proof.
  unfold likeReview, try_catch.
  unfold bind at 1. unfold Review_findById at 1, read at 1.
  destruct (find_review id (reviews db)) as [[i r]|] eqn:E; [|reflexivity]. simpl.
  unfold bind. rewrite Review_save_run. simpl.
  rewrite (find_review_id _ _ _ _ E), E. reflexivity.
Qed.

Lemma toggle_like_absent u l : u ∉ l -> toggle_like u l = l ++ [u].
Proof.
  intros Hnot. unfold toggle_like.
  destruct (list_find _ l) as [[i y]|] eqn:Hf; [|reflexivity].
  apply list_find_Some in Hf as (Hi & -> & _). exfalso. apply Hnot.
  apply list_elem_of_lookup. eauto.
Qed.

Lemma toggle_like_present u l :
  u ∈ l ->
  exists i, l !! i = Some u /\ toggle_like u l = delete i l /\
            (forall j, (j < i)%nat -> l !! j <> Some u).
Proof.
  intros Hin. unfold toggle_like.
  destruct (list_find_elem_of (fun x => x = u) l u Hin eq_refl) as [[i y] Hf].
  rewrite Hf. apply list_find_Some in Hf as (Hi & -> & Hlt).
  exists i. split; [exact Hi|]. split; [reflexivity|].
  intros j Hj Hl. exact (Hlt j u Hl Hj eq_refl).
Qed.

Lemma elem_of_delete_other {A} (l : list A) i x y :
  l !! i = Some x -> y <> x -> (y ∈ delete i l <-> y ∈ l).
Proof.
  intros Hi Hne. rewrite (delete_Permutation l i x Hi) at 2.
  rewrite elem_of_cons. tauto.
Qed.

Lemma NoDup_delete_absent {A} (l : list A) i x :
  l !! i = Some x -> NoDup l -> (x ∉ delete i l) /\ NoDup (delete i l).
Proof.
  intros Hi Hnd. rewrite (delete_Permutation l i x Hi) in Hnd.
  apply NoDup_cons in Hnd. exact Hnd.
Qed.

Lemma toggle_like_length u l :
  length (toggle_like u l) =
    if decide (u ∈ l) then (length l - 1)%nat else S (length l).
Proof.
  destruct (decide (u ∈ l)) as [Hin|Hnot].
  - destruct (toggle_like_present u l Hin) as (i & Hi & -> & _).
    apply length_delete. eauto.
  - rewrite toggle_like_absent by exact Hnot. rewrite length_app. simpl. lia.
Qed.

Lemma toggle_like_others u l x : x <> u -> (x ∈ toggle_like u l <-> x ∈ l).
Proof.
  intros Hne. destruct (decide (u ∈ l)) as [Hin|Hnot].
  - destruct (toggle_like_present u l Hin) as (i & Hi & -> & _).
    apply elem_of_delete_other with u; assumption.
  - rewrite toggle_like_absent by exact Hnot.
    rewrite elem_of_app, list_elem_of_singleton. tauto.
Qed.

Lemma toggle_like_NoDup u l :
  NoDup l -> NoDup (toggle_like u l) /\ (u ∈ toggle_like u l <-> u ∉ l).
Proof.
  intros Hnd. destruct (decide (u ∈ l)) as [Hin|Hnot].
  - destruct (toggle_like_present u l Hin) as (i & Hi & -> & _).
    destruct (NoDup_delete_absent l i u Hi Hnd) as [Hout Hnd']. tauto.
  - rewrite toggle_like_absent by exact Hnot. split.
    + apply NoDup_app. split; [exact Hnd|]. split; [|apply NoDup_singleton].
      intros x Hx Hx'. apply list_elem_of_singleton in Hx'. subst x. auto.
    + rewrite elem_of_app, list_elem_of_singleton. tauto.
Qed.

Lemma toggle_like_twice u l :
  (u ∉ l -> toggle_like u (toggle_like u l) = l) /\
  (NoDup l -> toggle_like u (toggle_like u l) ≡ₚ l).
Proof.
  assert (u ∉ l -> toggle_like u (toggle_like u l) = l) as Habsent.
  { intros Hnot. rewrite (toggle_like_absent u l Hnot).
    unfold toggle_like.
    assert (list_find (fun x => x = u) (l ++ [u]) = Some (length l, u)) as ->.
    { rewrite list_find_app_r.
      - simpl. destruct (decide (u = u)); [|contradiction]. simpl.
        reflexivity.
      - apply list_find_None, Forall_forall. intros x Hx ->. contradiction. }
    replace (l ++ [u]) with (l ++ u :: []) by reflexivity.
    rewrite delete_middle. apply app_nil_r. }
  split; [exact Habsent|].
  intros Hnd. destruct (decide (u ∈ l)) as [Hin|Hnot]; [|rewrite Habsent; auto].
  destruct (toggle_like_present u l Hin) as (i & Hi & -> & _).
  destruct (NoDup_delete_absent l i u Hi Hnd) as [Hout _].
  rewrite (toggle_like_absent u _ Hout).
  rewrite (delete_Permutation l i u Hi) at 2.
  symmetry. apply Permutation_cons_append.
Qed.

Lemma likeReview_stores au id db i r :
  find_review id (reviews db) = Some (i, r) ->
  status (fst (likeReview au id db)) = 200 /\
  find_review id (reviews (snd (likeReview au id db)))
    = Some (i, set_likes (toggle_like (au_id au) (likes r)) r) /\
  reviews (snd (likeReview au id db))
    = <[i := set_likes (toggle_like (au_id au) (likes r)) r]> (reviews db) /\
  users (snd (likeReview au id db)) = users db.
Proof.
  intros Hf. rewrite likeReview_run, Hf. cbv zeta. simpl.
  rewrite recomputed_reviews, recomputed_users. simpl.
  split; [reflexivity|]. split; [|split; reflexivity].
  eapply find_review_overwrite; eauto. simpl. eapply find_review_id; eauto.
Qed.

(** X1. A like request on an existing review answers 200 and toggles the
    requester in the review's [likes]: an absent user is appended and a
    present one has one occurrence removed, so the count moves by exactly
    one and is the [likesCount] of the answer; nobody else's like changes,
    and nothing else of the review, of the other reviews or of the users
    does.  On a duplicate-free list the requester's membership flips and the
    list stays duplicate-free. *)
Theorem like_toggles_membership
    (au : AuthUser) (id : ObjectId) (db : DB) (i : nat) (r : Review) :
  find_review id (reviews db) = Some (i, r) ->
  let res := likeReview au id db in
  exists r1,
    status (fst res) = 200 /\
    reviews (snd res) = <[i := r1]> (reviews db) /\
    users (snd res) = users db /\
    (r_id r1, book r1, user r1, rating r1, r_title r1, content r1, helpful r1,
     editHistory r1, r_createdAt r1) =
    (r_id r, book r, user r, rating r, r_title r, content r, helpful r,
     editHistory r, r_createdAt r) /\
    (au_id au ∉ likes r ->
       likes r1 = likes r ++ [au_id au] /\
       json_get "isLiked" (body (fst res)) = Some (JBool true)) /\
    (au_id au ∈ likes r ->
       S (length (likes r1)) = length (likes r) /\
       json_get "isLiked" (body (fst res)) = Some (JBool false)) /\
    json_get "likesCount" (body (fst res))
      = Some (JNum (inject_Z (Z.of_nat (length (likes r1))))) /\
    (forall x, x <> au_id au -> (x ∈ likes r1 <-> x ∈ likes r)) /\
    (NoDup (likes r) ->
       NoDup (likes r1) /\ (au_id au ∈ likes r1 <-> au_id au ∉ likes r)).
Proof.
  intros Hf res. subst res.
  destruct (likeReview_stores au id db i r Hf) as (Hst & _ & Hrs & Hus).
  exists (set_likes (toggle_like (au_id au) (likes r)) r).
  split; [exact Hst|]. split; [exact Hrs|]. split; [exact Hus|].
  split; [reflexivity|].
  rewrite likeReview_run, Hf. cbv zeta. simpl.
  split; [|split; [|split; [|split]]].
  - intros Hnot. split; [apply toggle_like_absent, Hnot|].
    rewrite bool_decide_eq_true_2; [reflexivity|].
    apply list_find_None, Forall_forall. intros x Hx ->. contradiction.
  - intros Hin. split.
    + rewrite toggle_like_length. destruct (decide _); [|contradiction].
      apply list_elem_of_lookup in Hin as [j Hj]. apply lookup_lt_Some in Hj. lia.
    + rewrite bool_decide_eq_false_2; [reflexivity|].
      intros Hnone. apply list_find_None in Hnone. rewrite Forall_forall in Hnone.
      exact (Hnone _ Hin eq_refl).
  - reflexivity.
  - intros x Hx. apply toggle_like_others, Hx.
  - apply toggle_like_NoDup.
Qed.

(** X2. Two like requests in a row by the same user on the same review undo
    each other: when the user had not liked the review the [likes] list is
    the very same afterwards, and on any duplicate-free list it has the same
    members. *)
Theorem like_twice_restores
    (au : AuthUser) (id : ObjectId) (db : DB) (i : nat) (r : Review) :
  find_review id (reviews db) = Some (i, r) ->
  let db2 := snd (likeReview au id (snd (likeReview au id db))) in
  exists r2,
    find_review id (reviews db2) = Some (i, r2) /\
    (au_id au ∉ likes r -> likes r2 = likes r) /\
    (NoDup (likes r) -> likes r2 ≡ₚ likes r).
Proof.
  intros Hf db2. subst db2.
  destruct (likeReview_stores au id db i r Hf) as (_ & H1 & _ & _).
  destruct (likeReview_stores au id _ i _ H1) as (_ & H2 & _ & _).
  eexists. split; [exact H2|]. simpl. apply toggle_like_twice.
Qed.

End Likes.

Section Wishlist.




End Wishlist.

Section DeleteBook.

Lemma not_authorized_iff au owner :
  negb (N.eqb owner (au_id au)) && negb (bool_decide (au_role au = RoleAdmin)) = true
  <-> ~ owner_or_admin au owner.
Proof.
  unfold owner_or_admin.
  rewrite andb_true_iff, !negb_true_iff, bool_decide_eq_false, N.eqb_neq. tauto.
Qed.

Lemma deleteBook_run au id db :
  deleteBook au id db =
    match books db !! id with
    | None => ({| status := 404; body := message "Book not found" |}, db)
    | Some b =>
      if negb (N.eqb (addedBy b) (au_id au)) && negb (bool_decide (au_role au = RoleAdmin))
      then ({| status := 403; body := message "Not authorized to delete this book" |}, db)
      else
        ({| status := 200;
            body := message "Book and associated reviews deleted successfully" |},
         set_books (delete id) (set_reviews (filter (fun r => book r <> id)) db))
    end.
Proof.
  unfold deleteBook, try_catch.
  unfold bind at 1. unfold Book_findById at 1, read at 1.
  destruct (books db !! id) as [b|]; [|reflexivity].
  destruct (negb _ && _); reflexivity.
Qed.

Lemma match_book_cascade bid id (rs : list Review) :
  bid <> id ->
  match_book bid (filter (fun r => book r <> id) rs) = match_book bid rs.
Proof.
  intros Hne. unfold match_book. induction rs as [|r rs IH]; [reflexivity|].
  rewrite (filter_cons (fun r => book r <> id)).
  destruct (decide (book r <> id)) as [H1|H1].
  - rewrite !filter_cons. destruct (decide (book r = bid)); rewrite IH; reflexivity.
  - rewrite filter_cons. destruct (decide (book r = bid)) as [H2|H2]; [|exact IH].
    exfalso. apply H1. congruence.
Qed.

(** X5. Deleting a book: a missing book is answered 404 and a requester who
    is neither the book's owner nor an admin 403, both without any change;
    the owner or an admin gets 200, after which the book is gone, exactly
    the reviews of that book are gone too (the others stay, in their order),
    and the users, with whatever references to the book they hold, are
    untouched. *)
Theorem deleteBook_cascades (au : AuthUser) (id : ObjectId) (db : DB) :
  let res := deleteBook au id db in
  match books db !! id with
  | None => res = ({| status := 404; body := message "Book not found" |}, db)
  | Some b =>
      (~ owner_or_admin au (addedBy b) ->
         res = ({| status := 403;
                   body := message "Not authorized to delete this book" |}, db)) /\
      (owner_or_admin au (addedBy b) ->
         status (fst res) = 200 /\
         books (snd res) = delete id (books db) /\
         reviews (snd res) = filter (fun r => book r <> id) (reviews db) /\
         (forall r, r ∈ reviews (snd res) <-> r ∈ reviews db /\ book r <> id) /\
         (forall bid, bid <> id ->
            books (snd res) !! bid = books db !! bid /\
            match_book bid (reviews (snd res)) = match_book bid (reviews db)) /\
         users (snd res) = users db)
  end.
Proof.
  intros res. subst res. rewrite deleteBook_run.
  destruct (books db !! id) as [b|] eqn:Hb; [|reflexivity].
  destruct (negb _ && _) eqn:Hauth.
  - apply not_authorized_iff in Hauth. split; [reflexivity|contradiction].
  - split.
    + intros Hn. apply not_authorized_iff in Hn. congruence.
    + intros _. simpl. split; [reflexivity|]. split; [reflexivity|].
      split; [reflexivity|].
      split; [intros r; rewrite list_elem_of_filter; tauto|].
      split; [|reflexivity].
      intros bid Hne. split; [apply lookup_delete_ne; congruence|].
      apply match_book_cascade, Hne.
Qed.

(** X6. Deleting a book keeps the invariants of the database: every
    remaining review is of a book that exists, every book has the aggregate
    of its reviews, no (book, user) pair has two reviews, and reviewers have
    the book among the books read. *)
Theorem deleteBook_keeps_invariants (au : AuthUser) (id : ObjectId) (db : DB) :
  let db' := snd (deleteBook au id db) in
  (reviews_have_books db -> reviews_have_books db') /\
  (all_aggregates_hold db -> all_aggregates_hold db') /\
  (one_review_per_pair db -> one_review_per_pair db') /\
  (reviewed_is_read db -> reviewed_is_read db').
Proof.
  intros db'. subst db'. rewrite deleteBook_run.
  destruct (books db !! id) as [b|] eqn:Hb; [|tauto].
  destruct (negb _ && _); [tauto|]. simpl.
  split; [|split; [|split]].
  - intros H r Hr. simpl in *. apply list_elem_of_filter in Hr as [Hne Hr].
    rewrite lookup_delete_ne by congruence. apply H, Hr.
  - intros H bid c. simpl.
    destruct (decide (bid = id)) as [->|Hne]; [rewrite lookup_delete_eq; discriminate|].
    rewrite lookup_delete_ne by congruence.
    unfold ratings_of. simpl. rewrite match_book_cascade by exact Hne. apply H.
  - unfold one_review_per_pair. simpl. intros H.
    eapply sublist_NoDup; [exact H|]. apply fmap_sublist, sublist_filter.
  - intros H r u Hr Hu. simpl in *. apply list_elem_of_filter in Hr as [_ Hr]. eauto.
Qed.

End DeleteBook.

Section ReferenceInvariants.

Lemma elem_of_overwrite_inv {A} (l : list A) i x y :
  y ∈ <[i := x]> l -> y = x \/ y ∈ l.
Proof.
  intros Hin. apply list_elem_of_lookup in Hin as [j Hj].
  apply list_lookup_insert_Some in Hj as [(_ & -> & _)|[_ Hj]]; [auto|].
  right. apply list_elem_of_lookup. eauto.
Qed.

Lemma reviews_have_books_after_hook bid db db1 :
  books db1 = books db ->
  (forall r, r ∈ reviews db1 -> is_Some (books db !! book r)) ->
  reviews_have_books (recomputed bid db1).
Proof.
  intros Hb H r Hr. rewrite recomputed_reviews in Hr.
  apply recomputed_books_dom. rewrite Hb. apply H, Hr.
Qed.

Lemma reviews_have_books_inserted r db :
  is_Some (books db !! book r) ->
  reviews_have_books db -> reviews_have_books (inserted r db).
Proof.
  intros Hr H. unfold inserted.
  apply (reviews_have_books_after_hook _ db); [reflexivity|].
  intros x Hx. simpl in Hx. apply elem_of_app in Hx as [Hx|Hx]; [apply H, Hx|].
  apply list_elem_of_singleton in Hx. subst x. exact Hr.
Qed.

Lemma reviews_have_books_set_users f db :
  reviews_have_books db -> reviews_have_books (set_users f db).
Proof. intros H r Hr. apply H, Hr. Qed.

Lemma run_mutation_reviews_have_books m db :
  reviews_have_books db -> reviews_have_books (snd (run_mutation m db)).
Proof.
  intros H.
  destruct m as [au newId now bid req | au newId now bid req | au now id req | au id];
    simpl.
  - rewrite createReview_run. cbv zeta.
    destruct (review_errors req); [|exact H].
    destruct (books db !! bid) eqn:Hb; [|exact H].
    destruct (list_find _ (reviews db)); [exact H|].
    destruct (negb _ || duplicate_key _ (reviews db)); [exact H|].
    assert (reviews_have_books (inserted (new_review newId bid (au_id au) now req) db))
      as HI by (apply reviews_have_books_inserted; [simpl; rewrite Hb; eauto|exact H]).
    simpl. unfold after_creation.
    destruct (users db !! au_id au) as [u|]; simpl; [|exact HI].
    destruct (decide (bid ∈ booksRead u)); [exact HI|].
    apply reviews_have_books_set_users, HI.
  - rewrite createNestedReview_run. cbv zeta.
    destruct (review_errors req); [|exact H].
    destruct (books db !! bid) eqn:Hb; [|exact H].
    destruct (list_find _ (reviews db)); [exact H|].
    destruct (negb _ || duplicate_key _ (reviews db)); [exact H|].
    assert (reviews_have_books (inserted (new_review newId bid (au_id au) now req) db))
      as HI by (apply reviews_have_books_inserted; [simpl; rewrite Hb; eauto|exact H]).
    simpl. unfold after_creation. destruct (users db !! au_id au) as [u|]; [|exact HI].
    destruct (decide (bid ∈ booksRead u)); [exact HI|].
    apply reviews_have_books_set_users, HI.
  - rewrite updateReview_run. cbv zeta.
    destruct (update_errors req); [|exact H].
    destruct (find_review id (reviews db)) as [[i r]|] eqn:Hf; [|exact H].
    destruct (negb _); [exact H|].
    destruct (update_valid _); [|exact H]. simpl.
    apply (reviews_have_books_after_hook _ db); [reflexivity|].
    intros x Hx. simpl in Hx. apply elem_of_overwrite_inv in Hx as [->|Hx]; [|apply H, Hx].
    simpl. apply H. apply list_elem_of_lookup. eauto using find_review_lookup.
  - rewrite deleteReview_run.
    destruct (find_review id (reviews db)) as [[i r]|] eqn:Hf; [|exact H].
    destruct (negb _ && _); [exact H|]. simpl.
    apply (reviews_have_books_after_hook _ db); [reflexivity|].
    intros x Hx. simpl in Hx. apply H. eapply list_elem_of_delete_inv, Hx.
Qed.

Lemma reviewed_is_read_frame db db' :
  reviews db' = reviews db -> users db' = users db ->
  reviewed_is_read db -> reviewed_is_read db'.
Proof. unfold reviewed_is_read. intros -> ->. auto. Qed.

Lemma reviewed_is_read_recomputed bid db :
  reviewed_is_read db -> reviewed_is_read (recomputed bid db).
Proof.
  apply reviewed_is_read_frame; [apply recomputed_reviews|apply recomputed_users].
Qed.

(** The database after a creation that got as far as the insert. *)
Lemma reviewed_is_read_created newId bid uid now req db :
  reviewed_is_read db ->
  reviewed_is_read
    (match users db !! uid with
     | Some u =>
         if decide (bid ∈ booksRead u) then inserted (new_review newId bid uid now req) db
         else set_users (insert uid (push_booksRead bid u))
                (inserted (new_review newId bid uid now req) db)
     | None => inserted (new_review newId bid uid now req) db
     end).
Proof.
  intros H.
  assert (forall us : gmap N User,
    (forall k u0, users db !! k = Some u0 ->
       exists u1, us !! k = Some u1 /\ forall b, b ∈ booksRead u0 -> b ∈ booksRead u1) ->
    (forall k u1, us !! k = Some u1 -> is_Some (users db !! k)) ->
    (forall u1, us !! uid = Some u1 -> bid ∈ booksRead u1) ->
    reviewed_is_read
      (set_users (fun _ => us) (inserted (new_review newId bid uid now req) db))) as Hgen.
  { intros us Hgrow Hdom Hnew r u Hr Hu. simpl in Hr, Hu.
    rewrite inserted_reviews in Hr. apply elem_of_app in Hr as [Hr|Hr].
    - destruct (Hdom _ _ Hu) as [u0 Hu0].
      destruct (Hgrow _ _ Hu0) as (u1 & Hu1 & Hsub).
      rewrite Hu in Hu1. injection Hu1 as <-. apply Hsub. eapply H; eauto.
    - apply list_elem_of_singleton in Hr. subst r. simpl in *. apply Hnew, Hu. }
  destruct (users db !! uid) as [u|] eqn:Hu.
  - destruct (decide (bid ∈ booksRead u)) as [Hin|Hnot].
    + eapply reviewed_is_read_frame; [| |apply (Hgen (users db))]; try reflexivity.
      * simpl. rewrite inserted_users. reflexivity.
      * eauto.
      * eauto.
      * intros u1 Hu1. congruence.
    + eapply reviewed_is_read_frame; [| |apply (Hgen (<[uid := push_booksRead bid u]> (users db)))];
        try reflexivity.
      * simpl. rewrite inserted_users. reflexivity.
      * intros k u0 Hk. rewrite lookup_insert. case_decide.
        -- subst k. rewrite Hu in Hk. injection Hk as <-. eexists. split; [reflexivity|].
           intros b Hb. simpl. apply elem_of_app. auto.
        -- eauto.
      * intros k u1. rewrite lookup_insert. case_decide; [subst; eauto|eauto].
      * intros u1. rewrite lookup_insert_eq. intros [= <-]. simpl.
        apply elem_of_app. right. apply list_elem_of_here.
  - eapply reviewed_is_read_frame; [| |apply (Hgen (users db))]; try reflexivity.
    + simpl. rewrite inserted_users. reflexivity.
    + eauto.
    + eauto.
    + intros u1 Hu1. congruence.
Qed.

Lemma run_mutation_reviewed_is_read m db :
  reviewed_is_read db -> reviewed_is_read (snd (run_mutation m db)).
Proof.
  intros H.
  destruct m as [au newId now bid req | au newId now bid req | au now id req | au id];
    simpl.
  - rewrite createReview_run. cbv zeta.
    destruct (review_errors req); [|exact H].
    destruct (books db !! bid) eqn:Hb; [|exact H].
    destruct (list_find _ (reviews db)); [exact H|].
    destruct (negb _ || duplicate_key _ (reviews db)); [exact H|].
    exact (reviewed_is_read_created newId bid (au_id au) now req db H).
  - rewrite createNestedReview_run. cbv zeta.
    destruct (review_errors req); [|exact H].
    destruct (books db !! bid) eqn:Hb; [|exact H].
    destruct (list_find _ (reviews db)); [exact H|].
    destruct (negb _ || duplicate_key _ (reviews db)); [exact H|].
    exact (reviewed_is_read_created newId bid (au_id au) now req db H).
  - rewrite updateReview_run. cbv zeta.
    destruct (update_errors req); [|exact H].
    destruct (find_review id (reviews db)) as [[i r]|] eqn:Hf; [|exact H].
    destruct (negb _); [exact H|].
    destruct (update_valid _); [|exact H]. simpl.
    apply reviewed_is_read_recomputed. intros x u Hx Hu. simpl in Hx, Hu.
    apply elem_of_overwrite_inv in Hx as [->|Hx]; [|eauto].
    simpl in *. eapply H; [|exact Hu].
    apply list_elem_of_lookup. eauto using find_review_lookup.
  - rewrite deleteReview_run.
    destruct (find_review id (reviews db)) as [[i r]|] eqn:Hf; [|exact H].
    destruct (negb _ && _); [exact H|]. simpl.
    apply reviewed_is_read_recomputed. intros x u Hx Hu. simpl in Hx, Hu.
    eapply H; [|exact Hu]. eapply list_elem_of_delete_inv, Hx.
Qed.

(** X7. Whatever a review creation (either route), update or deletion
    answers, afterwards every review is still of an existing book, and
    every reviewer still has the reviewed book among the books read. *)
Theorem review_mutations_keep_references (m : ReviewMutation) (db : DB) :
  (reviews_have_books db -> reviews_have_books (snd (run_mutation m db))) /\
  (reviewed_is_read db -> reviewed_is_read (snd (run_mutation m db))).
Proof.
  split;
    [apply run_mutation_reviews_have_books | apply run_mutation_reviewed_is_read].
Qed.

End ReferenceInvariants.

Section EditAndDelete.


(** X9. Deleting a review: a missing review is answered 404, and a requester
    who is neither its author nor an admin 403, both without any change;
    the author or an admin is answered 200, and then exactly that review is
    removed, the others stay as and where they were, one review fewer is
    stored, no user changes, and with distinct review ids no review with
    that id is left. *)
Theorem deleteReview_removes_one (au : AuthUser) (id : ObjectId) (db : DB) :
  let res := deleteReview au id db in
  match find_review id (reviews db) with
  | None => res = ({| status := 404; body := message "Review not found" |}, db)
  | Some (i, r) =>
      (~ owner_or_admin au (user r) ->
         res = ({| status := 403;
                   body := message "Not authorized to delete this review" |}, db)) /\
      (owner_or_admin au (user r) ->
         status (fst res) = 200 /\
         reviews (snd res) = delete i (reviews db) /\
         S (length (reviews (snd res))) = length (reviews db) /\
         reviews db ≡ₚ r :: reviews (snd res) /\
         users (snd res) = users db /\
         (NoDup (r_id <$> reviews db) -> find_review id (reviews (snd res)) = None))
  end.
Proof.
  intros res. subst res. rewrite deleteReview_run.
  destruct (find_review id (reviews db)) as [[i r]|] eqn:Hf; [|reflexivity].
  pose proof (find_review_lookup _ _ _ _ Hf) as Hi.
  pose proof (find_review_id _ _ _ _ Hf) as Hid.
  destruct (negb _ && _) eqn:Hauth.
  - apply not_authorized_iff in Hauth. split; [reflexivity|contradiction].
  - split.
    + intros Hn. apply not_authorized_iff in Hn. congruence.
    + intros _. simpl. rewrite recomputed_reviews, recomputed_users. simpl.
      split; [reflexivity|]. split; [reflexivity|].
      split; [rewrite length_delete by eauto; apply lookup_lt_Some in Hi; lia|].
      split; [apply delete_Permutation, Hi|]. split; [reflexivity|].
      intros Hnd. unfold find_review. apply list_find_None, Forall_forall.
      intros x Hx Hxid.
      assert ((r_id <$> reviews db) !! i = Some id) as Hi'
        by (rewrite list_lookup_fmap, Hi; simpl; congruence).
      destruct (NoDup_delete_absent _ _ _ Hi' Hnd) as [Hout _].
      apply Hout. rewrite <- list_fmap_delete.
      apply list_elem_of_fmap. eauto.
Qed.

End EditAndDelete.

Section FollowInvariants.

Lemma NoDup_push (x : ObjectId) (l : list ObjectId) : x ∉ l -> NoDup l -> NoDup (l ++ [x]).
Proof.
  intros Hnot Hnd. apply NoDup_app. split; [exact Hnd|]. split; [|apply NoDup_singleton].
  intros y Hy Hy'. apply list_elem_of_singleton in Hy'. subst y. auto.
Qed.

(** X10. On a request whose path holds the target's id as [toString()]
    writes it, the follow route keeps the follow lists sound whatever it
    answers: they stay mirrored and free of duplicates, and nobody comes to
    follow themselves; and when the target user does not exist it answers 404
    and changes nothing.  The spelling matters: after a request of an
    existing user whose path holds the own id in another spelling, the lists
    are not sound, for the requester follows themselves. *)
Theorem follow_keeps_lists_sound (au : AuthUser) (id : ObjectId) (db : DB) :
  (id <> au_id au -> users db !! id = None ->
     follow au id db = ({| status := 404; body := message "User not found" |}, db)) /\
  (social_sound db -> social_sound (snd (follow au id db))) /\
  (is_Some (users db !! au_id au) ->
     ~ social_sound (snd (followUser au (Variant (au_id au)) db))).
Proof.
  split; [|split].
  3:{ intros [u Hu] [_ Hs]. rewrite (followUser_own_variant au db u Hu) in Hs.
      destruct (Hs (au_id au) _ (lookup_insert_eq _ _ _)) as (_ & _ & Hnot & _).
      apply Hnot. simpl. apply elem_of_app. right. apply list_elem_of_here. }
  - intros Hne Hnone. rewrite follow_run.
    destruct (N.eqb_spec id (au_id au)); [contradiction|]. rewrite Hnone. reflexivity.
  - intros [Hm Hs].
    destruct (N.eqb_spec id (au_id au)) as [Heq|Hne].
    { rewrite follow_run. subst id. rewrite N.eqb_refl. split; assumption. }
    destruct (users db !! id) as [target|] eqn:Ht.
    2:{ rewrite follow_run. destruct (N.eqb_spec id (au_id au)); [contradiction|].
        rewrite Ht. split; assumption. }
    destruct (users db !! au_id au) as [current|] eqn:Hc.
    2:{ rewrite follow_run. destruct (N.eqb_spec id (au_id au)); [contradiction|].
        rewrite Ht, Hc. split; assumption. }
    assert (au_id au <> id) as Hne' by congruence.
    split; [eapply follow_mirrored; eauto|].
    destruct (follow_between au id db current target Hne' Hc Ht) as [_ ->].
    intros a u. simpl. rewrite !lookup_insert.
    destruct (Hs _ _ Hc) as (Hc1 & Hc2 & Hc3 & Hc4).
    destruct (Hs _ _ Ht) as (Ht1 & Ht2 & Ht3 & Ht4).
    pose proof (Hm _ _ _ _ Hc Ht) as Hmir.
    pose proof (toggled_current_rest id current) as Hcr.
    pose proof (toggled_target_rest (au_id au) id current target) as Htr.
    injection Hcr as _ _ _ _ _ Hcf _. injection Htr as _ _ _ _ _ Htf _.
    repeat case_decide; subst; try congruence.
    + intros [= <-]. rewrite Htf.
      split; [exact Ht1|]. split; [|split; [exact Ht3|]].
      * rewrite toggled_target_followers. destruct (decide _).
        -- apply NoDup_filter, Ht2.
        -- apply NoDup_push; [tauto|exact Ht2].
      * rewrite elem_of_toggled_followers. destruct (decide _); tauto.
    + intros [= <-]. rewrite Hcf.
      split; [|split; [exact Hc2|split; [|exact Hc4]]].
      * rewrite toggled_current_following. destruct (decide _).
        -- apply NoDup_filter, Hc1.
        -- apply NoDup_push; assumption.
      * rewrite elem_of_toggled_following.
        destruct (decide (au_id au = id)); [congruence|exact Hc3].
    + apply Hs.
Qed.

Lemma is_populated_follower a ids db :
  existsb (fun follower : ObjectId * User => N.eqb (fst follower) a) (populate_users ids db)
    = true
  <-> a ∈ ids /\ is_Some (users db !! a).
Proof.
  rewrite existsb_exists. unfold populate_users. split.
  - intros [[k u] [Hin Hk]]. apply N.eqb_eq in Hk. simpl in Hk. subst k.
    apply list_elem_of_In, list_elem_of_omap in Hin as (j & Hj & Hf).
    destruct (users db !! j) as [uj|] eqn:E; [|discriminate].
    simpl in Hf. injection Hf as -> ->. rewrite E. eauto.
  - intros [Hin [u Hu]]. exists (a, u). split; [|apply N.eqb_refl].
    apply list_elem_of_In, list_elem_of_omap. exists a. rewrite Hu. auto.
Qed.

Lemma populated_users_json_Some (paths : list string) (l : list (ObjectId * User)) js :
  isIn "booksRead" paths = false ->
  mapM (fun d => populated_user_json (including paths) (fst d) (snd d)) l = Some js ->
  l = [].
Proof.
  intros Hp H. destruct l as [|d l]; [reflexivity|]. simpl in H.
  rewrite populated_user_json_throws in H by exact Hp. discriminate H.
Qed.

Lemma recent_reviews_json_Some db (l : list Review) js :
  mapM (recent_review_json db) l = Some js -> l = [].
Proof. intros H. destruct l as [|r l]; [reflexivity|]. discriminate H. Qed.

Lemma getProfile_run requester id db :
  getProfile requester id db =
    match users db !! id with
    | None => ({| status := 404; body := message "User not found" |}, db)
    | Some u =>
        let recent :=
          take 5 (merge_sort newest_first (filter (fun r => user r = id) (reviews db))) in
        (match user_json id u db, mapM (recent_review_json db) recent with
         | Some userJ, Some recentJ =>
             {| status := 200;
                body := JObj [("user"%string, userJ);
                              ("recentReviews"%string, JArr recentJ);
                              ("stats"%string, stats_json (profile_stats id u db));
                              ("isFollowing"%string,
                               JBool (profile_isFollowing requester u db))] |}
         | _, _ => server_error "Server error while fetching user profile"
         end, db)
    end.
Proof.
  unfold getProfile, try_catch, bind, User_findById, read.
  destruct (users db !! id) as [u|]; [|reflexivity]. cbv zeta.
  destruct (user_json id u db) as [userJ|]; [|reflexivity]. simpl.
  destruct (mapM (recent_review_json db) _) as [recentJ|]; reflexivity.
Qed.

Lemma populate_users_nil ids db :
  populate_users ids db = [] <-> forall a, a ∈ ids -> users db !! a = None.
Proof.
  unfold populate_users. split.
  - intros H a Ha. destruct (users db !! a) as [u|] eqn:E; [|reflexivity].
    assert ((a, u) ∈ omap (fun i => (fun u => (i, u)) <$> users db !! i) ids) as Hin.
    { apply list_elem_of_omap. exists a. rewrite E. auto. }
    rewrite H in Hin. apply elem_of_nil in Hin. contradiction.
  - intros H. induction ids as [|a ids IH]; [reflexivity|]. simpl.
    rewrite (H a) by apply list_elem_of_here. simpl.
    apply IH. intros b Hb. apply H, list_elem_of_further, Hb.
Qed.

(** X11. The profile route changes nothing, and it answers 200 only for a
    user none of whose followers and followings has a user document and who
    has no review; [isFollowing] is [false] in every such answer.  So for
    distinct existing users, once a follow request has been answered with
    [isFollowing: true], the profile of the followed user is answered 500,
    to the follower and to everybody else. *)
Theorem profile_fails_after_follow
    (au : AuthUser) (id : ObjectId) (db : DB) (current target : User) :
  au_id au <> id ->
  users db !! au_id au = Some current ->
  users db !! id = Some target ->
  (forall requester,
     snd (getProfile requester id db) = db /\
     (status (fst (getProfile requester id db)) = 200 ->
        (forall a, a ∈ followers target \/ a ∈ following target -> users db !! a = None) /\
        (forall r, r ∈ reviews db -> user r <> id) /\
        json_get "isFollowing" (body (fst (getProfile requester id db)))
          = Some (JBool false))) /\
  (json_get "isFollowing" (body (fst (follow au id db))) = Some (JBool true) ->
   forall requester,
     fst (getProfile requester id (snd (follow au id db))) =
       server_error "Server error while fetching user profile").
Proof.
  intros Hne Hc Ht. split.
  - intros requester. rewrite getProfile_run, Ht. cbv zeta. simpl.
    split; [reflexivity|].
    destruct (user_json id target db) as [userJ|] eqn:EU; [|discriminate].
    destruct (mapM (recent_review_json db) _) as [recentJ|] eqn:ER; [|discriminate].
    intros _. unfold user_json in EU. cbv zeta in EU.
    destruct (mapM _ (populate_users (followers target) db)) as [fJ|] eqn:E1;
      [|discriminate]. simpl in EU.
    destruct (mapM _ (populate_users (following target) db)) as [gJ|] eqn:E2;
      [|discriminate].
    apply populated_users_json_Some in E1; [|reflexivity].
    apply populated_users_json_Some in E2; [|reflexivity].
    apply recent_reviews_json_Some in ER.
    split; [|split].
    + intros a [Ha|Ha]; [eapply populate_users_nil in E1|eapply populate_users_nil in E2];
        eauto.
    + intros r Hr Hu.
      assert (r ∈ merge_sort newest_first (filter (fun r => user r = id) (reviews db)))
        as Hin by (rewrite merge_sort_Permutation; apply list_elem_of_filter; auto).
      destruct (merge_sort newest_first _) as [|x l]; [apply elem_of_nil in Hin; auto|].
      discriminate ER.
    + simpl. unfold profile_isFollowing. rewrite E1. destruct requester; reflexivity.
  - intros Hfollowed requester.
    destruct (follow_between au id db current target Hne Hc Ht) as [_ Hdb1].
    rewrite Hdb1. set (db1 := set_users _ db).
    assert (users db1 !! id = Some (toggled_target (au_id au) id current target)) as Ht1
      by (subst db1; simpl; apply lookup_insert_eq).
    assert (is_Some (users db1 !! au_id au)) as Hc1.
    { subst db1. simpl. rewrite lookup_insert_ne by congruence.
      rewrite lookup_insert_eq. eauto. }
    assert (id ∉ following current) as Hnot.
    { rewrite follow_run in Hfollowed.
      destruct (N.eqb_spec id (au_id au)); [congruence|].
      rewrite Ht, Hc in Hfollowed. cbv zeta in Hfollowed. simpl in Hfollowed.
      intros Hin. rewrite (bool_decide_eq_true_2 _ Hin) in Hfollowed.
      discriminate Hfollowed. }
    rewrite getProfile_run, Ht1. cbv zeta. simpl.
    destruct (user_json id _ db1) as [userJ|] eqn:EU; [|reflexivity]. exfalso.
    unfold user_json in EU. cbv zeta in EU.
    destruct (mapM _ (populate_users (followers _) db1)) as [fJ|] eqn:E1;
      [|discriminate].
    apply populated_users_json_Some in E1; [|reflexivity].
    destruct Hc1 as [c1 Hc1].
    pose proof (proj1 (populate_users_nil _ _) E1 (au_id au)) as Habs.
    rewrite Hc1 in Habs. discriminate Habs.
    apply elem_of_toggled_followers. destruct (decide _); [contradiction|]. auto.
Qed.

End FollowInvariants.

Section VotesLeaveRatings.

Lemma ratings_overwrite_same bid (rs : list Review) i r r' :
  rs !! i = Some r -> book r' = book r -> rating r' = rating r ->
  map rating (match_book bid (<[i := r']> rs)) = map rating (match_book bid rs).
Proof.
  unfold match_book. revert i. induction rs as [|x rs IH]; intros [|i] Hi Hb Hr;
    simpl in *; try discriminate.
  - injection Hi as ->. rewrite !filter_cons. rewrite Hb.
    destruct (decide (book r = bid)); simpl; congruence.
  - rewrite !filter_cons. destruct (decide (book x = bid)); simpl;
      rewrite (IH i Hi Hb Hr); reflexivity.
Qed.

Lemma rated_fixed bid (this : Book) db :
  averageRating this = fst (aggregate_of (ratings_of bid db)) ->
  ratingsCount this = snd (aggregate_of (ratings_of bid db)) ->
  rated this (aggregate_stats bid db) = this.
Proof.
  intros Ha Hc. destruct (rated_aggregate bid this db) as [Ha' Hc'].
  rewrite <- Ha in Ha'. rewrite <- Hc in Hc'. clear Ha Hc.
  destruct this. unfold rated in *.
  destruct (aggregate_stats bid db); simpl in *; rewrite Ha', Hc'; reflexivity.
Qed.

(** The save of a review whose book and rating are as before, on a database
    whose books have their aggregates, leaves the books as they are. *)
Lemma resave_keeps_books i r r' db :
  reviews db !! i = Some r -> book r' = book r -> rating r' = rating r ->
  all_aggregates_hold db ->
  books (recomputed (book r) (set_reviews (fun rs => <[i := r']> rs) db)) = books db /\
  forall bid,
    ratings_of bid (recomputed (book r) (set_reviews (fun rs => <[i := r']> rs) db))
      = ratings_of bid db.
Proof.
  intros Hi Hb Hr Hall.
  assert (forall bid, ratings_of bid (set_reviews (fun rs => <[i := r']> rs) db)
                      = ratings_of bid db) as Hsame.
  { intros bid. unfold ratings_of. simpl. eapply ratings_overwrite_same; eauto. }
  split.
  - unfold recomputed. simpl.
    destruct (books db !! book r) as [this|] eqn:Hthis; [|reflexivity].
    unfold updateAverageRating. simpl. apply insert_id. rewrite Hthis. f_equal.
    destruct (Hall _ _ Hthis) as [Ha Hc].
    assert (aggregate_stats (book r) (set_reviews (fun rs => <[i := r']> rs) db)
            = aggregate_stats (book r) db) as ->.
    { rewrite !aggregate_stats_ratings, Hsame. reflexivity. }
    symmetry. apply rated_fixed; assumption.
  - intros bid. unfold ratings_of. rewrite recomputed_reviews. apply Hsame.
Qed.

(** X12. Votes and likes do not rate: on a database whose books have their
    aggregates, a helpful vote or a like, whatever it answers, leaves every
    book document, every book's list of ratings and every user as they
    were. *)
Theorem votes_and_likes_leave_books
    (au : AuthUser) (id : ObjectId) (b : bool) (db : DB) :
  all_aggregates_hold db ->
  (books (snd (markHelpful au id b db)) = books db /\
   users (snd (markHelpful au id b db)) = users db /\
   forall bid, ratings_of bid (snd (markHelpful au id b db)) = ratings_of bid db) /\
  (books (snd (likeReview au id db)) = books db /\
   users (snd (likeReview au id db)) = users db /\
   forall bid, ratings_of bid (snd (likeReview au id db)) = ratings_of bid db).
Proof.
  intros Hall. rewrite markHelpful_run, likeReview_run.
  destruct (find_review id (reviews db)) as [[i r]|] eqn:Hf; [|auto].
  pose proof (find_review_lookup _ _ _ _ Hf) as Hi. cbv zeta. simpl.
  rewrite !recomputed_users. simpl. split.
  - destruct (resave_keeps_books i r
                (set_helpful (cast_vote (au_id au) b (helpful r)) r) db Hi
                eq_refl eq_refl Hall) as [H1 H2]. auto.
  - destruct (resave_keeps_books i r
                (set_likes (toggle_like (au_id au) (likes r)) r) db Hi
                eq_refl eq_refl Hall) as [H1 H2]. auto.
Qed.

End VotesLeaveRatings.

Section ReadingDuration.

(** X14. The reading duration is missing when either date is, and otherwise
    is the number of whole days that cover the time from start to end: the
    least [d] with [d] days at least that time.  So equal dates give 0,
    anything up to one day gives 1, and an end before the start gives no
    positive number. *)
Theorem readingDuration_whole_days (start finish : option Z) :
  let day := 1000 * 3600 * 24 in
  match start, finish with
  | Some s, Some e =>
      exists d, readingDuration start finish = Some d /\
        (d - 1) * day < e - s <= d * day /\
        (e = s -> d = 0) /\
        (0 < e - s <= day -> d = 1) /\
        (e < s -> d <= 0)
  | _, _ => readingDuration start finish = None
  end.
Proof.
  intros day. destruct start as [s|], finish as [e|]; try reflexivity.
  eexists. split; [reflexivity|].
  pose proof (Math_ceil_div (e - s) day ltac:(subst day; lia)) as H.
  fold day. set (d := Math_ceil _) in *. subst day.
  split; [exact H|]. split; [|split]; intros; nia.
Qed.

End ReadingDuration.

Section Featured.

Lemma toggleFeatured_run id db :
  toggleFeatured id db =
    match books db !! id with
    | None => ({| status := 404; body := message "Book not found" |}, db)
    | Some b =>
      let b' := set_featured (negb (featured b)) b in
      ({| status := 200;
          body :=
            JObj [("message"%string,
                   JStr (if featured b' then "Book featured successfully"
                         else "Book unfeatured successfully"));
                  ("book"%string, book_json (id, b'))] |},
       set_books (insert id b') db)
    end.
Proof.
  unfold toggleFeatured, try_catch, bind, Book_findById, read, write, send.
  destruct (books db !! id); reflexivity.
Qed.

(** X15. Toggling the featured flag of an existing book answers 200 and
    flips the flag of that book only: its other fields, among them the
    rating aggregate, the other books, the reviews and the users are as
    before, and a second toggle gives back the very database.  For a missing
    book the answer is 404 and nothing changes. *)
Theorem toggleFeatured_flips (id : ObjectId) (db : DB) :
  match books db !! id with
  | None =>
      toggleFeatured id db = ({| status := 404; body := message "Book not found" |}, db)
  | Some b =>
      status (fst (toggleFeatured id db)) = 200 /\
      exists b',
        snd (toggleFeatured id db) = set_books (insert id b') db /\
        featured b' = negb (featured b) /\
        (title b', author b', genre b', publishedDate b', pageCount b',
         averageRating b', ratingsCount b', addedBy b', b_createdAt b') =
        (title b, author b, genre b, publishedDate b, pageCount b,
         averageRating b, ratingsCount b, addedBy b, b_createdAt b) /\
        (all_aggregates_hold db -> all_aggregates_hold (snd (toggleFeatured id db))) /\
        snd (toggleFeatured id (snd (toggleFeatured id db))) = db
  end.
Proof.
  rewrite toggleFeatured_run.
  destruct (books db !! id) as [b|] eqn:Hb; [|reflexivity]. cbv zeta. simpl.
  split; [reflexivity|]. eexists. split; [reflexivity|]. simpl.
  split; [reflexivity|]. split; [reflexivity|]. split.
  - intros Hall bid c. simpl. rewrite lookup_insert. case_decide; [|apply Hall].
    subst bid. intros [= <-]. simpl. apply (Hall id b Hb).
  - rewrite toggleFeatured_run. simpl. rewrite lookup_insert_eq. cbv zeta. simpl.
    rewrite negb_involutive.
    destruct db as [bs rs us]. unfold set_books. simpl in *. f_equal.
    rewrite insert_insert_eq. apply insert_id. rewrite Hb. destruct b; reflexivity.
Qed.

(** The first [n] of the documents of a collection that pass a filter, in
    the order of a total, transitive sort relation. *)
Lemma top_of_collection {A} (R : relation (ObjectId * A))
    `{forall x y, Decision (R x y)} `{!Total R} `{!Transitive R}
    (P : ObjectId * A -> Prop) `{forall x, Decision (P x)} (n : nat) (m : gmap N A) :
  let result := take n (merge_sort R (filter P (map_to_list m))) in
  (forall i a, (i, a) ∈ result -> m !! i = Some a /\ P (i, a)) /\
  NoDup (fst <$> result) /\
  StronglySorted R result /\
  length result = Nat.min n (length (filter P (map_to_list m))) /\
  ((length (filter P (map_to_list m)) <= n)%nat ->
   forall i a, m !! i = Some a -> P (i, a) -> (i, a) ∈ result).
Proof.
  intros result. subst result.
  set (pool := filter P (map_to_list m)).
  assert (merge_sort R pool ≡ₚ pool) as Hperm by apply merge_sort_Permutation.
  split; [|split; [|split; [|split]]].
  - intros i a Hin. apply subseteq_take in Hin. rewrite Hperm in Hin.
    subst pool. apply list_elem_of_filter in Hin as [HP Hin].
    apply elem_of_map_to_list in Hin. auto.
  - rewrite fmap_take. eapply sublist_NoDup; [|apply sublist_take].
    rewrite Hperm. subst pool.
    apply (sublist_NoDup _ (fst <$> map_to_list m));
      [apply NoDup_fst_map_to_list | apply fmap_sublist, sublist_filter].
  - apply StronglySorted_take, StronglySorted_merge_sort; apply _.
  - rewrite length_take, Hperm. reflexivity.
  - intros Hle i a Hi HP. rewrite take_ge by (rewrite Hperm; exact Hle).
    rewrite Hperm. subst pool. apply list_elem_of_filter. split; [exact HP|].
    apply elem_of_map_to_list, Hi.
Qed.

#[local] Instance by_rating_then_newest_total : Total by_rating_then_newest.
Proof.
  intros x y. unfold by_rating_then_newest.
  destruct (Qcompare_spec (averageRating (snd x)) (averageRating (snd y))) as [H1|H1|H1];
    destruct (Qcompare_spec (averageRating (snd y)) (averageRating (snd x))) as [H2|H2|H2];
    try tauto; try lia; exfalso; try rewrite H1 in *; try rewrite H2 in *; lra.
Qed.

#[local] Instance by_rating_then_newest_trans : Transitive by_rating_then_newest.
Proof.
  intros x y z. unfold by_rating_then_newest.
  destruct (Qcompare_spec (averageRating (snd x)) (averageRating (snd y))) as [H1|H1|H1];
    destruct (Qcompare_spec (averageRating (snd y)) (averageRating (snd z))) as [H2|H2|H2];
    destruct (Qcompare_spec (averageRating (snd x)) (averageRating (snd z))) as [H3|H3|H3];
    try tauto; try lia; intros _ _; exfalso;
    rewrite ?H1, ?H2 in *; try rewrite <- H2 in *; lra.
Qed.

#[local] Existing Instance by_rating_desc_total.
#[local] Existing Instance by_rating_desc_trans.

Lemma by_rating_then_newest_alt x y :
  by_rating_then_newest x y <-> rating_then_newest_desc x y.
Proof.
  unfold by_rating_then_newest, rating_then_newest_desc.
  destruct (Qcompare_spec (averageRating (snd x)) (averageRating (snd y))) as [H|H|H].
  - split; [auto|]. intros [Hlt|[_ Hle]]; [|exact Hle]. rewrite H in Hlt. lra.
  - split; [tauto|]. intros [Hlt|[Heq _]]; [lra|]. rewrite Heq in H. lra.
  - split; auto.
Qed.

Lemma featuredBooks_run db :
  featuredBooks db =
    (match mapM (listed_book_json db) (featured_books db) with
     | Some l => {| status := 200; body := JObj [("books"%string, JArr l)] |}
     | None => server_error "Server error while fetching featured books"
     end, db).
Proof.
  unfold featuredBooks, try_catch, bind, read.
  destruct (mapM (listed_book_json db) (featured_books db)); reflexivity.
Qed.

(** X16. The query of the featured list selects only existing books whose
    [featured] flag is set, none twice, ordered by descending average rating
    and then newest first, at most 8 and as many as are featured up to 8, so
    all of them when no more than 8 are featured.  The route changes
    nothing; it answers 200 with these books, [null] for the owner of each,
    when none of them has an owner with a user document, and 500
    otherwise. *)
Theorem featuredBooks_spec (db : DB) :
  (Forall (ownerless db) (featured_books db) ->
   featuredBooks db =
     ({| status := 200;
         body := JObj [("books"%string,
                        JArr (map (book_json_with JNull) (featured_books db)))] |}, db)) /\
  (~ Forall (ownerless db) (featured_books db) ->
   featuredBooks db = (server_error "Server error while fetching featured books", db)) /\
  (forall i b, (i, b) ∈ featured_books db -> books db !! i = Some b /\ featured b = true) /\
  NoDup (fst <$> featured_books db) /\
  StronglySorted rating_then_newest_desc (featured_books db) /\
  (length (featured_books db) <= 8)%nat /\
  (forall pool : list (ObjectId * Book),
     NoDup pool ->
     (forall i b, (i, b) ∈ pool <-> books db !! i = Some b /\ featured b = true) ->
     length (featured_books db) = Nat.min 8 (length pool) /\
     ((length pool <= 8)%nat -> forall d, d ∈ pool -> d ∈ featured_books db)).
Proof.
  destruct (top_of_collection by_rating_then_newest
              (fun doc => featured (snd doc) = true) 8 (books db))
    as (Hin & Hnd & Hsort & Hlen & Hall).
  fold (featured_books db) in *.
  split; [|split].
  { intros HF. rewrite featuredBooks_run.
    destruct (listed_books_cases db (featured_books db)) as [[_ ->]|[HF' _]];
      [reflexivity|contradiction]. }
  { intros HF. rewrite featuredBooks_run.
    destruct (listed_books_cases db (featured_books db)) as [[HF' _]|[_ ->]];
      [contradiction|reflexivity]. }
  split; [exact Hin|]. split; [exact Hnd|].
  split; [eapply StronglySorted_impl; [|exact Hsort];
          intros x y; apply by_rating_then_newest_alt|].
  split; [rewrite Hlen; lia|].
  intros pool Hpnd Hpool.
  assert (pool ≡ₚ filter (fun doc : ObjectId * Book => featured (snd doc) = true)
                    (map_to_list (books db))) as Hperm.
  { apply NoDup_Permutation; [exact Hpnd|apply NoDup_filter, NoDup_map_to_list|].
    intros [i b]. rewrite Hpool, list_elem_of_filter, elem_of_map_to_list. simpl. tauto. }
  split; [rewrite Hlen, Hperm; reflexivity|].
  intros Hle [i b] Hd. apply Hpool in Hd as [Hb Hf].
  apply Hall; [rewrite <- Hperm; exact Hle|exact Hb|exact Hf].
Qed.

Lemma is_trending_spec oneMonthAgo i b :
  is_trending oneMonthAgo (i, b) = true <->
    oneMonthAgo <= b_createdAt b /\ (4 <= averageRating b)%Q /\ 3 <= ratingsCount b.
Proof.
  unfold is_trending. simpl.
  rewrite !andb_true_iff, Qle_bool_iff, !Z.leb_le. tauto.
Qed.

Lemma trendingBooks_run oneMonthAgo db :
  trendingBooks oneMonthAgo db =
    (match mapM (listed_book_json db) (trending_books oneMonthAgo db) with
     | Some l => {| status := 200; body := JObj [("books"%string, JArr l)] |}
     | None => server_error "Server error while fetching trending books"
     end, db).
Proof.
  unfold trendingBooks, try_catch, bind, read.
  destruct (mapM (listed_book_json db) (trending_books oneMonthAgo db)); reflexivity.
Qed.

(** X17. The query of the trending list selects only existing books created
    since [oneMonthAgo] with an average rating of at least 4 and at least 3
    ratings, none twice, ordered by descending average rating and then
    descending ratings count, at most 10 and as many as qualify up to 10.
    The route changes nothing; it answers 200 with these books, [null] for
    the owner of each, when none of them has an owner with a user document,
    and 500 otherwise. *)
Theorem trendingBooks_spec (oneMonthAgo : Z) (db : DB) :
  (Forall (ownerless db) (trending_books oneMonthAgo db) ->
   trendingBooks oneMonthAgo db =
     ({| status := 200;
         body := JObj [("books"%string,
                        JArr (map (book_json_with JNull)
                                (trending_books oneMonthAgo db)))] |}, db)) /\
  (~ Forall (ownerless db) (trending_books oneMonthAgo db) ->
   trendingBooks oneMonthAgo db =
     (server_error "Server error while fetching trending books", db)) /\
  (forall i b, (i, b) ∈ trending_books oneMonthAgo db ->
     books db !! i = Some b /\
     oneMonthAgo <= b_createdAt b /\ (4 <= averageRating b)%Q /\ 3 <= ratingsCount b) /\
  NoDup (fst <$> trending_books oneMonthAgo db) /\
  StronglySorted rating_then_count_desc (trending_books oneMonthAgo db) /\
  (length (trending_books oneMonthAgo db) <= 10)%nat /\
  (forall pool : list (ObjectId * Book),
     NoDup pool ->
     (forall i b, (i, b) ∈ pool <->
        books db !! i = Some b /\
        oneMonthAgo <= b_createdAt b /\ (4 <= averageRating b)%Q /\ 3 <= ratingsCount b) ->
     length (trending_books oneMonthAgo db) = Nat.min 10 (length pool)).
Proof.
  destruct (top_of_collection by_rating_desc
              (fun doc => is_trending oneMonthAgo doc = true) 10 (books db))
    as (Hin & Hnd & Hsort & Hlen & _).
  fold (trending_books oneMonthAgo db) in *.
  split; [|split].
  { intros HF. rewrite trendingBooks_run.
    destruct (listed_books_cases db (trending_books oneMonthAgo db)) as [[_ ->]|[HF' _]];
      [reflexivity|contradiction]. }
  { intros HF. rewrite trendingBooks_run.
    destruct (listed_books_cases db (trending_books oneMonthAgo db)) as [[HF' _]|[_ ->]];
      [contradiction|reflexivity]. }
  split; [intros i b H; apply Hin in H as [Hb Ht]; apply is_trending_spec in Ht; auto|].
  split; [exact Hnd|].
  split; [eapply StronglySorted_impl; [|exact Hsort];
          intros x y; apply by_rating_desc_alt|].
  split; [rewrite Hlen; lia|].
  intros pool Hpnd Hpool. rewrite Hlen. f_equal. symmetry. apply Permutation_length.
  apply NoDup_Permutation; [exact Hpnd|apply NoDup_filter, NoDup_map_to_list|].
  intros [i b]. rewrite Hpool, list_elem_of_filter, elem_of_map_to_list, is_trending_spec.
  tauto.
Qed.

End Featured.

Section Pagination.

Variable regex_test : string -> string -> bool.
Variable textScore : string -> ObjectId * Book -> Q.
Variable text_match : string -> ObjectId * Book -> bool.

(** Cutting a list into pages of [limit] elements loses and repeats
    nothing. *)
Lemma pages_cover {A} (l : list A) (limit pages : nat) :
  (0 < limit)%nat -> (length l <= pages * limit)%nat ->
  concat (map (fun k => take limit (drop (k * limit) l)) (seq 0 pages)) = l.
Proof.
  intros Hlimit. revert l. induction pages as [|n IH]; intros l Hlen.
  - simpl in *. destruct l; [reflexivity|simpl in Hlen; lia].
  - rewrite <- cons_seq, <- fmap_S_seq. simpl.
    change (map (fun k => take limit (drop (k * limit) l)) (S <$> seq 0 n))
      with ((fun k => take limit (drop (k * limit) l)) <$> (S <$> seq 0 n)).
    rewrite <- list_fmap_compose.
    transitivity (take limit l ++ drop limit l); [|apply take_drop]. f_equal.
    rewrite <- (IH (drop limit l)) by (rewrite length_drop; simpl in Hlen; lia).
    f_equal. apply list_fmap_ext. intros _ k _. simpl.
    rewrite drop_drop. reflexivity.
Qed.

Lemma with_page_errors p q :
  1 <= p -> books_query_errors q = [] -> books_query_errors (with_page p q) = [].
Proof.
  unfold books_query_errors. intros Hp Herr.
  apply app_eq_nil in Herr as [_ Herr].
  unfold with_page. cbn [q_page q_limit q_sortBy q_order]. rewrite Herr.
  cbn [from_option]. destruct (Z.leb_spec 1 p); [reflexivity|lia].
Qed.

Lemma listBooks_page p q db :
  1 <= p -> books_query_errors q = [] ->
  Forall (ownerless db) (find_books regex_test text_match q db) ->
  fst (listBooks regex_test textScore text_match (with_page p q) db) =
    let limit := parseInt_or (q_limit q) 12 in
    let total := Z.of_nat (length (find_books regex_test text_match q db)) in
    {| status := 200;
       body :=
         JObj [("books"%string,
                JArr (map (book_json_with JNull)
                        (take (Z.to_nat limit)
                           (drop (Z.to_nat (p - 1) * Z.to_nat limit)
                              (merge_sort (books_order textScore q)
                                 (find_books regex_test text_match q db))))));
               ("pagination"%string,
                JObj [("current"%string, JNum (inject_Z p));
                      ("pages"%string,
                       JNum (inject_Z (Math_ceil (inject_Z total / inject_Z limit))));
                      ("total"%string, JNum (inject_Z total));
                      ("limit"%string, JNum (inject_Z limit))])] |}.
Proof.
  intros Hp Herr Howners. rewrite listBooks_run, (with_page_errors p q Hp Herr). cbv zeta.
  change (books_order textScore (with_page p q)) with (books_order textScore q).
  change (find_books regex_test text_match (with_page p q) db)
    with (find_books regex_test text_match q db).
  change (q_limit (with_page p q)) with (q_limit q).
  change (parseInt_or (q_page (with_page p q)) 1) with (if p =? 0 then 1 else p).
  destruct (Z.eqb_spec p 0); [lia|].
  unfold books_query_errors in Herr.
  apply app_eq_nil in Herr as [_ Herr]. apply app_eq_nil in Herr as [Hlimit _].
  pose proof (parseInt_or_valid_limit _ Hlimit) as Hl.
  rewrite Z2Nat.inj_mul by lia.
  set (items := take _ (drop _ _)).
  destruct (listed_books_cases db items) as [[_ ->]|[HF _]]; [reflexivity|].
  exfalso. apply HF. apply Forall_forall. intros doc Hdoc.
  rewrite Forall_forall in Howners. apply Howners.
  subst items. apply subseteq_take, subseteq_drop in Hdoc.
  rewrite merge_sort_Permutation in Hdoc. exact Hdoc.
Qed.

(** X18. The pages of the book list partition the result.  For a
    well-formed query whose matching books have no owner with a user
    document, every page is answered 200, the [books] arrays of pages 1 up to
    the reported page count, one after the other, are exactly the sorted
    matching books, each once and in order, and every page beyond the page
    count is empty. *)
Theorem listBooks_pages_partition (q : BooksQuery) (db : DB) :
  books_query_errors q = [] ->
  Forall (ownerless db) (find_books regex_test text_match q db) ->
  let sorted :=
    merge_sort (books_order textScore q) (find_books regex_test text_match q db) in
  let total := Z.of_nat (length (find_books regex_test text_match q db)) in
  let pages := Math_ceil (inject_Z total / inject_Z (parseInt_or (q_limit q) 12)) in
  (forall p, 1 <= p ->
     status (fst (listBooks regex_test textScore text_match (with_page p q) db)) = 200 /\
     json_get "pagination"
       (body (fst (listBooks regex_test textScore text_match (with_page p q) db)))
       ≫= json_get "pages" = Some (JNum (inject_Z pages))) /\
  concat
    (map (fun k =>
            response_books
              (fst (listBooks regex_test textScore text_match
                      (with_page (Z.of_nat (S k)) q) db)))
       (seq 0 (Z.to_nat pages)))
    = map (book_json_with JNull) sorted /\
  (forall p, pages < p ->
     response_books (fst (listBooks regex_test textScore text_match (with_page p q) db))
       = []).
Proof.
  intros Herr Howners sorted total pages.
  pose proof Herr as Herr'. unfold books_query_errors in Herr'.
  apply app_eq_nil in Herr' as [_ Herr']. apply app_eq_nil in Herr' as [Hlimit _].
  pose proof (parseInt_or_valid_limit _ Hlimit) as Hl.
  set (limit := parseInt_or (q_limit q) 12) in *.
  pose proof (Math_ceil_div total limit ltac:(lia)) as Hceil. fold pages in Hceil.
  assert (length sorted = length (find_books regex_test text_match q db)) as Hlen
    by (subst sorted; rewrite merge_sort_Permutation; reflexivity).
  assert (0 <= pages) as Hpages by (subst total; nia).
  split; [|split].
  - intros p Hp. rewrite listBooks_page by assumption. split; reflexivity.
  - rewrite <- (pages_cover sorted (Z.to_nat limit) (Z.to_nat pages)).
    + rewrite concat_map, List.map_map. f_equal. apply List.map_ext. intros k.
      rewrite listBooks_page by (lia || assumption). cbv zeta. fold limit. fold sorted.
      replace (Z.to_nat (Z.of_nat (S k) - 1)) with k by lia. reflexivity.
    + lia.
    + rewrite Hlen. subst total. nia.
  - intros p Hp. rewrite listBooks_page by (lia || assumption). cbv zeta.
    fold limit. fold sorted. unfold response_books. simpl.
    rewrite drop_ge; [rewrite take_nil; reflexivity|]. rewrite Hlen. subst total. nia.
Qed.

End Pagination.

Section RatingDistribution.

Variable helpful_compare : list Vote -> list Vote -> comparison.

Lemma sumZ_Permutation (l k : list Z) : l ≡ₚ k -> sumZ l = sumZ k.
Proof.
  unfold sumZ. induction 1; simpl; lia.
Qed.

Lemma sumZ_indicator (x : Z) (ks : list Z) :
  NoDup ks -> x ∈ ks ->
  sumZ (map (fun k => if decide (x = k) then 1 else 0) ks) = 1.
Proof.
  unfold sumZ. induction 1 as [|k ks Hk Hnd IH]; intros Hin; [inversion Hin|].
  simpl. apply elem_of_cons in Hin as [->|Hin].
  - destruct (decide (k = k)); [|contradiction].
    assert (foldr Z.add 0 (map (fun k0 => if decide (k = k0) then 1 else 0) ks) = 0) as ->;
      [|reflexivity].
    clear IH Hnd. induction ks as [|y ks IH']; [reflexivity|]. simpl.
    apply not_elem_of_cons in Hk as [Hne Hk].
    destruct (decide (k = y)); [contradiction|]. rewrite IH' by exact Hk. reflexivity.
  - destruct (decide (x = k)) as [->|_]; [contradiction|]. rewrite IH by exact Hin.
    reflexivity.
Qed.

(** Counting the reviews rating by rating counts each review once. *)
Lemma count_rating_partition (ks : list Z) (rs : list Review) :
  NoDup ks -> (forall r, r ∈ rs -> rating r ∈ ks) ->
  sumZ (map (fun k => count_rating k rs) ks) = Z.of_nat (length rs).
Proof.
  intros Hnd. induction rs as [|r rs IH]; intros Hall.
  - unfold count_rating. simpl. clear. unfold sumZ.
    induction ks as [|k ks IH]; [reflexivity|]. simpl. rewrite IH. reflexivity.
  - assert (sumZ (map (fun k => count_rating k (r :: rs)) ks)
            = sumZ (map (fun k => if decide (rating r = k) then 1 else 0) ks)
              + sumZ (map (fun k => count_rating k rs) ks)) as ->.
    { clear. unfold sumZ, count_rating. induction ks as [|k ks IH]; [reflexivity|].
      simpl. rewrite IH, filter_cons.
      destruct (decide (rating r = k)); simpl length; lia. }
    rewrite sumZ_indicator by (auto; apply Hall, list_elem_of_here).
    rewrite IH by (intros x Hx; apply Hall, list_elem_of_further, Hx).
    simpl length. lia.
Qed.

Lemma count_rating_positive k rs : 0 < count_rating k rs <-> k ∈ map rating rs.
Proof.
  unfold count_rating. change (map rating rs) with (rating <$> rs).
  rewrite list_elem_of_fmap. split.
  - intros Hpos. destruct (filter (fun r => rating r = k) rs) as [|r l] eqn:E;
      [simpl in Hpos; lia|].
    assert (r ∈ filter (fun r => rating r = k) rs) as Hr by (rewrite E; apply list_elem_of_here).
    apply list_elem_of_filter in Hr as [Hk Hr]. eauto.
  - intros [r [-> Hr]].
    assert (r ∈ filter (fun r0 => rating r0 = rating r) rs) as Hin
      by (apply list_elem_of_filter; auto).
    destruct (filter _ rs); [inversion Hin|simpl; lia].
Qed.

#[local] Instance higher_rating_first_total : Total higher_rating_first.
Proof. intros x y. unfold higher_rating_first. lia. Qed.

#[local] Instance higher_rating_first_trans : Transitive higher_rating_first.
Proof. intros x y z. unfold higher_rating_first. lia. Qed.

Lemma rating_distribution_Permutation rs :
  rating_distribution rs ≡ₚ
    (fun k => (k, count_rating k rs)) <$> remove_dups (map rating rs).
Proof. unfold rating_distribution. apply merge_sort_Permutation. Qed.

Lemma strictly_sorted (l : list (Z * Z)) :
  StronglySorted higher_rating_first l -> NoDup (fst <$> l) ->
  StronglySorted (fun x y => fst y < fst x) l.
Proof.
  induction 1 as [|x l Hl IH Hx]; intros Hnd; constructor.
  - apply IH. apply NoDup_cons in Hnd. tauto.
  - simpl in Hnd. apply NoDup_cons in Hnd as [Hnot _].
    apply Forall_forall. intros y Hy. rewrite Forall_forall in Hx.
    pose proof (Hx y Hy) as Hle. unfold higher_rating_first in Hle.
    destruct (decide (fst y = fst x)) as [Heq|Hne]; [|lia].
    exfalso. apply Hnot. rewrite <- Heq. apply list_elem_of_fmap_2, Hy.
Qed.

(** The rating distribution of a list of reviews. *)
Lemma rating_distribution_spec rs :
  StronglySorted (fun x y => fst y < fst x) (rating_distribution rs) /\
  (forall k c, (k, c) ∈ rating_distribution rs <-> c = count_rating k rs /\ 0 < c) /\
  sumZ (map snd (rating_distribution rs)) = Z.of_nat (length rs).
Proof.
  pose proof (rating_distribution_Permutation rs) as Hperm.
  assert (fst <$> rating_distribution rs ≡ₚ remove_dups (map rating rs)) as Hkeys.
  { rewrite Hperm, <- list_fmap_compose. simpl. rewrite list_fmap_id. reflexivity. }
  split; [|split].
  - apply strictly_sorted.
    + unfold rating_distribution. apply StronglySorted_merge_sort; apply _.
    + rewrite Hkeys. apply NoDup_remove_dups.
  - intros k c. rewrite Hperm, list_elem_of_fmap. split.
    + intros [k' [[= -> ->] Hk]]. split; [reflexivity|].
      apply count_rating_positive. rewrite elem_of_remove_dups in Hk. exact Hk.
    + intros [-> Hpos]. exists k. split; [reflexivity|].
      apply elem_of_remove_dups, count_rating_positive, Hpos.
  - change (map snd (rating_distribution rs)) with (snd <$> rating_distribution rs).
    rewrite (sumZ_Permutation _ (snd <$> ((fun k => (k, count_rating k rs))
                                           <$> remove_dups (map rating rs))))
      by (rewrite Hperm; reflexivity).
    rewrite <- list_fmap_compose.
    apply count_rating_partition; [apply NoDup_remove_dups|].
    intros r Hr. apply elem_of_remove_dups.
    change (map rating rs) with (rating <$> rs). apply list_elem_of_fmap_2, Hr.
Qed.

Lemma listBookReviews_run q bookId db :
  listBookReviews helpful_compare q bookId db =
    match reviews_query_errors q with
    | _ :: _ =>
        ({| status := 400;
            body := validation_failed "Invalid query parameters" (reviews_query_errors q) |},
         db)
    | [] =>
      let page := parseInt_or (rq_page q) 1 in
      let limit := parseInt_or (rq_limit q) 10 in
      let matched := match_book bookId (reviews db) in
      let total := Z.of_nat (length matched) in
      let found :=
        take (Z.to_nat limit)
          (drop (Z.to_nat ((page - 1) * limit))
             (merge_sort (reviews_order helpful_compare q) matched)) in
      (match mapM (listed_review_json db) found with
       | Some l =>
           {| status := 200;
              body :=
                JObj [("reviews"%string, JArr l);
                      ("pagination"%string,
                       JObj [("current"%string, JNum (inject_Z page));
                             ("pages"%string,
                              JNum (inject_Z (Math_ceil (inject_Z total / inject_Z limit))));
                             ("total"%string, JNum (inject_Z total));
                             ("limit"%string, JNum (inject_Z limit))]);
                      ("ratingDistribution"%string,
                       JArr (map group_json (rating_distribution matched)))] |}
       | None => server_error "Server error while fetching book reviews"
       end, db)
    end.
Proof.
  unfold listBookReviews, try_catch. destruct (reviews_query_errors q); [|reflexivity].
  cbv zeta. unfold bind, read.
  destruct (mapM (listed_review_json db) _); reflexivity.
Qed.

(** X19. The aggregation of the reviews-of-a-book route yields a rating
    distribution that has one entry for each rating that occurs among the
    book's reviews, highest rating first and no rating twice; the count of
    an entry is the number of the book's reviews with that rating, never 0.
    On a well-formed query the route answers 200 when no review of the book
    has an author with a user document, and whenever it answers 200 the
    answer carries this distribution, and its counts add up to the [total]
    of the pagination. *)
Theorem ratingDistribution_counts_reviews
    (q : ReviewsQuery) (bookId : ObjectId) (db : DB) :
  reviews_query_errors q = [] ->
  let res := fst (listBookReviews helpful_compare q bookId db) in
  let matched := match_book bookId (reviews db) in
  let dist := rating_distribution matched in
  (Forall (authorless db) matched -> status res = 200) /\
  (status res = 200 ->
     json_get "ratingDistribution" (body res) = Some (JArr (map group_json dist)) /\
     json_get "pagination" (body res) ≫= json_get "total"
       = Some (JNum (inject_Z (sumZ (map snd dist))))) /\
  StronglySorted (fun x y => fst y < fst x) dist /\
  (forall k c, (k, c) ∈ dist <-> c = count_rating k matched /\ 0 < c) /\
  (forall k, k ∈ map fst dist <-> exists r, r ∈ reviews db /\ book r = bookId /\ rating r = k).
Proof.
  intros Herr res matched dist. subst res dist.
  rewrite listBookReviews_run, Herr. cbv zeta. fold matched.
  destruct (rating_distribution_spec matched) as (Hsorted & Hmem & Hsum).
  set (found := take _ (drop _ _)).
  split; [|split; [|split; [exact Hsorted|split; [exact Hmem|]]]].
  - intros HF. destruct (listed_reviews_cases db found) as [[_ ->]|[HF' _]];
      [reflexivity|].
    exfalso. apply HF'. apply Forall_forall. intros r Hr.
    rewrite Forall_forall in HF. apply HF.
    subst found. apply subseteq_take, subseteq_drop in Hr.
    rewrite merge_sort_Permutation in Hr. exact Hr.
  - destruct (mapM (listed_review_json db) found); [|discriminate]. intros _.
    split; [reflexivity|]. simpl. rewrite Hsum. reflexivity.
  - intros k. change (map fst (rating_distribution matched))
      with (fst <$> rating_distribution matched).
    rewrite list_elem_of_fmap. split.
    + intros [[k' c] [-> Hin]]. apply Hmem in Hin as [-> Hpos].
      apply count_rating_positive in Hpos.
      change (map rating matched) with (rating <$> matched) in Hpos.
      apply list_elem_of_fmap in Hpos as [r [Hk Hr]].
      subst matched. unfold match_book in Hr. apply list_elem_of_filter in Hr as [Hb Hr].
      simpl. eauto.
    + intros (r & Hr & Hb & Hk). exists (k, count_rating k matched). split; [reflexivity|].
      apply Hmem. split; [reflexivity|]. apply count_rating_positive.
      change (map rating matched) with (rating <$> matched).
      apply list_elem_of_fmap. exists r. split; [auto|].
      subst matched. unfold match_book. apply list_elem_of_filter. auto.
Qed.

End RatingDistribution.

Section RatingsInRange.

Lemma review_errors_rating req : review_errors req = [] -> 1 <= rb_rating req <= 5.
Proof.
  unfold review_errors. intros H. apply app_eq_nil in H as [H _].
  destruct (Z.leb_spec 1 (rb_rating req)); [|discriminate].
  destruct (Z.leb_spec (rb_rating req) 5); [lia|discriminate].
Qed.

Lemma update_errors_rating req x :
  update_errors req = [] -> ub_rating req = Some x -> 1 <= x <= 5.
Proof.
  unfold update_errors. intros H Hx. apply app_eq_nil in H as [H _].
  rewrite Hx in H. simpl in H.
  destruct (Z.leb_spec 1 x); [|discriminate].
  destruct (Z.leb_spec x 5); [lia|discriminate].
Qed.

Lemma ratings_in_range_frame db db' :
  reviews db' = reviews db -> ratings_in_range db -> ratings_in_range db'.
Proof. unfold ratings_in_range. intros ->. auto. Qed.

Lemma ratings_in_range_inserted r db :
  1 <= rating r <= 5 -> ratings_in_range db -> ratings_in_range (inserted r db).
Proof.
  intros Hr H x Hx. rewrite inserted_reviews in Hx.
  apply elem_of_app in Hx as [Hx|Hx]; [apply H, Hx|].
  apply list_elem_of_singleton in Hx. subst x. exact Hr.
Qed.

Lemma run_mutation_ratings_in_range m db :
  ratings_in_range db -> ratings_in_range (snd (run_mutation m db)).
Proof.
  intros H.
  destruct m as [au newId now bid req | au newId now bid req | au now id req | au id];
    simpl.
  - rewrite createReview_run. cbv zeta.
    destruct (review_errors req) eqn:Herr; [|exact H].
    destruct (books db !! bid); [|exact H].
    destruct (list_find _ (reviews db)); [exact H|].
    destruct (negb _ || duplicate_key _ (reviews db)); [exact H|].
    assert (ratings_in_range (inserted (new_review newId bid (au_id au) now req) db)) as HI
      by (apply ratings_in_range_inserted; [apply review_errors_rating, Herr|exact H]).
    simpl. unfold after_creation.
    destruct (users db !! au_id au) as [u|]; simpl; [|exact HI].
    destruct (decide (bid ∈ booksRead u)); exact HI.
  - rewrite createNestedReview_run. cbv zeta.
    destruct (review_errors req) eqn:Herr; [|exact H].
    destruct (books db !! bid); [|exact H].
    destruct (list_find _ (reviews db)); [exact H|].
    destruct (negb _ || duplicate_key _ (reviews db)); [exact H|].
    assert (ratings_in_range (inserted (new_review newId bid (au_id au) now req) db)) as HI
      by (apply ratings_in_range_inserted; [apply review_errors_rating, Herr|exact H]).
    simpl. unfold after_creation. destruct (users db !! au_id au) as [u|]; [|exact HI].
    destruct (decide (bid ∈ booksRead u)); exact HI.
  - rewrite updateReview_run. cbv zeta.
    destruct (update_errors req) eqn:Herr; [|exact H].
    destruct (find_review id (reviews db)) as [[i r]|] eqn:Hf; [|exact H].
    destruct (negb _); [exact H|].
    destruct (update_valid _); [|exact H]. simpl.
    intros x Hx. rewrite recomputed_reviews in Hx. simpl in Hx.
    apply elem_of_overwrite_inv in Hx as [->|Hx]; [|apply H, Hx]. simpl.
    destruct (ub_rating req) as [y|] eqn:Hy; simpl.
    + eapply update_errors_rating; eauto.
    + apply H. apply list_elem_of_lookup. eauto using find_review_lookup.
  - rewrite deleteReview_run.
    destruct (find_review id (reviews db)) as [[i r]|] eqn:Hf; [|exact H].
    destruct (negb _ && _); [exact H|]. simpl.
    intros x Hx. rewrite recomputed_reviews in Hx. simpl in Hx.
    apply H. eapply list_elem_of_delete_inv, Hx.
Qed.

(** X20. Review mutations keep every stored rating within 1..5, whatever
    they answer; and on a database whose books have their aggregates, every
    book then has an average rating between 0 and 5 (at least 1 once it has
    a review) and a ratings count that is the number of its reviews. *)
Theorem review_mutations_keep_ratings_in_range (m : ReviewMutation) (db : DB) :
  ratings_in_range db ->
  let db' := snd (run_mutation m db) in
  ratings_in_range db' /\
  (all_aggregates_hold db ->
   forall bid b, books db' !! bid = Some b ->
     (0 <= averageRating b)%Q /\ (averageRating b <= 5)%Q /\
     ratingsCount b = Z.of_nat (length (ratings_of bid db')) /\
     (ratings_of bid db' <> [] -> (1 <= averageRating b)%Q)).
Proof.
  intros H db'. subst db'.
  pose proof (run_mutation_ratings_in_range m db H) as H'.
  split; [exact H'|].
  intros Hall bid b Hb.
  destruct (run_mutation_all_aggregates m db Hall bid b Hb) as [Ha Hc].
  assert (Forall (fun r => 1 <= r <= 5) (ratings_of bid (snd (run_mutation m db)))) as Hrange.
  { apply Forall_forall. intros x Hx. unfold ratings_of in Hx.
    change (map rating ?l) with (rating <$> l) in Hx.
    apply list_elem_of_fmap in Hx as [r [-> Hr]].
    unfold match_book in Hr. apply list_elem_of_filter in Hr as [_ Hr]. apply H', Hr. }
  destruct (aggregate_of_range _ Hrange) as [H0 H5].
  rewrite Ha, Hc. split; [exact H0|]. split; [exact H5|]. split.
  - unfold aggregate_of. destruct (ratings_of bid _); reflexivity.
  - intros Hne. destruct (mean_range _ Hne Hrange) as [Hlo _].
    destruct (ratings_of bid (snd (run_mutation m db))) as [|x l] eqn:E; [congruence|].
    change (fst (aggregate_of (x :: l)))
      with (inject_Z (Math_round (mean (x :: l) * 10)) / 10)%Q.
    assert (10 <= Math_round (mean (x :: l) * 10)) as H10.
    { apply Z.le_trans with (Math_round (inject_Z 10)); [rewrite Math_round_Z; lia|].
      apply Math_round_mono. change (inject_Z 10) with 10%Q. lra. }
    rewrite Zle_Qle in H10. change (inject_Z 10) with 10%Q in H10.
    set (k := inject_Z (Math_round (mean (x :: l) * 10))) in *.
    apply Qle_shift_div_l; [reflexivity|]. lra.
Qed.

End RatingsInRange.

Section CreationOutcomes.


Lemma recommend_excludes_read u db i b : (i, b) ∈ recommend u db -> i ∉ booksRead u.
Proof.
  unfold recommend. intros Hin. apply subseteq_take in Hin.
  rewrite merge_sort_Permutation in Hin.
  apply elem_of_recommend_pool in Hin as [_ (_ & Hnot & _)]. exact Hnot.
Qed.

(** X22. A book that a user has just reviewed is not selected for that
    user: after a review creation that was carried out, on either route, the
    reviewed book is among the requester's books read, and the
    recommendation query for the requester's user document does not select
    it. *)
Theorem reviewed_book_not_recommended
    (nested : bool) (au : AuthUser) (newId : ObjectId) (now : Z)
    (bid : ObjectId) (req : ReviewBody) (db : DB) (u' : User) :
  let create := if nested then createNestedReview else createReview in
  let db' := snd (create au newId now bid req db) in
  can_review au newId bid req db ->
  users db' !! au_id au = Some u' ->
  (bid ∈ booksRead u') /\
  forall i b, (i, b) ∈ recommend u' db' -> i <> bid.
Proof.
  intros create db' Hc Hu'. subst db' create.
  assert (bid ∈ booksRead u') as Hread.
  { rewrite (proj1 (creation_database nested au newId now bid req db) Hc) in Hu'.
    rewrite after_creation_users in Hu'.
    destruct (users db !! au_id au) as [u|] eqn:Hu; [|congruence].
    destruct (decide (bid ∈ booksRead u)) as [Hin|Hnot].
    - rewrite Hu in Hu'. injection Hu' as <-. exact Hin.
    - rewrite lookup_insert_eq in Hu'. injection Hu' as <-. simpl.
      apply elem_of_app. right. apply list_elem_of_here. }
  split; [exact Hread|].
  intros i b Hin ->. exact (recommend_excludes_read _ _ _ _ Hin Hread).
Qed.

End CreationOutcomes.

(** * The further theorems at work on the example database *)

Lemma library_ratings_in_range : ratings_in_range library.
Proof.
  assert (Forall (fun r => 1 <= rating r <= 5) (reviews library)) as H
    by (repeat constructor; simpl; lia).
  intros r Hr. exact (proj1 (Forall_forall _ _) H r Hr).
Qed.

Lemma shelf_aggregates : all_aggregates_hold shelf.
Proof.
  intros bid b Hb. destruct (decide (bid = 100%N)) as [->|Hne].
  - vm_compute in Hb. inversion Hb. split; vm_compute; reflexivity.
  - unfold shelf in Hb. simpl in Hb. rewrite lookup_singleton_ne in Hb by congruence.
    discriminate Hb.
Qed.

(** User 4 likes review 11, which nobody had liked. *)
Lemma like_toggles_membership_witness :
  find_review 11 (reviews library) = Some (0%nat, a_review 11 100 1 5) /\
  exists r1,
    reviews (snd (likeReview dee 11 library)) = <[0%nat := r1]> (reviews library) /\
    likes r1 = [4%N] /\
    json_get "isLiked" (body (fst (likeReview dee 11 library))) = Some (JBool true).
Proof.
  assert (find_review 11 (reviews library) = Some (0%nat, a_review 11 100 1 5)) as H
    by reflexivity.
  split; [exact H|].
  destruct (like_toggles_membership dee 11 library _ _ H)
    as (r1 & _ & Hr & _ & _ & Hadd & _).
  exists r1. split; [exact Hr|].
  destruct Hadd as [Hl Hj]; [simpl; apply not_elem_of_nil|].
  split; [exact Hl|exact Hj].
Defined.

(** User 4 likes review 11 and takes the like back. *)
Lemma like_twice_restores_witness :
  find_review 11 (reviews library) = Some (0%nat, a_review 11 100 1 5) /\
  exists r2,
    find_review 11 (reviews (snd (likeReview dee 11 (snd (likeReview dee 11 library)))))
      = Some (0%nat, r2) /\
    likes r2 = [].
Proof.
  assert (find_review 11 (reviews library) = Some (0%nat, a_review 11 100 1 5)) as H
    by reflexivity.
  split; [exact H|].
  destruct (like_twice_restores dee 11 library _ _ H) as (r2 & Hf & Hsame & _).
  exists r2. split; [exact Hf|]. apply Hsame. simpl. apply not_elem_of_nil.
Defined.



(** User 1 follows user 2 and then looks at the profile of user 2. *)
Lemma profile_fails_after_follow_witness :
  au_id ann <> 2%N /\
  users library !! au_id ann = Some (a_user "ann" [Fiction] [100%N]) /\
  users library !! 2%N = Some (a_user "bob" [] [100%N]) /\
  json_get "isFollowing" (body (fst (follow ann 2 library))) = Some (JBool true) /\
  status (fst (getProfile (Some ann) 2 (snd (follow ann 2 library)))) = 500.
Proof.
  assert (au_id ann <> 2%N) as H1 by discriminate.
  assert (users library !! au_id ann = Some (a_user "ann" [Fiction] [100%N])) as H2
    by reflexivity.
  assert (users library !! 2%N = Some (a_user "bob" [] [100%N])) as H3 by reflexivity.
  assert (json_get "isFollowing" (body (fst (follow ann 2 library))) = Some (JBool true))
    as H4 by reflexivity.
  split; [exact H1|]. split; [exact H2|]. split; [exact H3|]. split; [exact H4|].
  destruct (profile_fails_after_follow ann 2 library _ _ H1 H2 H3) as [_ Hfail].
  rewrite (Hfail H4 (Some ann)). reflexivity.
Defined.

(** User 4 votes on review 11 of the one-book database. *)
Lemma votes_and_likes_leave_books_witness :
  all_aggregates_hold shelf /\
  books (snd (markHelpful dee 11 true shelf)) = books shelf /\
  ratings_of 100 (snd (likeReview dee 11 shelf)) = [5; 4; 3].
Proof.
  split; [exact shelf_aggregates|].
  destruct (votes_and_likes_leave_books dee 11 true shelf shelf_aggregates)
    as [(Hb & _ & _) (_ & _ & Hr)].
  split; [exact Hb|]. rewrite Hr. reflexivity.
Defined.

Lemma deserted_ownerless (q : BooksQuery) :
  Forall (ownerless deserted)
    (find_books (fun _ _ => true) (fun _ _ => true) q deserted).
Proof. apply Forall_forall. intros doc _. apply lookup_empty. Qed.

(** The six books of the example fill one page; the second page is empty. *)
Lemma listBooks_pages_partition_witness :
  books_query_errors plain_query = [] /\
  Forall (ownerless deserted)
    (find_books (fun _ _ => true) (fun _ _ => true) plain_query deserted) /\
  status (fst (listBooks (fun _ _ => true) (fun _ _ => 1%Q) (fun _ _ => true)
                 (with_page 1 plain_query) deserted)) = 200 /\
  response_books
    (fst (listBooks (fun _ _ => true) (fun _ _ => 1%Q) (fun _ _ => true)
            (with_page 2 plain_query) deserted)) = [].
Proof.
  assert (books_query_errors plain_query = []) as H by reflexivity.
  split; [exact H|]. split; [apply deserted_ownerless|].
  destruct (listBooks_pages_partition (fun _ _ => true) (fun _ _ => 1%Q)
              (fun _ _ => true) plain_query deserted H (deserted_ownerless plain_query))
    as (Hpage & _ & Hbeyond).
  split; [apply Hpage; lia|].
  apply Hbeyond. vm_compute. reflexivity.
Defined.

(** Book 100 has one review with rating 5. *)
Lemma ratingDistribution_counts_reviews_witness :
  reviews_query_errors plain_reviews_query = [] /\
  status (fst (listBookReviews (fun _ _ => Eq) plain_reviews_query 100 deserted)) = 200 /\
  json_get "ratingDistribution"
    (body (fst (listBookReviews (fun _ _ => Eq) plain_reviews_query 100 deserted)))
    = Some (JArr (map group_json (rating_distribution (match_book 100 (reviews deserted))))) /\
  (5, 1) ∈ rating_distribution (match_book 100 (reviews deserted)).
Proof.
  assert (reviews_query_errors plain_reviews_query = []) as H by reflexivity.
  split; [exact H|].
  destruct (ratingDistribution_counts_reviews (fun _ _ => Eq) plain_reviews_query
              100 deserted H) as (Hok & Hbody & _ & Hin & _).
  assert (status (fst (listBookReviews (fun _ _ => Eq) plain_reviews_query 100 deserted))
          = 200) as H200.
  { apply Hok. apply Forall_forall. intros r _. apply lookup_empty. }
  split; [exact H200|]. split; [exact (proj1 (Hbody H200))|].
  apply Hin. split; [vm_compute; reflexivity|lia].
Defined.

(** The fourth review of the scenario leaves all ratings within 1..5. *)
Lemma review_mutations_keep_ratings_in_range_witness :
  ratings_in_range library /\
  ratings_in_range (snd (run_mutation (Create dee 14 0 100 two_stars) library)).
Proof.
  split; [exact library_ratings_in_range|].
  exact (proj1 (review_mutations_keep_ratings_in_range
                  (Create dee 14 0 100 two_stars) library library_ratings_in_range)).
Defined.

(** User 4 reviews book 100, which then is not selected for user 4. *)
Lemma reviewed_book_not_recommended_witness :
  can_review dee 14 100 two_stars library /\
  users (snd (createReview dee 14 0 100 two_stars library)) !! au_id dee
    = Some (a_user "dee" [] [100%N]) /\
  forall i b,
    (i, b) ∈ recommend (a_user "dee" [] [100%N])
               (snd (createReview dee 14 0 100 two_stars library)) ->
    i <> 100%N.
Proof.
  assert (users (snd (createReview dee 14 0 100 two_stars library)) !! au_id dee
            = Some (a_user "dee" [] [100%N])) as H2
    by (vm_compute; reflexivity).
  split; [exact dee_can_review|]. split; [exact H2|].
  exact (proj2 (reviewed_book_not_recommended false dee 14 0 100 two_stars library
                  _ dee_can_review H2)).
Defined.
